(** * Chinese text preprocessing and similarity search: a shallow embedding

    The Python sources are embedded function by function.  A Python [str]
    is a list of Unicode code points, a Python [set] of strings is a
    [gset], a file system is a finite map from paths to decoded contents,
    and a raised exception is the [Raise] branch of [result].

    Three things are outside the repository and are taken as parameters:
    the Unicode character database behind [\w], [\s], [\d] and
    [str.isspace] (only its non-ASCII part; the ASCII part is written
    out), the [jieba.cut] segmenter, and the scikit-learn vectorizer and
    cosine similarity.  Similarity scores are modelled as rationals: the
    code only compares them. *)

From Stdlib Require Import ZArith QArith List String Ascii Lia Permutation.
From stdpp Require Import base option list gmap sets strings sorting.

Open Scope Z_scope.

(** ** Python values *)

(** A Python string: the list of its code points. *)
Abbreviation str := (list Z).

(** The code points of an ASCII literal. *)
Fixpoint codes (s : string) : str :=
  match s with
  | EmptyString => []
  | String a s' => Z.of_nat (nat_of_ascii a) :: codes s'
  end.

Inductive exn : Type :=
  | AttributeError (msg : string)
  | FileNotFoundError (msg : string)
  | IndexError (msg : string)
  | ValueError (msg : string)
  | OtherError (msg : string).

(** [str(e)] *)
Definition str_exn (e : exn) : string :=
  match e with
  | AttributeError m | FileNotFoundError m | IndexError m
  | ValueError m | OtherError m => m
  end.

Inductive result (A : Type) : Type :=
  | Ok (a : A)
  | Raise (e : exn).
Arguments Ok {A} a.
Arguments Raise {A} e.

#[global] Instance result_ret : MRet result := fun A a => Ok a.

#[global] Instance result_bind : MBind result := fun A B k m =>
  match m with
  | Ok a => k a
  | Raise e => Raise e
  end.

(** ** Character classes *)

Module Chars.

Definition ascii_alpha (c : Z) : bool :=
  (65 <=? c) && (c <=? 90) || (97 <=? c) && (c <=? 122).

Definition ascii_digit (c : Z) : bool := (48 <=? c) && (c <=? 57).

(** [\t \n \v \f \r], the separators [0x1c..0x1f] and the space. *)
Definition ascii_space (c : Z) : bool :=
  (9 <=? c) && (c <=? 13) || (28 <=? c) && (c <=? 32).

(** The non-ASCII part of the Unicode database: [str.isalnum],
    [str.isspace] and [str.isdecimal] on one code point. *)
Record unicode_db : Type := {
  uni_alnum : Z -> bool;
  uni_space : Z -> bool;
  uni_decimal : Z -> bool
}.

(** [\w] of a [str] pattern: alphanumeric or underscore. *)
Definition is_word (U : unicode_db) (c : Z) : bool :=
  if c <? 128 then ascii_alpha c || ascii_digit c || (c =? 95)
  else uni_alnum U c.

(** [\s], and the whitespace of [str.strip] and [str.isspace]. *)
Definition is_space (U : unicode_db) (c : Z) : bool :=
  if c <? 128 then ascii_space c else uni_space U c.

(** [\d] of a [str] pattern. *)
Definition is_digit (U : unicode_db) (c : Z) : bool :=
  if c <? 128 then ascii_digit c else uni_decimal U c.

(** The database entries for the blocks the corpus is written in: CJK
    ideographs, full-width digits and letters, the ideographic space and
    the no-break space.  Used to run the code on concrete inputs. *)
Definition corpus_db : unicode_db := {|
  uni_alnum := fun c =>
    (0x4E00 <=? c) && (c <=? 0x9FFF)
    || (0xFF10 <=? c) && (c <=? 0xFF19)
    || (0xFF21 <=? c) && (c <=? 0xFF3A)
    || (0xFF41 <=? c) && (c <=? 0xFF5A);
  uni_space := fun c => (c =? 0x3000) || (c =? 0xA0);
  uni_decimal := fun c => (0xFF10 <=? c) && (c <=? 0xFF19)
|}.

End Chars.

(** ** The string and regular-expression operations the scripts call *)

Module Py.
Import Chars.

Section WithUnicode.
Variable U : unicode_db.

(** [re.sub(r'[^\w\s]', ' ', text)] *)
Definition sub_nonword (text : str) : str :=
  map (fun c => if is_word U c || is_space U c then c else 32) text.

(** [re.sub(p+, rep, text)] for a one-character class [p]: every maximal
    run of [p] characters becomes [rep].  [in_run] tells whether the
    previous character belonged to a run. *)
Fixpoint sub_runs (p : Z -> bool) (rep : str) (in_run : bool) (text : str) : str :=
  match text with
  | [] => []
  | c :: rest =>
      if p c then (if in_run then [] else rep) ++ sub_runs p rep true rest
      else c :: sub_runs p rep false rest
  end.

(** [re.sub(r'\d+', rep, text)] *)
Definition sub_digits (rep : str) (text : str) : str :=
  sub_runs (is_digit U) rep false text.

(** [re.sub(r'\s+', ' ', text)] *)
Definition sub_spaces (text : str) : str :=
  sub_runs (is_space U) [32] false text.

Fixpoint lstrip (text : str) : str :=
  match text with
  | [] => []
  | c :: rest => if is_space U c then lstrip rest else text
  end.

Definition rstrip (text : str) : str := rev (lstrip (rev text)).

(** [text.strip()] *)
Definition strip (text : str) : str := rstrip (lstrip text).

(** [text.isspace()]: non-empty and all whitespace. *)
Definition isspace (text : str) : bool :=
  match text with
  | [] => false
  | _ => forallb (is_space U) text
  end.

(** [text.startswith(p)] *)
Fixpoint startswith (p text : str) : bool :=
  match p, text with
  | [], _ => true
  | a :: p', b :: text' => (a =? b) && startswith p' text'
  | _ :: _, [] => false
  end.

(** [text.replace(old, new)] for a non-empty [old]: occurrences are found
    left to right and do not overlap; [skip] counts the characters of the
    current occurrence still to be dropped. *)
Fixpoint replace_scan (old new : str) (skip : nat) (text : str) : str :=
  match text with
  | [] => []
  | c :: rest =>
      match skip with
      | S k => replace_scan old new k rest
      | O =>
          if startswith old text
          then new ++ replace_scan old new (length old - 1) rest
          else c :: replace_scan old new 0 rest
      end
  end.

(** [text.replace(old, new)]; an empty [old] matches between characters. *)
Definition replace (old new : str) (text : str) : str :=
  match old with
  | [] => new ++ flat_map (fun c => c :: new) text
  | _ :: _ => replace_scan old new 0 text
  end.

(** One match of [[A-Za-z][^\w\s][A-Za-z]] at the head of [text]. *)
Definition special_at (text : str) : option str :=
  match text with
  | a :: x :: b :: _ =>
      if ascii_alpha a && negb (is_word U x || is_space U x) && ascii_alpha b
      then Some [a; x; b] else None
  | _ => None
  end.

(** [re.findall(r'([A-Za-z][^\w\s][A-Za-z])', text)]: the scan goes left
    to right and resumes after each match. *)
Fixpoint findall_special_scan (skip : nat) (text : str) : list str :=
  match text with
  | [] => []
  | _ :: rest =>
      match skip with
      | S k => findall_special_scan k rest
      | O =>
          match special_at text with
          | Some m => m :: findall_special_scan 2 rest
          | None => findall_special_scan 0 rest
          end
      end
  end.

Definition findall_special (text : str) : list str :=
  findall_special_scan 0 text.

(** The number of leading characters of [text] in [[0-9]]. *)
Fixpoint count_digits (text : str) : nat :=
  match text with
  | [] => O
  | c :: rest => if ascii_digit c then S (count_digits rest) else O
  end.

(** One match of [[0-9]{1,3}\.] at the head of [text]: the matched
    characters and what follows.  The character after the digits must be
    the dot, so only the longest run of digits can match, and only when it
    has at most three digits. *)
Definition octet_dot (text : str) : option (str * str) :=
  let k := count_digits text in
  if ((1 <=? k) && (k <=? 3))%nat then
    match drop k text with
    | 46 :: rest => Some (take (S k) text, rest)
    | _ => None
    end
  else None.

(** One match of [\b(?:[0-9]{1,3}\.){3}[0-9]{1,3}\b] at the head of
    [text]; [prev_word] tells whether the character before is a word
    character.  A digit is a word character, so the leading [\b] asks for
    [prev_word = false] and the closing one for a following character that
    is no word character (or the end). *)
Definition match_ip (prev_word : bool) (text : str) : option str :=
  if prev_word then None
  else
    '(o1, r1) ← octet_dot text;
    '(o2, r2) ← octet_dot r1;
    '(o3, r3) ← octet_dot r2;
    let k := count_digits r3 in
    let boundary :=
      match drop k r3 with
      | [] => true
      | c :: _ => negb (is_word U c)
      end in
    if ((1 <=? k) && (k <=? 3))%nat && boundary
    then Some (o1 ++ o2 ++ o3 ++ take k r3)
    else None.

(** [re.findall(r'\b(?:[0-9]{1,3}\.){3}[0-9]{1,3}\b', text)] *)
Fixpoint findall_ip_scan (prev_word : bool) (skip : nat) (text : str) : list str :=
  match text with
  | [] => []
  | c :: rest =>
      match skip with
      | S k => findall_ip_scan (is_word U c) k rest
      | O =>
          match match_ip prev_word text with
          | Some m => m :: findall_ip_scan (is_word U c) (length m - 1) rest
          | None => findall_ip_scan (is_word U c) 0 rest
          end
      end
  end.

Definition findall_ip (text : str) : list str := findall_ip_scan false 0 text.

End WithUnicode.

(** The lines of a text file opened with the default [newline=None]:
    ["\r\n"] and a lone ["\r"] are read as ["\n"]. *)
Fixpoint universal_newlines (content : str) : str :=
  match content with
  | [] => []
  | 13 :: rest =>
      match rest with
      | 10 :: _ => universal_newlines rest
      | _ => 10 :: universal_newlines rest
      end
  | c :: rest => c :: universal_newlines rest
  end.

(** Iterating over the file: each line keeps its ["\n"]; [cur] is the
    line being read, reversed. *)
Fixpoint readlines_from (cur : str) (content : str) : list str :=
  match content with
  | [] => match cur with [] => [] | _ => [rev cur] end
  | c :: rest =>
      if c =? 10 then rev (c :: cur) :: readlines_from [] rest
      else readlines_from (c :: cur) rest
  end.

Definition readlines (content : str) : list str :=
  readlines_from [] (universal_newlines content).

(** [sep.join(words)] *)
Fixpoint join (sep : str) (words : list str) : str :=
  match words with
  | [] => []
  | [w] => w
  | w :: rest => w ++ sep ++ join sep rest
  end.

(** [l[start:]] with Python's reading of a negative [start]. *)
Definition slice_from {A : Type} (start : Z) (l : list A) : list A :=
  if start <? 0 then drop (Z.to_nat (Z.max 0 (Z.of_nat (length l) + start))) l
  else drop (Z.to_nat start) l.

(** [range(a, b)] *)
Definition range (a b : nat) : list nat := seq a (b - a).

(** A [for] loop whose body updates the accumulator [s] and may raise. *)
Fixpoint for_each {A S : Type} (body : S -> A -> result S) (s : S) (l : list A) : result S :=
  match l with
  | [] => Ok s
  | x :: rest => s' ← body s x; for_each body s' rest
  end.

(** A list comprehension whose element expression may raise. *)
Fixpoint comprehension {A B : Type} (f : A -> result B) (l : list A) : result (list B) :=
  match l with
  | [] => Ok []
  | x :: rest => y ← f x; ys ← comprehension f rest; Ok (y :: ys)
  end.

End Py.

(** ** chinese_text_preprocessor.py *)

Module ChineseTextPreprocessor.
Import Chars Py.

(** The attributes of a [chinese_text_preprocessor] object the methods
    below read or assign.  [cleaned_text] is assigned by
    [extract_special_patterns] only: it is absent ([None]) on a fresh
    object. *)
Record self_t : Type := {
  stop_words : gset str;
  cleaned_text : option str
}.

(** [chr(ord(char) - 0xfee0 if 0xFF01 <= ord(char) <= 0xFF5E
         else 32 if ord(char) == 0x3000 else ord(char))] *)
Definition fold_char (c : Z) : Z :=
  if (0xFF01 <=? c) && (c <=? 0xFF5E) then c - 0xfee0
  else if c =? 0x3000 then 32
  else c.

Definition full_to_half (s : str) : str := map fold_char s.

Definition normalize_text (text : str) : str := full_to_half text.

Section WithEnvironment.
Variable U : unicode_db.
(** [jieba.cut] *)
Variable cut : str -> list str.

(** [load_stop_words]: [fs] maps each existing path to the decoded content
    of the file; a missing path is [FileNotFoundError], which the method
    catches. *)
Definition load_stop_words (fs : gmap string str) (file_path : string) : gset str :=
  match fs !! file_path with
  | Some content => list_to_set (map (strip U) (readlines content))
  | None => ∅
  end.

(** [__init__]; the vectorizer and the keyword threshold play no part in
    preprocessing. *)
Definition init (fs : gmap string str) (stop_words_file : string) : self_t :=
  {| stop_words := load_stop_words fs stop_words_file; cleaned_text := None |}.

Definition extract_special_patterns (self : self_t) (text : str) : gset str * self_t :=
  let patterns := findall_special U text in
  let text := foldl (fun text pattern => replace pattern [] text) text patterns in
  (list_to_set patterns,
   {| stop_words := stop_words self; cleaned_text := Some text |}).

Definition remove_special_characters (text : str) : str :=
  let text := sub_nonword U text in
  let text := sub_digits U [32] text in
  strip U (sub_spaces U text).

Definition remove_stop_words (self : self_t) (text : str) : gset str :=
  let words := cut text in
  list_to_set (filter (fun word => word ∉ stop_words self) words).

Definition preprocess (self : self_t) (text : str) : result (gset str * self_t) :=
  let '(special_patterns, self) := extract_special_patterns self text in
  text ← match cleaned_text self with
         | Some text => Ok text
         | None => Raise (AttributeError "cleaned_text")
         end;
  let text := normalize_text text in
  let text := remove_special_characters text in
  let words := remove_stop_words self text in
  let words := filter (fun word => strip U word ≠ []) words in
  Ok (words ∪ special_patterns, self).

End WithEnvironment.

End ChineseTextPreprocessor.

(** ** input_processor_port.py *)

Module InputProcessorPort.
Import Chars Py.

Record self_t : Type := {
  stop_words : gset str
}.

(** The body of the JSON response of [/process]. *)
Inductive body : Type :=
  | Error (error : string)
  | Processed (processed_text : gset str).

Section WithEnvironment.
Variable U : unicode_db.
(** [jieba.cut] *)
Variable cut : str -> list str.

Definition load_stop_words (fs : gmap string str) (file_path : string) : gset str :=
  match fs !! file_path with
  | Some content =>
      list_to_set (map (strip U) (readlines content))
  | None => ∅
  end.

Definition init (fs : gmap string str) (stop_words_file : string) : self_t :=
  {| stop_words := load_stop_words fs stop_words_file |}.

Definition extract_special_patterns (text : str) : str :=
  let patterns := findall_special U text in
  foldl (fun text pattern => replace pattern [] text) text patterns.

Definition extract_ip_addresses (text : str) : gset str :=
  list_to_set (findall_ip U text).

Definition normalize_text (text : str) : str :=
  map (fun char =>
         if (0xFF01 <=? char) && (char <=? 0xFF5E) then char - 0xfee0
         else if char =? 0x3000 then 32
         else char) text.

Definition remove_special_characters (text : str) : str :=
  let text := sub_nonword U text in
  let text := sub_digits U [32] text in
  strip U (sub_spaces U text).

Definition remove_stop_words (self : self_t) (text : str) : gset str :=
  let words := cut text in
  list_to_set (filter (fun word => word ∉ stop_words self) words).

Definition preprocess (self : self_t) (text : str) : gset str :=
  let text := extract_special_patterns text in
  let text := normalize_text text in
  let text := remove_special_characters text in
  let words := remove_stop_words self text in
  filter (fun word => strip U word ≠ []) words.

(** The [/process] route.  [text] is [request.json.get('text')]; the JSON
    list of the answer is kept as the set it is built from. *)
Definition process_text (fs : gmap string str) (text : option str) : body * Z :=
  match text with
  | None | Some [] => (Error "No text provided", 400)
  | Some text =>
      let processor := init fs "../dat/stop_words/stop_words_full.txt" in
      let processed_text := preprocess processor text in
      let processed_text := processed_text ∪ {[ codes "%ip" ]} in
      (Processed processed_text, 200)
  end.

End WithEnvironment.

End InputProcessorPort.

(** ** Data shared by the similarity scripts *)

Module Corpus.

(** One row of [words_set.csv]: the original question and its processed
    words, joined with spaces. *)
Record row : Type := {
  Question : str;
  Processed_Words_Set : str
}.

(** A dense view of a TF-IDF or similarity matrix: its rows. *)
Abbreviation matrix := (list (list Q)).

(** [data.iloc[i]] *)
Definition iloc (data : list row) (i : nat) : result row :=
  match data !! i with
  | Some r => Ok r
  | None => Raise (IndexError "single positional indexer is out-of-bounds")
  end.

(** [m[i, j]] *)
Definition at2 (m : matrix) (i j : nat) : result Q :=
  match m !! i with
  | Some r =>
      match r !! j with
      | Some x => Ok x
      | None => Raise (IndexError "index is out of bounds for axis 1")
      end
  | None => Raise (IndexError "index is out of bounds for axis 0")
  end.

(** [a[i]] on a one-dimensional array *)
Definition at1 (a : list Q) (i : nat) : result Q :=
  match a !! i with
  | Some x => Ok x
  | None => Raise (IndexError "index is out of bounds for axis 0")
  end.

(** [a > b] on scores *)
Definition gt (a b : Q) : bool := negb (Qle_bool a b).

(** [m.max()]: the largest entry; an empty array has none. *)
Definition np_max (m : matrix) : result Q :=
  match concat m with
  | [] => Raise (ValueError "zero-size array to reduction operation maximum which has no identity")
  | x :: xs => Ok (foldl (fun best y => if gt y best then y else best) x xs)
  end.

End Corpus.

(** ** compare_similarity.py *)

Module CompareSimilarity.
Import Py Corpus.

Definition default_threshold : Q := 6 # 10.

Definition find_high_similarity_pairs (cosine_sim_matrix : matrix) (data : list row)
    (threshold : Q) : result (list (str * str)) :=
  for_each (fun pairs i =>
    for_each (fun pairs j =>
      s ← at2 cosine_sim_matrix i j;
      if gt s threshold then
        ri ← iloc data i;
        rj ← iloc data j;
        Ok (pairs ++ [(Question ri, Question rj)])
      else Ok pairs)
    pairs (range (i + 1) (length data)))
  [] (range 0 (length data)).

End CompareSimilarity.

(** ** compare_similarity_port.py *)

Module CompareSimilarityPort.
Import Chars Py Corpus.

Definition WORDS_SET_PATH : string := "../dat/words_set/words_set.csv".
Definition STOP_WORDS_PATH : string := "../dat/stop_words/stop_words_full.txt".

Record self_t : Type := {
  stop_words : gset str
}.

(** The JSON bodies the service answers with. *)
Inductive body : Type :=
  | Error (error : string)
  | TooSimilar (similarity_score : Q)
  | DistinctEnough (similarity_score : Q).

Section WithEnvironment.
Variable U : unicode_db.
(** [jieba.cut] *)
Variable cut : str -> list str.
(** [pd.read_csv] followed by the clean-up of the column names *)
Variable load_data : string -> result (list row).
(** [TfidfVectorizer().fit_transform]: one row per document *)
Variable fit_transform : list str -> result matrix.
(** [sklearn.metrics.pairwise.cosine_similarity] *)
Variable cosine_similarity : matrix -> matrix -> result matrix.

Definition load_stop_words (fs : gmap string str) (file_path : string) : gset str :=
  match fs !! file_path with
  | Some content => list_to_set (map (strip U) (readlines content))
  | None => ∅
  end.

Definition init (fs : gmap string str) (stop_words_file : string) : self_t :=
  {| stop_words := load_stop_words fs stop_words_file |}.

Definition preprocess (self : self_t) (text : str) : str :=
  let text := sub_nonword U text in
  let text := sub_digits U [] text in
  join [32]
    (filter (fun word => (word ∉ stop_words self) ∧ isspace U word = false) (cut text)).

(** [X[:-1], X[-1]]; the vectorizer returned as third component is not
    used by the caller. *)
Definition vectorize_data (data : list row) (input_text : str) (preprocessor : self_t)
    : result (matrix * matrix) :=
  let processed_text := preprocess preprocessor input_text in
  let all_text := map Processed_Words_Set data ++ [processed_text] in
  X ← fit_transform all_text;
  last_row ← match last X with
             | Some r => Ok [r]
             | None => Raise (IndexError "row index out of range")
             end;
  Ok (take (length X - 1) X, last_row).

Definition check_similarity (input_vector dataset_vector : matrix) (threshold : Q)
    : result body :=
  cosine_sim ← cosine_similarity input_vector dataset_vector;
  max_similarity ← np_max cosine_sim;
  if gt max_similarity threshold then Ok (TooSimilar max_similarity)
  else Ok (DistinctEnough max_similarity).

Definition default_threshold : Q := 6 # 10.

(** The [/similarity_check] route; [input_text] is
    [request.json.get('text')]. *)
Definition similarity_check (fs : gmap string str) (input_text : option str) : body * Z :=
  match input_text with
  | None | Some [] => (Error "未提供文本", 400)
  | Some input_text =>
      let attempt :=
        let preprocessor := init fs STOP_WORDS_PATH in
        words_data ← load_data WORDS_SET_PATH;
        '(dataset_vector, input_vector) ← vectorize_data words_data input_text preprocessor;
        check_similarity input_vector dataset_vector default_threshold in
      match attempt with
      | Ok result => (result, 200)
      | Raise e => (Error (str_exn e), 500)
      end
  end.

End WithEnvironment.

End CompareSimilarityPort.

(** ** vectorize.py *)

Module Vectorize.
Import Py Corpus.

Definition default_top_n : Z := 5.

Section WithEnvironment.
(** A fitted [TfidfVectorizer] *)
Variable vectorizer : Type.
(** [vectorizer.transform] *)
Variable transform : vectorizer -> list str -> result matrix.
(** [sklearn.metrics.pairwise.cosine_similarity] *)
Variable cosine_similarity : matrix -> matrix -> result matrix.
(** [ndarray.argsort]: the indices that sort the scores in ascending
    order *)
Variable argsort : list Q -> list nat.

Definition find_most_similar_questions (new_input : str) (v : vectorizer)
    (tfidf_matrix : matrix) (data : list row) (top_n : Z) : result (list (str * Q)) :=
  new_input_tfidf ← transform v [new_input];
  sims ← cosine_similarity new_input_tfidf tfidf_matrix;
  let cosine_similarities := concat sims in
  let top_indices := rev (slice_from (- top_n) (argsort cosine_similarities)) in
  comprehension (fun index =>
    r ← iloc data index;
    s ← at1 cosine_similarities index;
    Ok (Question r, s)) top_indices.

End WithEnvironment.

(** Sorting by insertion, equal scores kept in index order: what
    [argsort] does on the short arrays of the examples below. *)
Fixpoint insert_index (scores : list Q) (i : nat) (sorted : list nat) : list nat :=
  match sorted with
  | [] => [i]
  | j :: rest =>
      if gt (default 0%Q (scores !! j)) (default 0%Q (scores !! i))
      then i :: sorted
      else j :: insert_index scores i rest
  end.

Definition argsort_stable (scores : list Q) : list nat :=
  foldl (fun sorted i => insert_index scores i sorted) [] (seq 0 (length scores)).

End Vectorize.

(** ** chinese_text_preprocessor.py: keywords and the batch script *)

Module Keywords.
Import Py Corpus.

(** [row.nonzero()[1]]: the columns of the row whose entry is not zero;
    [col] is the column of the head of [row]. *)
Fixpoint nonzero_from (col : nat) (row : list Q) : list nat :=
  match row with
  | [] => []
  | x :: rest =>
      if Qeq_bool x 0 then nonzero_from (S col) rest
      else col :: nonzero_from (S col) rest
  end.

Definition nonzero (row : list Q) : list nat := nonzero_from 0 row.

(** [feature_names[col]] *)
Definition feature (feature_names : list str) (col : nat) : result str :=
  match feature_names !! col with
  | Some name => Ok name
  | None => Raise (IndexError "index is out of bounds for axis 0")
  end.

(** [extract_keywords]; [keyword_threshold] is the attribute of that name
    set by [__init__]. *)
Definition extract_keywords (keyword_threshold : Q) (tfidf_matrix : matrix)
    (feature_names : list str) : result (gset str) :=
  for_each (fun keywords_set row =>
    for_each (fun keywords_set col =>
      x ← at1 row col;
      if gt x keyword_threshold then
        name ← feature feature_names col;
        Ok (keywords_set ∪ {[ name ]})
      else Ok keywords_set)
    keywords_set (nonzero row))
  ∅ tfidf_matrix.

End Keywords.

Module BatchScript.
Import Chars Py.

Section WithEnvironment.
Variable U : unicode_db.
Variable cut : str -> list str.

(** The first loop of the script: [reader] holds the rows of the input
    file, each a list of fields; the first row is the header. *)
Definition read_questions (reader : list (list str)) : result (list str) :=
  match reader with
  | [] => Raise (OtherError "StopIteration")
  | _ :: rows =>
      for_each (fun questions row =>
        match row with
        | [] => Ok questions
        | _ :: _ =>
            match row !! 1%nat with
            | Some field => Ok (questions ++ [strip U field])
            | None => Raise (IndexError "list index out of range")
            end
        end) [] rows
  end.

(** The second loop: one output row per question, after the header row.
    The second field of a row is kept as the set of words that the script
    joins with spaces. *)
Definition write_rows (preprocessor : ChineseTextPreprocessor.self_t)
    (questions : list str)
    : result (list (str * gset str) * ChineseTextPreprocessor.self_t) :=
  for_each (fun '(written, preprocessor) question =>
    '(words_set, preprocessor) ←
      ChineseTextPreprocessor.preprocess U cut preprocessor question;
    Ok (written ++ [(question, words_set)], preprocessor))
  ([], preprocessor) questions.

(** The script: read the questions, build the preprocessor, write. *)
Definition script (fs : gmap string str) (reader : list (list str))
    : result (list (str * gset str)) :=
  questions ← read_questions reader;
  let preprocessor :=
    ChineseTextPreprocessor.init U fs "../dat/stop_words/stop_words_full.txt" in
  '(written, _) ← write_rows preprocessor questions;
  Ok written.

End WithEnvironment.

End BatchScript.

(** ** input_processor.py *)

Module InputProcessor.
Import Chars Py.

Record self_t : Type := {
  stop_words : gset str;
  cleaned_text : option str
}.

Definition full_to_half (s : str) : str :=
  map (fun char =>
         if (0xFF01 <=? char) && (char <=? 0xFF5E) then char - 0xfee0
         else if char =? 0x3000 then 32
         else char) s.

Definition normalize_text (text : str) : str := full_to_half text.

Section WithEnvironment.
Variable U : unicode_db.
Variable cut : str -> list str.

Definition load_stop_words (fs : gmap string str) (file_path : string) : gset str :=
  match fs !! file_path with
  | Some content => list_to_set (map (strip U) (readlines content))
  | None => ∅
  end.

Definition init (fs : gmap string str) (stop_words_file : string) : self_t :=
  {| stop_words := load_stop_words fs stop_words_file; cleaned_text := None |}.

Definition extract_special_patterns (self : self_t) (text : str) : gset str * self_t :=
  let patterns := findall_special U text in
  let text := foldl (fun text pattern => replace pattern [] text) text patterns in
  (list_to_set patterns,
   {| stop_words := stop_words self; cleaned_text := Some text |}).

Definition remove_special_characters (text : str) : str :=
  let text := sub_nonword U text in
  let text := sub_digits U [32] text in
  strip U (sub_spaces U text).

Definition remove_stop_words (self : self_t) (text : str) : gset str :=
  let words := cut text in
  list_to_set (filter (fun word => word ∉ stop_words self) words).

Definition preprocess (self : self_t) (text : str) : result (gset str * self_t) :=
  let '(special_patterns, self) := extract_special_patterns self text in
  text ← match cleaned_text self with
         | Some text => Ok text
         | None => Raise (AttributeError "cleaned_text")
         end;
  let text := normalize_text text in
  let text := remove_special_characters text in
  let words := remove_stop_words self text in
  let words := filter (fun word => strip U word ≠ []) words in
  Ok (words ∪ special_patterns, self).

(** [main]; [user_input] is the line read by [input]. *)
Definition main (fs : gmap string str) (user_input : str) : result (gset str) :=
  let preprocessor := init fs "../dat/stop_words/stop_words_full.txt" in
  '(processed_input, _) ← preprocess preprocessor user_input;
  Ok processed_input.

End WithEnvironment.

End InputProcessor.

(** ** A segmenter to run the code with *)

Module Segmenter.
Import Chars.

Definition ascii_alnum (c : Z) : bool := ascii_alpha c || ascii_digit c.

(** What [jieba.cut] returns on text without dictionary words: a run of
    ASCII letters and digits is one token, any other character is a token
    of its own. *)
Fixpoint cut_runs (text : str) : list str :=
  match text with
  | [] => []
  | c :: rest =>
      match cut_runs rest with
      | (d :: w) :: words =>
          if ascii_alnum c && ascii_alnum d then (c :: d :: w) :: words
          else [c] :: (d :: w) :: words
      | words => [c] :: words
      end
  end.

End Segmenter.

(** ** The vocabulary of the properties *)

(** The full-width form of a printable ASCII character, and the
    ideographic space for the space. *)
Definition to_full_width (c : Z) : Z :=
  if c =? 32 then 0x3000
  else if (0x21 <=? c) && (c <=? 0x7E) then c + 0xfee0
  else c.

(** A fresh preprocessor whose stop-word file is missing. *)
Definition no_stop_words : ChineseTextPreprocessor.self_t :=
  ChineseTextPreprocessor.init Chars.corpus_db ∅ "../dat/stop_words/stop_words_full.txt".

(** The stop words as the description of the resource has them: one per
    distinct non-empty trimmed line. *)
Definition nonempty_trimmed_lines (U : Chars.unicode_db) (content : str) : gset str :=
  list_to_set (filter (fun w => w <> []) (map (Py.strip U) (Py.readlines content))).

(** A stop-word file with a blank line: "a", "", "b". *)
Definition blank_line_fs : gmap string str :=
  {[ "stop_words.txt"%string := [97; 10; 10; 98; 10] ]}.

(** No whitespace follows whitespace; [prev] tells whether the character
    before the text is whitespace. *)
Fixpoint single_spaced (U : Chars.unicode_db) (prev : bool) (text : str) : bool :=
  match text with
  | [] => true
  | c :: rest =>
      if Chars.is_space U c then negb prev && single_spaced U true rest
      else single_spaced U false rest
  end.

(** Entry [(i, j)] of a matrix and the question of row [i], for indices
    in range. *)
Definition entry (m : Corpus.matrix) (i j : nat) : Q :=
  default 0%Q (m !! i ≫= fun r => r !! j).

Definition question_at (data : list Corpus.row) (i : nat) : str :=
  default [] (Corpus.Question <$> data !! i).

(** An [n] by [n] matrix. *)
Definition square (n : nat) (m : Corpus.matrix) : Prop :=
  length m = n /\ Forall (fun r => length r = n) m.

(** The index pairs [(i, j)] with [i < j < n], row by row. *)
Definition upper_pairs (n : nat) : list (nat * nat) :=
  Py.range 0 n ≫= fun i => pair i <$> Py.range (i + 1) n.

(** The similarity of the pair exceeds the threshold. *)
Definition above (m : Corpus.matrix) (threshold : Q) (ij : nat * nat) : Prop :=
  Corpus.gt (entry m ij.1 ij.2) threshold = true.

#[global] Instance above_dec (m : Corpus.matrix) (threshold : Q) (ij : nat * nat) :
  Decision (above m threshold ij) :=
  decide (Corpus.gt (entry m ij.1 ij.2) threshold = true).

Definition pair_questions (data : list Corpus.row) (ij : nat * nat) : str * str :=
  (question_at data ij.1, question_at data ij.2).

(** The score of corpus entry [i]. *)
Definition score (sims : list Q) (i : nat) : Q := default 0%Q (sims !! i).

(** What the ranking relies on from [argsort]: its result lists every
    index once, by ascending score. *)
Definition sorts_ascending (argsort : list Q -> list nat) : Prop :=
  forall sims,
    argsort sims ≡ₚ seq 0 (length sims) /\
    StronglySorted (fun a b => (score sims a <= score sims b)%Q) (argsort sims).

(** What the check relies on from scikit-learn: the vectorizer returns
    one row per document, and the similarity of [a] and [b] has one row
    per row of [a] and one column per row of [b]. *)
Definition one_row_per_document
    (fit_transform : list str -> result Corpus.matrix) : Prop :=
  forall docs X, fit_transform docs = Ok X -> length X = length docs.

Definition pairwise_shape
    (cosine_similarity : Corpus.matrix -> Corpus.matrix -> result Corpus.matrix) : Prop :=
  forall a b sims, cosine_similarity a b = Ok sims ->
    length sims = length a /\ Forall (fun r => length r = length b) sims.

(** The question of a row of the input file of the batch script. *)
Definition question_of_row (U : Chars.unicode_db) (row : list str) : str :=
  Py.strip U (default [] (row !! 1%nat)).

(** The default stop-word file of the preprocessors. *)
Definition default_stop_words_file : string := "../dat/stop_words/stop_words_full.txt".

(** The words the batch preprocessor returns for a text, given the stop
    words of the object. *)
Definition batch_words (U : Chars.unicode_db) (cut : str -> list str)
    (stop : gset str) (text : str) : gset str :=
  filter (fun word => Py.strip U word <> [])
    (list_to_set
       (filter (fun word => word ∉ stop)
          (cut (ChineseTextPreprocessor.remove_special_characters U
                  (ChineseTextPreprocessor.normalize_text
                     (InputProcessorPort.extract_special_patterns U text))))))
  ∪ list_to_set (Py.findall_special U text).

(** The text [preprocess] hands to the segmenter, the NormalizedText of
    the description: the text left by [extract_special_patterns], folded
    by [normalize_text] and cleaned by [remove_special_characters]. *)
Definition normalized_text (U : Chars.unicode_db) (text : str) : str :=
  let '(_, self) :=
    ChineseTextPreprocessor.extract_special_patterns U
      {| ChineseTextPreprocessor.stop_words := ∅;
         ChineseTextPreprocessor.cleaned_text := None |} text in
  ChineseTextPreprocessor.remove_special_characters U
    (ChineseTextPreprocessor.normalize_text
       (default [] (ChineseTextPreprocessor.cleaned_text self))).

(** The number of Latin letters of the ASCII range in a text. *)
Definition letters (text : str) : nat :=
  length (filter (fun c => Chars.ascii_alpha c = true) text).

(** The number of substrings of the special-token shape that stand in a
    chain directly before a letter of the text, each sharing its last
    letter with the next: the one two characters before the letter, the
    one four characters before, and so on.  [rpre] is the text before the
    letter, its last character first. *)
Fixpoint overlaps_before (U : Chars.unicode_db) (rpre : str) : nat :=
  match rpre with
  | x :: l :: rest =>
      if Chars.ascii_alpha l && negb (Chars.is_word U x || Chars.is_space U x)
      then S (overlaps_before U rest) else 0
  | _ => 0
  end.

(** The scan of [re.findall] takes the match at the head of [suf], the
    text before it being [rpre] (last character first) ... *)
Definition takes (U : Chars.unicode_db) (rpre suf : str) : Prop :=
  is_Some (Py.special_at U suf) /\ Nat.even (overlaps_before U rpre) = true.

(** ... or passes over it. *)
Definition passes (U : Chars.unicode_db) (rpre suf : str) : Prop :=
  is_Some (Py.special_at U suf) -> Nat.even (overlaps_before U rpre) = false.

(** What holds when the scan stands between [rpre] and [suf] with [skip]
    characters of a match still to pass. *)
Definition scan_state (U : Chars.unicode_db) (rpre suf : str) (skip : nat) : Prop :=
  match skip, rpre with
  | 0%nat, [] => True
  | 0%nat, [c1] => passes U [] (c1 :: suf)
  | 0%nat, c1 :: c2 :: r => passes U (c2 :: r) (c1 :: suf) /\ passes U r (c2 :: c1 :: suf)
  | 1%nat, c1 :: c2 :: r => takes U r (c2 :: c1 :: suf)
  | 2%nat, c1 :: r => takes U r (c1 :: suf)
  | _, _ => False
  end.

(** One to three ASCII digits. *)
Definition octet (o : str) : Prop :=
  (1 <= length o <= 3)%nat /\ Forall (fun c => Chars.ascii_digit c = true) o.

(** Four groups of one to three digits, separated by dots. *)
Definition ip_shaped (m : str) : Prop :=
  exists a b c d, m = a ++ [46] ++ b ++ [46] ++ c ++ [46] ++ d /\
                  octet a /\ octet b /\ octet c /\ octet d.

(** ** Sample data *)

(** A TF-IDF matrix of two documents over three feature names. *)
Definition sample_tfidf : Corpus.matrix := [
  [0; 3 # 10; 1 # 2];
  [2 # 10; 0; 0]
]%Q.

Definition sample_features : list str :=
  [codes "server"; codes "connect"; codes "printer"].

(** A corpus of three questions and its similarity matrix. *)
Definition sample_data : list Corpus.row := [
  {| Corpus.Question := codes "server cannot connect";
     Corpus.Processed_Words_Set := codes "server connect" |};
  {| Corpus.Question := codes "server can not connect!";
     Corpus.Processed_Words_Set := codes "server connect" |};
  {| Corpus.Question := codes "connect the printer";
     Corpus.Processed_Words_Set := codes "connect printer" |}
].

Definition sample_matrix : Corpus.matrix := [
  [1; 1; 65 # 100];
  [1; 1; 65 # 100];
  [65 # 100; 65 # 100; 1]
]%Q.

(** The question "the server cannot reach the network", nine CJK
    ideographs (U+670D U+52A1 U+5668 U+65E0 U+6CD5 U+8FDE U+63A5 U+7F51
    U+7EDC). *)
Definition server_question : str :=
  [0x670D; 0x52A1; 0x5668; 0x65E0; 0x6CD5; 0x8FDE; 0x63A5; 0x7F51; 0x7EDC].

(** Stand-ins for the vectorizer and the similarity, for running the
    ranking on given scores. *)
Definition transform_any (_ : unit) (_ : list str) : result Corpus.matrix := Ok [[1%Q]].

Definition similarity_given (scores : list Q) (_ _ : Corpus.matrix) : result Corpus.matrix :=
  Ok [scores].

(** Stand-ins with these shapes, for running the check. *)
Definition fit_transform_ones (docs : list str) : result Corpus.matrix :=
  Ok ((fun _ => [1%Q]) <$> docs).

Definition cosine_similarity_ones (a b : Corpus.matrix) : result Corpus.matrix :=
  Ok ((fun _ => (fun _ => 1%Q) <$> b) <$> a).

Definition load_empty_corpus (_ : string) : result (list Corpus.row) := Ok [].

Definition load_sample_corpus (_ : string) : result (list Corpus.row) := Ok sample_data.

(** * Properties *)

(** ** Results *)

Lemma result_bind_ok {A B : Type} (a : A) (k : A -> result B) : (Ok a ≫= k) = k a.
Proof. reflexivity. Qed.

(** ** Lists of tokens *)

Lemma elem_of_rev_list {A : Type} (x : A) (l : list A) : x ∈ rev l -> x ∈ l.
Proof. rewrite !list_elem_of_In. apply in_rev. Qed.

Lemma elem_of_rev (c : Z) (l : str) : c ∈ rev l <-> c ∈ l.
Proof. rewrite !list_elem_of_In. symmetry. apply in_rev. Qed.

Lemma concat_token_length (l : list str) (w : str) :
  w ∈ l -> (length w <= length (concat l))%nat.
Proof.
  induction l as [|v l IH]; intros Hw.
  - inversion Hw.
  - simpl. rewrite length_app.
    apply elem_of_cons in Hw as [->|Hw]; [lia|].
    specialize (IH Hw). lia.
Qed.

Lemma concat_token_chars (l : list str) (w : str) (c : Z) :
  w ∈ l -> c ∈ w -> c ∈ concat l.
Proof.
  induction l as [|v l IH]; intros Hw Hc.
  - inversion Hw.
  - simpl. apply elem_of_app.
    apply elem_of_cons in Hw as [->|Hw]; [by left|].
    right. by apply IH.
Qed.

(** ** Full-width folding *)

Lemma fold_char_to_full_width (c : Z) :
  0x20 <= c <= 0x7E -> ChineseTextPreprocessor.fold_char (to_full_width c) = c.
Proof.
  intros Hc. unfold to_full_width, ChineseTextPreprocessor.fold_char.
  destruct (Z.eqb_spec c 32) as [->|Hne]; [reflexivity|].
  replace ((33 <=? c) && (c <=? 126)) with true
    by (symmetry; apply andb_true_iff; split; apply Z.leb_le; lia).
  replace ((65281 <=? c + 65248) && (c + 65248 <=? 65374)) with true
    by (symmetry; apply andb_true_iff; split; apply Z.leb_le; lia).
  lia.
Qed.

Lemma fold_char_half_width (c : Z) :
  0x20 <= c <= 0x7E -> ChineseTextPreprocessor.fold_char c = c.
Proof.
  intros Hc. unfold ChineseTextPreprocessor.fold_char.
  replace (65281 <=? c) with false by (symmetry; apply Z.leb_gt; lia).
  replace (c =? 12288) with false by (symmetry; apply Z.eqb_neq; lia).
  reflexivity.
Qed.

Lemma full_to_half_full_width (h : str) :
  Forall (fun c => 0x20 <= c <= 0x7E) h ->
  map ChineseTextPreprocessor.fold_char (map to_full_width h) = h.
Proof.
  induction 1 as [|c h Hc _ IH]; [reflexivity|].
  cbn [map]. by rewrite fold_char_to_full_width, IH.
Qed.

Lemma full_to_half_half_width (h : str) :
  Forall (fun c => 0x20 <= c <= 0x7E) h ->
  map ChineseTextPreprocessor.fold_char h = h.
Proof.
  induction 1 as [|c h Hc _ IH]; [reflexivity|].
  cbn [map]. by rewrite fold_char_half_width, IH.
Qed.

(** "ＡＢＣ　１２３！" folds to "ABC 123!". *)
Example full_to_half_sample :
  ChineseTextPreprocessor.full_to_half
    [0xFF21; 0xFF22; 0xFF23; 0x3000; 0xFF11; 0xFF12; 0xFF13; 0xFF01]
  = codes "ABC 123!".
Proof. reflexivity. Qed.

(** ** Special tokens *)

Section SpecialTokens.
Import Chars Py.
Variable U : unicode_db.

Lemma special_at_shape (text m : str) :
  special_at U text = Some m <->
  exists a x b rest, text = a :: x :: b :: rest /\ m = [a; x; b] /\
    ascii_alpha a = true /\ is_word U x = false /\ is_space U x = false /\
    ascii_alpha b = true.
Proof.
  unfold special_at. split.
  - destruct text as [|a [|x [|b rest]]]; try discriminate.
    destruct (ascii_alpha a) eqn:Ha; [|discriminate].
    destruct (is_word U x) eqn:Hw; [discriminate|].
    destruct (is_space U x) eqn:Hs; [discriminate|].
    destruct (ascii_alpha b) eqn:Hb; [|discriminate].
    simpl. intros [= <-]. by exists a, x, b, rest.
  - intros (a & x & b & rest & -> & -> & Ha & Hw & Hs & Hb).
    by rewrite Ha, Hw, Hs, Hb.
Qed.

(** The scan of [re.findall] reaches every position that is not inside an
    earlier match: a match at position [i] is returned when no match
    starts at the two positions before it. *)
Lemma findall_special_scan_reaches (text : str) :
  forall (skip i : nat) (m : str),
    special_at U (drop i text) = Some m ->
    (skip <= i)%nat ->
    (forall k, (skip <= k < i)%nat -> (i <= k + 2)%nat ->
               special_at U (drop k text) = None) ->
    m ∈ findall_special_scan U skip text.
Proof.
  induction text as [|c rest IH]; intros skip i m Hm Hskip Hfree.
  - by rewrite drop_nil in Hm.
  - destruct skip as [|skip]; cbn [findall_special_scan].
    + destruct i as [|i].
      * rewrite drop_0 in Hm. rewrite Hm. by left.
      * destruct (special_at U (c :: rest)) as [m'|] eqn:Hhead.
        -- right. apply (IH 2%nat i m Hm).
           ++ destruct (decide (2 <= i)%nat) as [|Hlt]; [done|].
              specialize (Hfree 0%nat). rewrite drop_0 in Hfree.
              rewrite Hfree in Hhead; [discriminate|lia|lia].
           ++ intros k Hk Hk'. apply (Hfree (S k)); lia.
        -- apply (IH 0%nat i m Hm); [lia|].
           intros k Hk Hk'. apply (Hfree (S k)); lia.
    + destruct i as [|i]; [lia|].
      apply (IH skip i m Hm); [lia|].
      intros k Hk Hk'. apply (Hfree (S k)); lia.
Qed.

End SpecialTokens.

(** ** The batch preprocessor *)

Section BatchPreprocess.
Import Chars Py.
Variable U : unicode_db.
Variable cut : str -> list str.

(** C10.  [preprocess] always returns a set, and that set holds every
    special pattern extracted from the text, whatever the stop words are:
    the patterns are added after the stop words were filtered out.  The
    stop words only remove tokens that are no special pattern. *)
Theorem special_patterns_bypass_stop_words
    (self : ChineseTextPreprocessor.self_t) (text : str) :
  exists words self',
    ChineseTextPreprocessor.preprocess U cut self text = Ok (words, self') /\
    (forall p : str,
       p ∈ (ChineseTextPreprocessor.extract_special_patterns U self text).1 ->
       p ∈ words) /\
    (forall w : str,
       w ∈ words ->
       w ∈ (ChineseTextPreprocessor.extract_special_patterns U self text).1 \/
       w ∉ ChineseTextPreprocessor.stop_words self).
Proof.
  eexists _, _. split; [reflexivity|]. split.
  - intros p Hp. apply elem_of_union. by right.
  - intros w Hw. apply elem_of_union in Hw as [Hw|Hw]; [right|by left].
    apply elem_of_filter in Hw as [_ Hw].
    unfold ChineseTextPreprocessor.remove_stop_words in Hw.
    apply elem_of_list_to_set, list_elem_of_filter in Hw as [Hw _].
    exact Hw.
Qed.

End BatchPreprocess.

(** ** Text made of plain word characters *)

Section PlainText.
Import Chars Py.
Variable U : unicode_db.

Lemma sub_runs_none (p : Z -> bool) (rep : str) (text : str) :
  Forall (fun c => p c = false) text -> sub_runs p rep false text = text.
Proof.
  induction 1 as [|c text Hc _ IH]; [reflexivity|].
  cbn [sub_runs]. by rewrite Hc, IH.
Qed.

Lemma sub_nonword_words (text : str) :
  Forall (fun c => is_word U c = true) text -> sub_nonword U text = text.
Proof.
  unfold sub_nonword. induction 1 as [|c text Hc _ IH]; [reflexivity|].
  cbn [map]. by rewrite Hc, IH.
Qed.

Lemma lstrip_no_space (text : str) :
  Forall (fun c => is_space U c = false) text -> lstrip U text = text.
Proof. destruct 1 as [|c text Hc _]; [reflexivity|]. cbn [lstrip]. by rewrite Hc. Qed.

Lemma strip_no_space (text : str) :
  Forall (fun c => is_space U c = false) text -> strip U text = text.
Proof.
  intros H. unfold strip, rstrip. rewrite (lstrip_no_space text H).
  rewrite lstrip_no_space; [apply rev_involutive|].
  apply Forall_forall. intros c Hc. rewrite Forall_forall in H.
  apply H. by apply list_elem_of_In, in_rev, list_elem_of_In.
Qed.

Lemma isspace_no_space (text : str) :
  Forall (fun c => is_space U c = false) text -> isspace U text = false.
Proof. destruct 1 as [|c text Hc _]; [reflexivity|]. cbn. by rewrite Hc. Qed.

Lemma findall_special_words (text : str) :
  Forall (fun c => is_word U c = true) text ->
  forall skip, findall_special_scan U skip text = [].
Proof.
  induction 1 as [|c text Hc Htext IH]; intros skip; [reflexivity|].
  cbn [findall_special_scan]. destruct skip as [|skip]; [|apply IH].
  replace (special_at U (c :: text)) with (@None str); [apply IH|].
  destruct Htext as [|x text Hx Htext]; [reflexivity|].
  destruct text as [|b text]; [reflexivity|].
  unfold special_at. by rewrite Hx, andb_false_r.
Qed.

End PlainText.

(** ** The three preprocessors compared *)

Section EntryPoints.
Import Chars Py.
Variable U : unicode_db.
Variable cut : str -> list str.

(** The tokens the service preprocessor returns. *)
Lemma service_preprocess_words (self : InputProcessorPort.self_t) (text w : str) :
  (w ∈ InputProcessorPort.preprocess U cut self text) <->
  (w ∈ cut (InputProcessorPort.remove_special_characters U
              (InputProcessorPort.normalize_text
                 (InputProcessorPort.extract_special_patterns U text)))) /\
  (w ∉ InputProcessorPort.stop_words self) /\ strip U w <> [].
Proof.
  unfold InputProcessorPort.preprocess, InputProcessorPort.remove_stop_words.
  rewrite elem_of_filter, elem_of_list_to_set, list_elem_of_filter. tauto.
Qed.

(** The tokens the batch preprocessor returns. *)
Lemma batch_preprocess_words (self self' : ChineseTextPreprocessor.self_t)
    (text : str) (words : gset str) (w : str) :
  ChineseTextPreprocessor.preprocess U cut self text = Ok (words, self') ->
  (w ∈ words) <->
  ((w ∈ cut (InputProcessorPort.remove_special_characters U
               (InputProcessorPort.normalize_text
                  (InputProcessorPort.extract_special_patterns U text)))) /\
   (w ∉ ChineseTextPreprocessor.stop_words self) /\ strip U w <> []) \/
  (w ∈ findall_special U text).
Proof.
  intros [= <- _].
  unfold ChineseTextPreprocessor.remove_stop_words.
  rewrite elem_of_union, elem_of_filter, !elem_of_list_to_set, list_elem_of_filter.
  cbn [ChineseTextPreprocessor.stop_words]. tauto.
Qed.

(** A token of a segmenter that covers its input is made of characters of
    the input. *)
Lemma plain_token (text w : str) :
  concat (cut text) = text ->
  Forall (fun c => is_space U c = false) text ->
  w ∈ cut text ->
  Forall (fun c => is_space U c = false) w.
Proof.
  intros Hcover Htext Hw. apply Forall_forall. intros c Hc.
  rewrite Forall_forall in Htext. apply Htext.
  rewrite <- Hcover. by apply (concat_token_chars _ w).
Qed.

End EntryPoints.

(** ** The preprocessors on concrete texts *)

Lemma cut_runs_covers (text : str) : concat (Segmenter.cut_runs text) = text.
Proof.
  induction text as [|c rest IH]; [reflexivity|].
  cbn [Segmenter.cut_runs].
  destruct (Segmenter.cut_runs rest) as [|[|d w] words]; cbn in *;
    try (by rewrite IH).
  destruct (Segmenter.ascii_alnum c && Segmenter.ascii_alnum d); cbn;
    by rewrite IH.
Qed.

(** In [corpus_db] no word character is whitespace. *)
Lemma corpus_db_word_not_space (c : Z) :
  Chars.is_word Chars.corpus_db c = true -> Chars.is_space Chars.corpus_db c = false.
Proof.
  unfold Chars.is_word, Chars.is_space, Chars.ascii_alpha, Chars.ascii_digit,
    Chars.ascii_space, Chars.corpus_db, Chars.uni_alnum, Chars.uni_space.
  intros Hw. apply not_true_iff_false. intros Hs.
  destruct (c <? 128);
    rewrite ?orb_true_iff, ?andb_true_iff, ?Z.leb_le, ?Z.eqb_eq in Hw, Hs; lia.
Qed.

(** "I/O error" with "I/O" and "error" as stop words: "I/O" stays. *)
Example special_pattern_that_is_a_stop_word :
  ChineseTextPreprocessor.preprocess Chars.corpus_db Segmenter.cut_runs
    {| ChineseTextPreprocessor.stop_words := {[ codes "I/O"; codes "error" ]};
       ChineseTextPreprocessor.cleaned_text := None |}
    (codes "I/O error")
  = Ok ({[ codes "I/O" ]},
        {| ChineseTextPreprocessor.stop_words := {[ codes "I/O"; codes "error" ]};
           ChineseTextPreprocessor.cleaned_text := Some (codes " error") |}).
Proof. vm_compute. reflexivity. Qed.

(** "I/O" is a stop word and a special pattern of "I/O error": it is in
    the token set. *)
Lemma special_patterns_bypass_stop_words_witness :
  exists words self',
    ChineseTextPreprocessor.preprocess Chars.corpus_db Segmenter.cut_runs
      {| ChineseTextPreprocessor.stop_words := {[ codes "I/O"; codes "error" ]};
         ChineseTextPreprocessor.cleaned_text := None |}
      (codes "I/O error") = Ok (words, self') /\
    codes "I/O" ∈ words.
Proof.
  destruct (special_patterns_bypass_stop_words Chars.corpus_db Segmenter.cut_runs
              {| ChineseTextPreprocessor.stop_words := {[ codes "I/O"; codes "error" ]};
                 ChineseTextPreprocessor.cleaned_text := None |}
              (codes "I/O error")) as (words & self' & Hrun & Hin & _).
  exists words, self'. split; [exact Hrun|].
  apply Hin. apply elem_of_list_to_set.
  replace (Py.findall_special Chars.corpus_db (codes "I/O error"))
    with [codes "I/O"] by (vm_compute; reflexivity).
  by left.
Defined.

(** C4 fails on overlapping matches.  In "A/B/C" the substring "B/C" has
    the special-token shape, but the scan takes "A/B" and resumes at "/C":
    whatever the segmenter and the stop words, "B/C" is not in the token
    set. *)
Lemma overlapping_special_token_lost :
  (forall U, Py.special_at U (codes "B/C") = Some (codes "B/C")) /\
  (forall U cut self words self',
     (forall t, concat (cut t) = t) ->
     ChineseTextPreprocessor.preprocess U cut self (codes "A/B/C") = Ok (words, self') ->
     codes "B/C" ∉ words).
Proof.
  split; [reflexivity|].
  intros U cut self words self' Hcover Hrun Hin.
  apply (batch_preprocess_words U cut self self' _ words _ Hrun) in Hin.
  destruct Hin as [(Hin & _ & _) | Hin].
  - apply concat_token_length in Hin. rewrite Hcover in Hin.
    vm_compute in Hin. lia.
  - vm_compute in Hin. apply list_elem_of_singleton in Hin. discriminate.
Qed.

(** ** Loading the stop words *)

Section StopWords.
Import Chars Py.
Variable U : unicode_db.

Lemma not_elem_of_rev (c : Z) (l : str) : c ∉ l -> c ∉ rev l.
Proof. by rewrite elem_of_rev. Qed.

(** The lines read from a file, put end to end, are its content. *)
Lemma readlines_from_concat (content : str) :
  forall cur, concat (readlines_from cur content) = rev cur ++ content.
Proof.
  induction content as [|c rest IH]; intros cur; cbn [readlines_from].
  - destruct cur; cbn; [reflexivity|]. by rewrite !app_nil_r.
  - destruct (c =? 10).
    + cbn [concat rev]. rewrite IH. cbn. by rewrite <- app_assoc.
    + rewrite IH. cbn. by rewrite <- app_assoc.
Qed.

(** A line is not empty and holds no newline before its last character. *)
Lemma readlines_from_lines (content : str) :
  forall cur line,
    (10 ∉ cur) -> line ∈ readlines_from cur content ->
    line <> [] /\ exists body, (10 ∉ body) /\ (line = body \/ line = body ++ [10]).
Proof.
  induction content as [|c rest IH]; intros cur line Hcur; cbn [readlines_from].
  - destruct cur as [|d cur]; [by intros ?%elem_of_nil|].
    intros ->%list_elem_of_singleton. split.
    + cbn. by destruct (rev cur).
    + exists (rev (d :: cur)). split; [|by left].
      by apply not_elem_of_rev.
  - destruct (Z.eqb_spec c 10) as [->|Hc].
    + intros [->|Hin]%elem_of_cons.
      * split; [cbn; by destruct (rev cur)|].
        exists (rev cur). split; [|by right].
        by apply not_elem_of_rev.
      * apply (IH [] line); [apply not_elem_of_nil|exact Hin].
    + apply IH. rewrite not_elem_of_cons. split; [congruence|exact Hcur].
Qed.

(** C9, as the code has it.  When the file exists, the stop words are the
    trimmed lines of the file, the empty string included when a line is
    blank; without the empty string they are the non-empty trimmed lines.
    When the file is missing, the set is empty and nothing is raised. *)
Theorem load_stop_words_trimmed_lines (fs : gmap string str) (file_path : string) :
  (forall content, fs !! file_path = Some content ->
     (forall w, w ∈ ChineseTextPreprocessor.load_stop_words U fs file_path <->
                exists line, line ∈ readlines content /\ w = strip U line) /\
     ChineseTextPreprocessor.load_stop_words U fs file_path ∖ {[ [] ]}
       = nonempty_trimmed_lines U content) /\
  (fs !! file_path = None ->
     ChineseTextPreprocessor.load_stop_words U fs file_path = ∅).
Proof.
  unfold ChineseTextPreprocessor.load_stop_words, nonempty_trimmed_lines.
  split.
  - intros content ->. split.
    + intros w. rewrite elem_of_list_to_set.
      change (map (strip U) (readlines content)) with (strip U <$> readlines content).
      rewrite list_elem_of_fmap.
      split; intros (line & H1 & H2); by exists line.
    + apply set_eq. intros w.
      rewrite elem_of_difference, !elem_of_list_to_set, list_elem_of_filter,
        elem_of_singleton.
      tauto.
  - by intros ->.
Qed.

End StopWords.

(** C9 fails on a file with a blank line: the empty string is loaded as a
    stop word, and it is none of the non-empty trimmed lines. *)
Lemma blank_line_is_a_stop_word :
  ([] ∈ ChineseTextPreprocessor.load_stop_words Chars.corpus_db blank_line_fs
          "stop_words.txt") /\
  ([] ∉ nonempty_trimmed_lines Chars.corpus_db [97; 10; 10; 98; 10]) /\
  ChineseTextPreprocessor.load_stop_words Chars.corpus_db blank_line_fs "stop_words.txt"
    <> nonempty_trimmed_lines Chars.corpus_db [97; 10; 10; 98; 10].
Proof.
  assert (Hin : bool_decide
            ([] ∈ ChineseTextPreprocessor.load_stop_words Chars.corpus_db
                    blank_line_fs "stop_words.txt") = true)
    by (vm_compute; reflexivity).
  assert (Hout : bool_decide
            ([] ∉ nonempty_trimmed_lines Chars.corpus_db [97; 10; 10; 98; 10]) = true)
    by (vm_compute; reflexivity).
  apply bool_decide_eq_true in Hin, Hout.
  split; [exact Hin|]. split; [exact Hout|].
  intros Heq. apply Hout. by rewrite <- Heq.
Qed.

(** The stop words of the file "a", "", "b". *)
Lemma load_stop_words_trimmed_lines_witness :
  ChineseTextPreprocessor.load_stop_words Chars.corpus_db blank_line_fs "stop_words.txt"
    ∖ {[ [] ]}
  = nonempty_trimmed_lines Chars.corpus_db [97; 10; 10; 98; 10].
Proof.
  apply (load_stop_words_trimmed_lines Chars.corpus_db blank_line_fs "stop_words.txt").
  reflexivity.
Defined.

(** ** The service route and the IP sentinel *)

(** The pattern of [extract_ip_addresses] on sample texts. *)
Example extract_ip_addresses_samples :
  Py.findall_ip Chars.corpus_db (codes "192.168.1.1 timeout") = [codes "192.168.1.1"] /\
  Py.findall_ip Chars.corpus_db (codes "from 10.0.0.1 to 10.0.0.254.") =
    [codes "10.0.0.1"; codes "10.0.0.254"] /\
  Py.findall_ip Chars.corpus_db (codes "v1.2.3.4") = [] /\
  Py.findall_ip Chars.corpus_db (codes "1.2.3.4567") = [] /\
  Py.findall_ip Chars.corpus_db (codes "1234.1.1.1") = [] /\
  Py.findall_ip Chars.corpus_db (codes "timeout") = [].
Proof. repeat split; reflexivity. Qed.

Section Sentinel.
Import Chars Py.
Variable U : unicode_db.
Variable cut : str -> list str.

(** C2 at the text "timeout".  The text holds no IP address, and the
    answer of the route still carries the token "%ip": the route adds it
    to every answer and never calls [extract_ip_addresses]. *)
Theorem ip_sentinel_without_ip (fs : gmap string str) :
  InputProcessorPort.extract_ip_addresses U (codes "timeout") = ∅ /\
  exists tokens,
    InputProcessorPort.process_text U cut fs (Some (codes "timeout")) =
      (InputProcessorPort.Processed tokens, 200) /\
    codes "%ip" ∈ tokens.
Proof.
  split; [reflexivity|].
  eexists. split; [reflexivity|].
  apply elem_of_union. right. by apply elem_of_singleton.
Qed.

Lemma sub_runs_chars (p : Z -> bool) (rep text : str) (c : Z) :
  forall in_run, c ∈ sub_runs p rep in_run text ->
                 c ∈ rep \/ (c ∈ text /\ p c = false).
Proof.
  induction text as [|d text IH]; intros in_run; cbn [sub_runs].
  - by intros ?%elem_of_nil.
  - destruct (p d) eqn:Hd.
    + intros [Hc|Hc]%elem_of_app.
      * destruct in_run; [by apply elem_of_nil in Hc|by left].
      * destruct (IH _ Hc) as [?|[? ?]]; [by left|right; split; [by right|done]].
    + intros [->|Hc]%elem_of_cons; [right; split; [by left|done]|].
      destruct (IH _ Hc) as [?|[? ?]]; [by left|right; split; [by right|done]].
Qed.

Lemma lstrip_chars (text : str) (c : Z) : c ∈ lstrip U text -> c ∈ text.
Proof.
  induction text as [|d text IH]; cbn [lstrip]; [done|].
  destruct (is_space U d); [|done]. intros Hc. right. by apply IH.
Qed.

Lemma strip_chars (text : str) (c : Z) : c ∈ strip U text -> c ∈ text.
Proof.
  unfold strip, rstrip. intros Hc.
  rewrite elem_of_rev in Hc. apply lstrip_chars in Hc.
  rewrite elem_of_rev in Hc. by apply lstrip_chars.
Qed.

(** After [remove_special_characters] no digit is left. *)
Lemma remove_special_characters_no_digit (text : str) (c : Z) :
  c ∈ InputProcessorPort.remove_special_characters U text -> is_digit U c = false.
Proof.
  unfold InputProcessorPort.remove_special_characters, sub_spaces, sub_digits.
  intros Hc%strip_chars.
  apply sub_runs_chars in Hc as [->%list_elem_of_singleton|[Hc _]]; [reflexivity|].
  apply sub_runs_chars in Hc as [->%list_elem_of_singleton|[_ Hc]]; [reflexivity|done].
Qed.

(** The tokens the route answers with hold no digit, so no part of an IP
    address written in the text is among them. *)
Theorem processed_tokens_have_no_digit (fs : gmap string str) (text : option str)
    (tokens : gset str) (w : str) (c : Z) :
  (forall t, concat (cut t) = t) ->
  InputProcessorPort.process_text U cut fs text =
    (InputProcessorPort.Processed tokens, 200) ->
  w ∈ tokens -> c ∈ w -> is_digit U c = false.
Proof.
  intros Hcover Hrun Hw Hc. unfold InputProcessorPort.process_text in Hrun.
  destruct text as [[|d text]|]; try discriminate.
  injection Hrun as <-.
  apply elem_of_union in Hw as [Hw|Hw].
  - apply service_preprocess_words in Hw as (Hw & _ & _).
    apply (remove_special_characters_no_digit
             (InputProcessorPort.normalize_text
                (InputProcessorPort.extract_special_patterns U (d :: text)))).
    rewrite <- (Hcover (InputProcessorPort.remove_special_characters U _)).
    by apply (concat_token_chars _ w).
  - apply elem_of_singleton in Hw as ->.
    cbn in Hc. repeat (apply elem_of_cons in Hc as [->|Hc]; [reflexivity|]).
    by apply elem_of_nil in Hc.
Qed.

End Sentinel.

(** "192.168.1.1 timeout": the tokens are "timeout" and "%ip". *)
Lemma processed_tokens_have_no_digit_witness :
  Chars.is_digit Chars.corpus_db 116 = false.
Proof.
  apply (processed_tokens_have_no_digit Chars.corpus_db Segmenter.cut_runs ∅
           (Some (codes "192.168.1.1 timeout"))
           {[ codes "timeout"; codes "%ip" ]} (codes "timeout") 116).
  - exact cut_runs_covers.
  - vm_compute. reflexivity.
  - apply elem_of_union. left. by apply elem_of_singleton.
  - by left.
Defined.

(** ** The pairwise scan *)

Section PairwiseScan.
Import Py Corpus.

Lemma gt_lt (a b : Q) : gt a b = true <-> (b < a)%Q.
Proof.
  unfold gt. rewrite negb_true_iff, <- not_true_iff_false, Qle_bool_iff.
  split; [apply Qnot_le_lt|apply Qlt_not_le].
Qed.

Lemma gt_weaken (s t1 t2 : Q) : (t1 <= t2)%Q -> gt s t2 = true -> gt s t1 = true.
Proof. rewrite !gt_lt. apply Qle_lt_trans. Qed.

Lemma at2_square (n : nat) (m : matrix) (i j : nat) :
  square n m -> (i < n)%nat -> (j < n)%nat -> at2 m i j = Ok (entry m i j).
Proof.
  intros [Hlen Hrows] Hi Hj. unfold at2, entry.
  destruct (lookup_lt_is_Some_2 m i) as [r Hr]; [lia|].
  rewrite Hr. cbn.
  rewrite Forall_forall in Hrows.
  destruct (lookup_lt_is_Some_2 r j) as [x Hx].
  { rewrite (Hrows r); [lia|]. by apply list_elem_of_lookup_2 with i. }
  by rewrite Hx.
Qed.

Lemma iloc_question (data : list row) (i : nat) :
  (i < length data)%nat ->
  exists r, iloc data i = Ok r /\ Question r = question_at data i.
Proof.
  intros Hi. unfold iloc, question_at.
  destruct (lookup_lt_is_Some_2 data i Hi) as [r Hr].
  exists r. by rewrite Hr.
Qed.

Lemma elem_of_range (a b k : nat) : k ∈ range a b <-> (a <= k < b)%nat.
Proof. unfold range. rewrite elem_of_seq. lia. Qed.

Lemma elem_of_upper_pairs (n i j : nat) :
  (i, j) ∈ upper_pairs n <-> (i < j < n)%nat.
Proof.
  unfold upper_pairs. rewrite list_elem_of_bind. split.
  - intros (k & Hj & Hk). apply list_elem_of_fmap in Hj as (j' & [= -> ->] & Hj).
    apply elem_of_range in Hj. lia.
  - intros Hij. exists i. split.
    + apply list_elem_of_fmap. exists j. split; [done|]. apply elem_of_range. lia.
    + apply elem_of_range. lia.
Qed.

Lemma NoDup_upper_pairs (n : nat) : NoDup (upper_pairs n).
Proof.
  unfold upper_pairs, range. apply NoDup_bind.
  - intros i1 i2 [i j] _ _ (? & [= -> ->] & _)%list_elem_of_fmap
      (? & [= -> _] & _)%list_elem_of_fmap. reflexivity.
  - intros i _. apply NoDup_fmap_2; [|apply NoDup_seq].
    by intros j1 j2 [= ->].
  - apply NoDup_seq.
Qed.

Variables (m : matrix) (data : list row).
Hypothesis shape : square (length data) m.

(** The inner loop over [j], from any list of columns in range. *)
Lemma scan_row (threshold : Q) (i : nat) (js : list nat) :
  (i < length data)%nat ->
  Forall (fun j => (j < length data)%nat) js ->
  forall pairs,
    for_each (fun pairs j =>
      s ← at2 m i j;
      if gt s threshold then
        ri ← iloc data i;
        rj ← iloc data j;
        Ok (pairs ++ [(Question ri, Question rj)])
      else Ok pairs) pairs js
    = Ok (pairs ++ (pair_questions data <$> filter (above m threshold) (pair i <$> js))).
Proof.
  intros Hi Hjs.
  match goal with |- context [for_each ?f] => set (body := f) end.
  induction Hjs as [|j js Hj _ IH]; intros pairs.
  - cbn. by rewrite app_nil_r.
  - cbn [for_each]. rewrite fmap_cons, filter_cons.
    assert (Hbody : body pairs j =
              Ok (if decide (above m threshold (i, j))
                  then pairs ++ [pair_questions data (i, j)] else pairs)).
    { unfold body. rewrite (at2_square _ _ _ _ shape Hi Hj), result_bind_ok.
      destruct (decide (above m threshold (i, j))) as [Hgt|Hgt];
        unfold above in Hgt; cbn [fst snd] in Hgt.
      - rewrite Hgt.
        destruct (iloc_question data i Hi) as (ri & -> & Hri).
        destruct (iloc_question data j Hj) as (rj & -> & Hrj).
        by rewrite !result_bind_ok, Hri, Hrj.
      - apply not_true_is_false in Hgt. by rewrite Hgt. }
    rewrite Hbody, result_bind_ok, IH.
    destruct (decide (above m threshold (i, j))); [|reflexivity].
    by rewrite fmap_cons, <- app_assoc.
Qed.

(** The outer loop over [i], from any list of rows in range. *)
Lemma scan_rows (threshold : Q) (rows : list nat) :
  Forall (fun i => (i < length data)%nat) rows ->
  forall pairs,
    for_each (fun pairs i =>
      for_each (fun pairs j =>
        s ← at2 m i j;
        if gt s threshold then
          ri ← iloc data i;
          rj ← iloc data j;
          Ok (pairs ++ [(Question ri, Question rj)])
        else Ok pairs)
      pairs (range (i + 1) (length data))) pairs rows
    = Ok (pairs ++ (pair_questions data <$>
                      filter (above m threshold)
                        (rows ≫= fun i => pair i <$> range (i + 1) (length data)))).
Proof.
  induction 1 as [|i rows Hi _ IH]; intros pairs.
  - cbn. by rewrite app_nil_r.
  - cbn [for_each].
    rewrite (scan_row threshold i _ Hi)
      by (apply Forall_forall; intros j Hj%elem_of_range; lia).
    rewrite result_bind_ok, IH. f_equal.
    rewrite bind_cons, filter_app, fmap_app, <- app_assoc. reflexivity.
Qed.

(** The scan returns the questions of the pairs above the threshold, in
    the order of [upper_pairs]. *)
Lemma find_high_similarity_pairs_eq (threshold : Q) :
  CompareSimilarity.find_high_similarity_pairs m data threshold =
  Ok (pair_questions data <$> filter (above m threshold) (upper_pairs (length data))).
Proof.
  unfold CompareSimilarity.find_high_similarity_pairs, upper_pairs.
  rewrite scan_rows; [reflexivity|].
  apply Forall_forall. intros i Hi%elem_of_range. lia.
Qed.

End PairwiseScan.

Lemma filter_sublist_impl {A : Type} (P R : A -> Prop)
    `{!forall x, Decision (P x)} `{!forall x, Decision (R x)} (l : list A) :
  (forall x, P x -> R x) -> filter P l `sublist_of` filter R l.
Proof.
  intros Himpl. induction l as [|x l IH]; [constructor|].
  rewrite !filter_cons.
  destruct (decide (P x)) as [HP|HP], (decide (R x)) as [HR|HR].
  - by apply sublist_skip.
  - destruct HR. by apply Himpl.
  - by apply sublist_cons.
  - exact IH.
Qed.

(** C5.  On an N by N similarity matrix over a corpus of N rows the scan
    returns, and its result lists the questions of exactly the index pairs
    [(i, j)] with [i < j < N] whose similarity is strictly greater than the
    threshold, each pair once.  The default threshold is 0.6. *)
Theorem find_high_similarity_pairs_exact (m : Corpus.matrix) (data : list Corpus.row)
    (threshold : Q) :
  square (length data) m ->
  exists indices : list (nat * nat),
    CompareSimilarity.find_high_similarity_pairs m data threshold =
      Ok (pair_questions data <$> indices) /\
    NoDup indices /\
    (forall i j, (i, j) ∈ indices <->
                 (i < j < length data)%nat /\ (threshold < entry m i j)%Q) /\
    (CompareSimilarity.default_threshold == 6 # 10)%Q.
Proof.
  intros shape. exists (filter (above m threshold) (upper_pairs (length data))).
  split; [by apply find_high_similarity_pairs_eq|].
  split; [apply NoDup_filter, NoDup_upper_pairs|].
  split; [|reflexivity].
  intros i j. rewrite list_elem_of_filter, elem_of_upper_pairs.
  unfold above. cbn [fst snd]. rewrite gt_lt. tauto.
Qed.

(** C7.  Raising the threshold from [t1] to [t2] only removes pairs from
    the result of the scan: the result at [t2] is a sublist of the result
    at [t1], so it is included in it and not longer.  A query that
    [check_similarity] finds distinct enough at [t1] is found distinct
    enough at [t2], with the same score. *)
Theorem threshold_monotone (m : Corpus.matrix) (data : list Corpus.row) (t1 t2 : Q) :
  square (length data) m -> (t1 <= t2)%Q ->
  (exists pairs1 pairs2,
     CompareSimilarity.find_high_similarity_pairs m data t1 = Ok pairs1 /\
     CompareSimilarity.find_high_similarity_pairs m data t2 = Ok pairs2 /\
     pairs2 `sublist_of` pairs1 /\
     pairs2 ⊆ pairs1 /\
     (length pairs2 <= length pairs1)%nat) /\
  (forall (cosine_similarity : Corpus.matrix -> Corpus.matrix -> result Corpus.matrix)
          (input_vector dataset_vector : Corpus.matrix) (score : Q),
     CompareSimilarityPort.check_similarity cosine_similarity
       input_vector dataset_vector t1 = Ok (CompareSimilarityPort.DistinctEnough score) ->
     CompareSimilarityPort.check_similarity cosine_similarity
       input_vector dataset_vector t2 = Ok (CompareSimilarityPort.DistinctEnough score)).
Proof.
  intros shape Hle. split.
  - eexists _, _.
    split; [by apply find_high_similarity_pairs_eq|].
    split; [by apply find_high_similarity_pairs_eq|].
    assert (Hsub : (pair_questions data <$>
                      filter (above m t2) (upper_pairs (length data)))
                   `sublist_of`
                   (pair_questions data <$>
                      filter (above m t1) (upper_pairs (length data)))).
    { apply fmap_sublist, filter_sublist_impl.
      intros ij. unfold above. by apply gt_weaken. }
    split; [exact Hsub|]. split.
    + intros p Hp. by apply (elem_of_sublist _ _ p Hp).
    + by apply sublist_length.
  - intros cosine_similarity input_vector dataset_vector score.
    unfold CompareSimilarityPort.check_similarity.
    destruct (cosine_similarity input_vector dataset_vector) as [sims|e]; [|done].
    rewrite !result_bind_ok.
    destruct (Corpus.np_max sims) as [best|e]; [|done].
    rewrite !result_bind_ok.
    destruct (Corpus.gt best t1) eqn:H1; [done|].
    intros [= <-].
    destruct (Corpus.gt best t2) eqn:H2; [|done].
    by rewrite (gt_weaken best t1 t2 Hle H2) in H1.
Qed.

Lemma sample_matrix_square : square (length sample_data) sample_matrix.
Proof. split; [reflexivity|]. repeat constructor. Qed.

(** At the default threshold all three pairs are reported, at 0.7 only
    the first. *)
Example find_high_similarity_pairs_sample :
  CompareSimilarity.find_high_similarity_pairs sample_matrix sample_data
    CompareSimilarity.default_threshold
  = Ok [(codes "server cannot connect", codes "server can not connect!");
        (codes "server cannot connect", codes "connect the printer");
        (codes "server can not connect!", codes "connect the printer")] /\
  CompareSimilarity.find_high_similarity_pairs sample_matrix sample_data (7 # 10)
  = Ok [(codes "server cannot connect", codes "server can not connect!")].
Proof. split; reflexivity. Qed.

Lemma find_high_similarity_pairs_exact_witness :
  exists indices : list (nat * nat),
    CompareSimilarity.find_high_similarity_pairs sample_matrix sample_data (7 # 10) =
      Ok (pair_questions sample_data <$> indices) /\
    NoDup indices /\
    (forall i j, (i, j) ∈ indices <->
                 (i < j < length sample_data)%nat /\ (7 # 10 < entry sample_matrix i j)%Q) /\
    (CompareSimilarity.default_threshold == 6 # 10)%Q.
Proof.
  apply (find_high_similarity_pairs_exact sample_matrix sample_data (7 # 10)).
  exact sample_matrix_square.
Defined.

Lemma threshold_monotone_witness :
  exists pairs1 pairs2,
    CompareSimilarity.find_high_similarity_pairs sample_matrix sample_data (6 # 10)
      = Ok pairs1 /\
    CompareSimilarity.find_high_similarity_pairs sample_matrix sample_data (7 # 10)
      = Ok pairs2 /\
    pairs2 `sublist_of` pairs1 /\
    pairs2 ⊆ pairs1 /\
    (length pairs2 <= length pairs1)%nat.
Proof.
  apply (threshold_monotone sample_matrix sample_data (6 # 10) (7 # 10)).
  - exact sample_matrix_square.
  - unfold Qle. cbn. lia.
Defined.

(** ** Ranked retrieval *)

Section Ranking.
Import Py Corpus.

Lemma comprehension_ok {A B : Type} (f : A -> result B) (g : A -> B) (l : list A) :
  (forall x, x ∈ l -> f x = Ok (g x)) -> comprehension f l = Ok (g <$> l).
Proof.
  induction l as [|x l IH]; intros Hf; [reflexivity|].
  cbn [comprehension]. rewrite (Hf x) by left. rewrite result_bind_ok.
  rewrite IH by (intros y Hy; apply Hf; by right). reflexivity.
Qed.

(** [l[-k:]] keeps the last [k] elements, all of them when [l] is
    short. *)
Lemma slice_from_last {A : Type} (k : Z) (l : list A) :
  1 <= k -> slice_from (- k) l = drop (length l - Z.to_nat k) l.
Proof.
  intros Hk. unfold slice_from.
  replace (- k <? 0) with true by (symmetry; apply Z.ltb_lt; lia).
  f_equal. lia.
Qed.

Lemma StronglySorted_rev {A : Type} (R : A -> A -> Prop) (l : list A) :
  StronglySorted R l -> StronglySorted (fun a b => R b a) (rev l).
Proof.
  induction 1 as [|x l _ IH Hx]; [constructor|].
  cbn [rev]. apply StronglySorted_app_2; [|exact IH|repeat constructor].
  intros a b Ha ->%list_elem_of_singleton.
  rewrite Forall_forall in Hx. apply Hx. by apply elem_of_rev_list in Ha.
Qed.

End Ranking.

Section RankedRetrieval.
Import Py Corpus.
Variable vectorizer : Type.
Variable transform : vectorizer -> list str -> result matrix.
Variable cosine_similarity : matrix -> matrix -> result matrix.
Variable argsort : list Q -> list nat.
Hypothesis argsort_sorts : sorts_ascending argsort.

(** C3, as the code has it.  When the query is scored against a corpus
    of [N >= 1] rows and [top_n >= 1], the function returns the questions
    and scores of [min top_n N] distinct corpus entries, by descending
    score (equal scores may follow each other), and no entry left out has
    a higher score than an entry returned. *)
Theorem find_most_similar_questions_top (new_input : str) (v : vectorizer)
    (tfidf_matrix : matrix) (data : list row) (top_n : Z) (query sims : matrix) :
  transform v [new_input] = Ok query ->
  cosine_similarity query tfidf_matrix = Ok sims ->
  length (concat sims) = length data ->
  1 <= top_n ->
  exists top : list nat,
    Vectorize.find_most_similar_questions vectorizer transform cosine_similarity argsort
      new_input v tfidf_matrix data top_n
    = Ok ((fun i => (question_at data i, score (concat sims) i)) <$> top) /\
    length top = Nat.min (Z.to_nat top_n) (length data) /\
    NoDup top /\
    (forall i, i ∈ top -> (i < length data)%nat) /\
    StronglySorted (fun a b => (score (concat sims) b <= score (concat sims) a)%Q) top /\
    (forall i j, i ∈ top -> (j < length data)%nat -> j ∉ top ->
                 (score (concat sims) j <= score (concat sims) i)%Q).
Proof.
  intros Htransform Hcos Hlen Htop.
  destruct (argsort_sorts (concat sims)) as [Hperm Hsorted].
  set (scores := concat sims) in *.
  set (sorted := argsort scores) in *.
  assert (Hlength : length sorted = length data).
  { by rewrite (Permutation_length Hperm), length_seq. }
  assert (Hrange : forall i, i ∈ sorted <-> (i < length data)%nat).
  { intros i. rewrite Hperm, elem_of_seq. lia. }
  set (d := (length sorted - Z.to_nat top_n)%nat).
  assert (Hsplit : sorted = take d sorted ++ drop d sorted)
    by (by rewrite take_drop).
  assert (Hdrop : forall i, i ∈ drop d sorted -> i ∈ sorted).
  { intros i Hi. rewrite Hsplit. apply elem_of_app. by right. }
  exists (rev (drop d sorted)). split; [|split; [|split; [|split; [|split]]]].
  - unfold Vectorize.find_most_similar_questions.
    rewrite Htransform, result_bind_ok, Hcos, result_bind_ok.
    cbn zeta. fold scores. fold sorted.
    rewrite (slice_from_last top_n sorted Htop). fold d.
    apply comprehension_ok. intros i Hi%elem_of_rev_list%Hdrop%Hrange.
    destruct (iloc_question data i Hi) as (r & -> & Hr).
    rewrite result_bind_ok. unfold at1, score.
    destruct (lookup_lt_is_Some_2 scores i) as [x Hx]; [lia|].
    rewrite Hx, result_bind_ok, Hr. reflexivity.
  - rewrite length_rev, length_drop. unfold d. lia.
  - apply NoDup_ListNoDup, NoDup_rev, NoDup_ListNoDup.
    assert (Hnodup : NoDup sorted).
    { rewrite Hperm. apply NoDup_seq. }
    rewrite Hsplit in Hnodup. by apply NoDup_app in Hnodup as (_ & _ & ?).
  - intros i Hi%elem_of_rev_list%Hdrop. by apply Hrange.
  - apply (StronglySorted_rev (fun a b => (score scores a <= score scores b)%Q)).
    rewrite Hsplit in Hsorted. by apply StronglySorted_app_1_r in Hsorted.
  - intros i j Hi%elem_of_rev_list Hj Hout.
    apply Hrange in Hj. rewrite Hsplit in Hj. apply elem_of_app in Hj as [Hj|Hj].
    + rewrite Hsplit in Hsorted.
      exact (StronglySorted_app_1_elem_of _ _ _ j i Hsorted Hj Hi).
    + destruct Hout. apply list_elem_of_In, in_rev.
      rewrite rev_involutive. by apply list_elem_of_In.
Qed.

End RankedRetrieval.

(** *** The insertion sort *)

Lemma insert_index_permutation (scores : list Q) (i : nat) (sorted : list nat) :
  Vectorize.insert_index scores i sorted ≡ₚ i :: sorted.
Proof.
  induction sorted as [|j rest IH]; cbn [Vectorize.insert_index]; [done|].
  destruct (Corpus.gt _ _); [done|]. by rewrite IH, Permutation_swap.
Qed.

Lemma insert_index_sorted (scores : list Q) (i : nat) (sorted : list nat) :
  StronglySorted (fun a b => (score scores a <= score scores b)%Q) sorted ->
  StronglySorted (fun a b => (score scores a <= score scores b)%Q)
    (Vectorize.insert_index scores i sorted).
Proof.
  induction 1 as [|j rest Hrest IH Hj]; cbn [Vectorize.insert_index].
  - repeat constructor.
  - fold (score scores j). fold (score scores i).
    destruct (Corpus.gt (score scores j) (score scores i)) eqn:Hgt.
    + apply gt_lt, Qlt_le_weak in Hgt.
      constructor; [by constructor|].
      constructor; [exact Hgt|].
      eapply Forall_impl; [exact Hj|]. intros k Hk. by apply Qle_trans with (score scores j).
    + constructor; [exact IH|].
      rewrite (insert_index_permutation scores i rest).
      constructor; [|exact Hj].
      apply Qnot_lt_le. intros Hlt%gt_lt. by rewrite Hlt in Hgt.
Qed.

Lemma argsort_stable_sorts : sorts_ascending Vectorize.argsort_stable.
Proof.
  intros sims. unfold Vectorize.argsort_stable.
  assert (Hgen : forall (l acc : list nat),
    StronglySorted (fun a b => (score sims a <= score sims b)%Q) acc ->
    foldl (fun sorted i => Vectorize.insert_index sims i sorted) acc l ≡ₚ l ++ acc /\
    StronglySorted (fun a b => (score sims a <= score sims b)%Q)
      (foldl (fun sorted i => Vectorize.insert_index sims i sorted) acc l)).
  { induction l as [|i l IH]; intros acc Hacc; [done|].
    cbn [foldl]. destruct (IH _ (insert_index_sorted sims i acc Hacc)) as [Hp Hs].
    split; [|exact Hs].
    rewrite Hp, insert_index_permutation. symmetry. apply Permutation_middle. }
  destruct (Hgen (seq 0 (length sims)) [] ltac:(constructor)) as [Hp Hs].
  split; [|exact Hs]. by rewrite Hp, app_nil_r.
Qed.

(** C3 fails on equal scores.  With the scores 0.9, 0.9 and 0.5 for the
    three questions of [sample_data], the answer lists the second
    question before the first: of two entries with equal scores the later
    one comes first.  And whatever order [argsort] leaves equal scores in,
    two entries with the score 0.9 are answered with two equal scores, so
    the order is not strictly descending. *)
Lemma equal_scores_rank_later_entry_first :
  Vectorize.find_most_similar_questions unit transform_any
    (similarity_given [9 # 10; 9 # 10; 1 # 2]%Q) Vectorize.argsort_stable
    (codes "server connect") tt [] sample_data Vectorize.default_top_n
  = Ok [(codes "server can not connect!", 9 # 10);
        (codes "server cannot connect", 9 # 10);
        (codes "connect the printer", 1 # 2)]%Q /\
  (forall argsort ranked,
     sorts_ascending argsort ->
     Vectorize.find_most_similar_questions unit transform_any
       (similarity_given [9 # 10; 9 # 10]%Q) argsort
       (codes "server connect") tt [] (take 2 sample_data) Vectorize.default_top_n
     = Ok ranked ->
     exists q1 q2, ranked = [(q1, 9 # 10); (q2, 9 # 10)]%Q).
Proof.
  split; [reflexivity|].
  intros argsort ranked Hsorts.
  destruct (Hsorts [9 # 10; 9 # 10]%Q) as [Hperm _].
  symmetry in Hperm. apply Permutation_length_2_inv in Hperm.
  unfold Vectorize.find_most_similar_questions, transform_any, similarity_given.
  rewrite !result_bind_ok. cbn [concat app].
  destruct Hperm as [-> | ->]; intros [= <-]; by eexists _, _.
Qed.

(** The two best of three: scores 0.2, 0.9 and 0.5, [top_n = 2]. *)
Lemma find_most_similar_questions_top_witness :
  exists top : list nat,
    Vectorize.find_most_similar_questions unit transform_any
      (similarity_given [2 # 10; 9 # 10; 1 # 2]%Q) Vectorize.argsort_stable
      (codes "server connect") tt [] sample_data 2
    = Ok ((fun i => (question_at sample_data i,
                     score (concat [[2 # 10; 9 # 10; 1 # 2]%Q]) i)) <$> top) /\
    length top = Nat.min (Z.to_nat 2) (length sample_data) /\
    NoDup top /\
    (forall i, i ∈ top -> (i < length sample_data)%nat) /\
    StronglySorted (fun a b => (score (concat [[2 # 10; 9 # 10; 1 # 2]%Q]) b
                                <= score (concat [[2 # 10; 9 # 10; 1 # 2]%Q]) a)%Q) top /\
    (forall i j, i ∈ top -> (j < length sample_data)%nat -> j ∉ top ->
                 (score (concat [[2 # 10; 9 # 10; 1 # 2]%Q]) j
                  <= score (concat [[2 # 10; 9 # 10; 1 # 2]%Q]) i)%Q).
Proof.
  apply (find_most_similar_questions_top unit transform_any
           (similarity_given [2 # 10; 9 # 10; 1 # 2]%Q) Vectorize.argsort_stable
           argsort_stable_sorts (codes "server connect") tt [] sample_data 2
           [[1%Q]] [[2 # 10; 9 # 10; 1 # 2]%Q]).
  - reflexivity.
  - reflexivity.
  - reflexivity.
  - lia.
Defined.

Example find_most_similar_questions_sample :
  Vectorize.find_most_similar_questions unit transform_any
    (similarity_given [2 # 10; 9 # 10; 1 # 2]%Q) Vectorize.argsort_stable
    (codes "server connect") tt [] sample_data 2
  = Ok [(codes "server can not connect!", 9 # 10);
        (codes "connect the printer", 1 # 2)]%Q.
Proof. reflexivity. Qed.

(** ** The similarity check on an empty corpus *)

Section EmptyCorpus.
Import Chars Py Corpus.
Variable U : unicode_db.
Variable cut : str -> list str.
Variable load_data : string -> result (list row).
Variable fit_transform : list str -> result matrix.
Variable cosine_similarity : matrix -> matrix -> result matrix.
Hypothesis fit_rows : one_row_per_document fit_transform.
Hypothesis cosine_shape : pairwise_shape cosine_similarity.

Lemma concat_empty_rows (sims : matrix) :
  Forall (fun r => length r = 0%nat) sims -> concat sims = [].
Proof.
  induction 1 as [|r sims Hr _ IH]; [reflexivity|].
  cbn [concat]. rewrite IH. by destruct r.
Qed.

(** Against an empty corpus the check has no score to return. *)
Lemma check_similarity_empty (input_vector : matrix) (threshold : Q) :
  exists e,
    CompareSimilarityPort.check_similarity cosine_similarity input_vector [] threshold
    = Raise e.
Proof.
  unfold CompareSimilarityPort.check_similarity.
  destruct (cosine_similarity input_vector []) as [sims|e] eqn:Hcos; [|by exists e].
  rewrite result_bind_ok. unfold np_max.
  destruct (cosine_shape _ _ _ Hcos) as [_ Hrows].
  rewrite (concat_empty_rows sims Hrows). by eexists.
Qed.

(** C6, as the code has it.  With an empty corpus and a request that
    carries a text, nothing checks for the empty corpus.  [vectorize_data]
    vectorizes the one-document collection made of the query: it raises
    what the vectorizer raises on that collection, and otherwise returns a
    corpus matrix without rows beside the row of the query.  The route
    never answers 200: its answer has status 500 and carries the message
    of the first exception on the way -- that of the vectorizer, else that
    of [cosine_similarity], else that of [max] over an array without
    entries. *)
Theorem similarity_check_empty_corpus (fs : gmap string str) (input_text : str) :
  load_data CompareSimilarityPort.WORDS_SET_PATH = Ok [] ->
  input_text <> [] ->
  let preprocessor :=
    CompareSimilarityPort.init U fs CompareSimilarityPort.STOP_WORDS_PATH in
  let answer :=
    CompareSimilarityPort.similarity_check U cut load_data fit_transform
      cosine_similarity fs (Some input_text) in
  match fit_transform [CompareSimilarityPort.preprocess U cut preprocessor input_text] with
  | Raise e =>
      CompareSimilarityPort.vectorize_data U cut fit_transform [] input_text preprocessor
      = Raise e /\
      answer = (CompareSimilarityPort.Error (str_exn e), 500)
  | Ok X =>
      exists query,
        X = [query] /\
        CompareSimilarityPort.vectorize_data U cut fit_transform [] input_text preprocessor
        = Ok ([], [query]) /\
        match cosine_similarity [query] [] with
        | Raise e => answer = (CompareSimilarityPort.Error (str_exn e), 500)
        | Ok sims =>
            np_max sims =
              Raise (ValueError
                "zero-size array to reduction operation maximum which has no identity") /\
            answer =
              (CompareSimilarityPort.Error
                 "zero-size array to reduction operation maximum which has no identity",
               500)
        end
  end.
Proof.
  intros Hload Htext preprocessor answer. subst preprocessor answer.
  unfold CompareSimilarityPort.similarity_check.
  destruct input_text as [|c text]; [done|].
  rewrite Hload, result_bind_ok.
  unfold CompareSimilarityPort.vectorize_data. cbn [map app].
  destruct (fit_transform _) as [X|e] eqn:Hfit; [|by split].
  rewrite !result_bind_ok.
  apply fit_rows in Hfit. cbn [length] in Hfit.
  destruct X as [|r [|r' X]]; try discriminate.
  exists r. split; [reflexivity|].
  cbn [last length Nat.sub take]. rewrite !result_bind_ok.
  split; [reflexivity|].
  unfold CompareSimilarityPort.check_similarity.
  destruct (cosine_similarity [r] []) as [sims|e] eqn:Hcos; [|reflexivity].
  rewrite result_bind_ok. unfold np_max.
  destruct (cosine_shape _ _ _ Hcos) as [_ Hrows].
  rewrite (concat_empty_rows sims Hrows). by split.
Qed.

End EmptyCorpus.

(** C6 fails at the vectorization.  With an empty corpus [vectorize_data]
    vectorizes the one-document collection made of the query and returns
    a corpus matrix without rows; nothing checks for an empty corpus. *)
Lemma vectorize_data_empty_corpus_succeeds :
  CompareSimilarityPort.vectorize_data Chars.corpus_db Segmenter.cut_runs
    fit_transform_ones [] (codes "I/O error on device 42")
    (CompareSimilarityPort.init Chars.corpus_db ∅ CompareSimilarityPort.STOP_WORDS_PATH)
  = Ok ([], [[1%Q]]).
Proof. reflexivity. Qed.

(** The answer of the route for that query: the vectorizer and the
    similarity do not raise, and the message is that of [max]. *)
Lemma similarity_check_empty_corpus_witness :
  CompareSimilarityPort.vectorize_data Chars.corpus_db Segmenter.cut_runs
    fit_transform_ones [] (codes "I/O error on device 42")
    (CompareSimilarityPort.init Chars.corpus_db ∅ CompareSimilarityPort.STOP_WORDS_PATH)
  = Ok ([], [[1%Q]]) /\
  CompareSimilarityPort.similarity_check Chars.corpus_db Segmenter.cut_runs
    load_empty_corpus fit_transform_ones cosine_similarity_ones ∅
    (Some (codes "I/O error on device 42"))
  = (CompareSimilarityPort.Error
       "zero-size array to reduction operation maximum which has no identity", 500).
Proof.
  assert (Hrows : one_row_per_document fit_transform_ones).
  { intros docs X [= <-]. by rewrite length_fmap. }
  assert (Hshape : pairwise_shape cosine_similarity_ones).
  { intros a b sims [= <-]. split; [by rewrite length_fmap|].
    apply Forall_fmap, Forall_forall. intros r _. cbn. by rewrite length_fmap. }
  destruct (similarity_check_empty_corpus Chars.corpus_db Segmenter.cut_runs
              load_empty_corpus fit_transform_ones cosine_similarity_ones Hrows Hshape
              ∅ (codes "I/O error on device 42") eq_refl ltac:(discriminate))
    as (query & HX & Hvectorize & _ & Hanswer).
  injection HX as <-. by split.
Defined.

Example similarity_check_empty_corpus_sample :
  CompareSimilarityPort.similarity_check Chars.corpus_db Segmenter.cut_runs
    load_empty_corpus fit_transform_ones cosine_similarity_ones ∅
    (Some (codes "I/O error on device 42"))
  = (CompareSimilarityPort.Error
       "zero-size array to reduction operation maximum which has no identity", 500).
Proof. reflexivity. Qed.

(** ** The normalized text *)

Section NormalizedText.
Import Chars Py.
Variable U : unicode_db.

Lemma sub_spaces_single_spaced (text : str) :
  forall in_run, single_spaced U in_run (sub_runs (is_space U) [32] in_run text) = true.
Proof.
  induction text as [|c rest IH]; intros in_run; [reflexivity|].
  cbn [sub_runs]. destruct (is_space U c) eqn:Hc.
  - destruct in_run; cbn [app]; [apply IH|].
    cbn [single_spaced]. by rewrite (IH true).
  - cbn [single_spaced]. by rewrite Hc.
Qed.

Lemma single_spaced_weaken (prev : bool) (text : str) :
  single_spaced U prev text = true -> single_spaced U false text = true.
Proof.
  destruct text as [|c rest]; [done|]. cbn [single_spaced].
  destruct (is_space U c); [|done]. by intros [_ ->]%andb_true_iff.
Qed.

Lemma single_spaced_adjacent (text : str) :
  forall prev l1 a b l2,
    single_spaced U prev text = true ->
    text = l1 ++ a :: b :: l2 ->
    is_space U a = true -> is_space U b = false.
Proof.
  induction text as [|c rest IH]; intros prev l1 a b l2 Hs Heq Ha.
  - by destruct l1.
  - cbn [single_spaced] in Hs. destruct l1 as [|d l1]; cbn [app] in Heq.
    + injection Heq as -> ->. rewrite Ha in Hs.
      apply andb_true_iff in Hs as [_ Hs]. cbn [single_spaced] in Hs.
      destruct (is_space U b); [discriminate|reflexivity].
    + injection Heq as -> ->.
      destruct (is_space U d).
      * apply andb_true_iff in Hs as [_ Hs]. by apply (IH true l1 a b l2).
      * by apply (IH false l1 a b l2).
Qed.

Lemma lstrip_suffix (text : str) : exists pre, text = pre ++ lstrip U text.
Proof.
  induction text as [|c rest [pre IH]]; [by exists []|].
  cbn [lstrip]. destruct (is_space U c); [|by exists []].
  exists (c :: pre). cbn [app]. by rewrite <- IH.
Qed.

Lemma lstrip_head (text rest : str) (c : Z) :
  lstrip U text = c :: rest -> is_space U c = false.
Proof.
  induction text as [|d text IH]; [done|]. cbn [lstrip].
  destruct (is_space U d) eqn:Hd; [exact IH|]. by intros [= <- _].
Qed.

(** The text [remove_special_characters] returns after [normalize_text]:
    its characters are spaces and word characters that are no digits, none
    is a full-width form, it neither starts nor ends with whitespace, and
    no whitespace follows whitespace. *)
Theorem normalized_text_invariant (text : str) :
  let out := ChineseTextPreprocessor.remove_special_characters U
               (ChineseTextPreprocessor.normalize_text text) in
  (forall c, c ∈ out ->
     (c = 32 \/ (is_word U c = true /\ is_digit U c = false /\ is_space U c = false)) /\
     ~ (0xFF01 <= c <= 0xFF5E) /\ c <> 0x3000) /\
  (forall c rest, out = c :: rest -> is_space U c = false) /\
  (forall c init, out = init ++ [c] -> is_space U c = false) /\
  (forall l1 a b l2, out = l1 ++ a :: b :: l2 ->
     is_space U a = true -> is_space U b = false).
Proof.
  cbn zeta.
  unfold ChineseTextPreprocessor.remove_special_characters,
    ChineseTextPreprocessor.normalize_text, ChineseTextPreprocessor.full_to_half.
  set (folded := map ChineseTextPreprocessor.fold_char text).
  set (spaced := sub_spaces U (sub_digits U [32] (sub_nonword U folded))).
  assert (Hspaced : single_spaced U false spaced = true)
    by apply sub_spaces_single_spaced.
  destruct (lstrip_suffix spaced) as [pre Hpre].
  destruct (lstrip_suffix (rev (lstrip U spaced))) as [post Hpost].
  assert (Hmid : spaced = pre ++ strip U spaced ++ rev post).
  { rewrite Hpre at 1. f_equal. unfold strip, rstrip.
    rewrite <- (rev_involutive (lstrip U spaced)) at 1.
    rewrite Hpost at 1. by rewrite rev_app_distr. }
  split; [|split; [|split]].
  - intros c Hc. apply strip_chars in Hc. unfold spaced, sub_spaces, sub_digits in Hc.
    apply sub_runs_chars in Hc as [->%list_elem_of_singleton|[Hc Hs]].
    { split; [by left|lia]. }
    apply sub_runs_chars in Hc as [->%list_elem_of_singleton|[Hc Hd]].
    { split; [by left|lia]. }
    unfold sub_nonword in Hc.
    change (map ?f folded) with (f <$> folded) in Hc.
    apply list_elem_of_fmap in Hc as (x & Hcx & Hx).
    destruct (is_word U x || is_space U x) eqn:Hclass; subst c.
    + split.
      * right. rewrite Hs, orb_false_r in Hclass. done.
      * unfold folded in Hx. change (map ?f text) with (f <$> text) in Hx.
        apply list_elem_of_fmap in Hx as (y & -> & _).
        unfold ChineseTextPreprocessor.fold_char.
        destruct (Z.leb_spec 65281 y), (Z.leb_spec y 65374); cbn [andb];
          try destruct (Z.eqb_spec y 12288); lia.
    + split; [by left|lia].
  - intros c rest Hout.
    unfold strip, rstrip in Hout.
    assert (Hrev : rev (lstrip U spaced) = post ++ rev rest ++ [c]).
    { rewrite Hpost at 1. f_equal.
      rewrite <- (rev_involutive (lstrip U (rev (lstrip U spaced)))), Hout.
      reflexivity. }
    apply (f_equal (@rev Z)) in Hrev.
    rewrite rev_involutive, !rev_app_distr in Hrev. cbn in Hrev.
    by apply lstrip_head in Hrev.
  - intros c init Hout. unfold strip, rstrip in Hout.
    apply (f_equal (@rev Z)) in Hout.
    rewrite rev_involutive, rev_app_distr in Hout. cbn in Hout.
    by apply lstrip_head in Hout.
  - intros l1 a b l2 Hout Ha.
    apply (single_spaced_adjacent spaced false (pre ++ l1) a b (l2 ++ rev post) Hspaced);
      [|exact Ha].
    rewrite Hmid, Hout, <- !app_assoc. reflexivity.
Qed.

End NormalizedText.

(** ** The scratch attribute of the batch preprocessor *)

Section ScratchState.
Import Chars Py.
Variable U : unicode_db.
Variable cut : str -> list str.

(** What [preprocess] leaves in the object. *)
Lemma batch_preprocess_state (self self' : ChineseTextPreprocessor.self_t)
    (text : str) (words : gset str) :
  ChineseTextPreprocessor.preprocess U cut self text = Ok (words, self') ->
  ChineseTextPreprocessor.stop_words self' = ChineseTextPreprocessor.stop_words self /\
  ChineseTextPreprocessor.cleaned_text self' =
    Some (InputProcessorPort.extract_special_patterns U text).
Proof. by intros [= _ <-]. Qed.

(** [preprocess] never fails, and its answer depends on the stop words
    and the text only: the text left in [cleaned_text] by an earlier call
    plays no part, the stop words are kept, and calling again on the
    object returned gives the same words and the same object. *)
Theorem preprocess_ignores_scratch_state
    (self1 self2 : ChineseTextPreprocessor.self_t) (text : str) :
  ChineseTextPreprocessor.stop_words self1 = ChineseTextPreprocessor.stop_words self2 ->
  exists words self',
    ChineseTextPreprocessor.preprocess U cut self1 text = Ok (words, self') /\
    ChineseTextPreprocessor.preprocess U cut self2 text = Ok (words, self') /\
    ChineseTextPreprocessor.preprocess U cut self' text = Ok (words, self') /\
    ChineseTextPreprocessor.stop_words self' = ChineseTextPreprocessor.stop_words self1.
Proof.
  intros Hstop. eexists _, _. split; [reflexivity|].
  unfold ChineseTextPreprocessor.preprocess,
    ChineseTextPreprocessor.extract_special_patterns,
    ChineseTextPreprocessor.remove_stop_words.
  cbn [ChineseTextPreprocessor.stop_words ChineseTextPreprocessor.cleaned_text].
  rewrite <- Hstop. done.
Qed.

(** The interactive script and the batch preprocessor are two copies of
    one class: on the same stop-word file and the same text they return
    the same words, and [main] returns the words of the default file. *)
Theorem input_processor_agrees_with_batch (fs : gmap string str) (path : string)
    (text : str) :
  exists words self1 self2,
    InputProcessor.preprocess U cut (InputProcessor.init U fs path) text
      = Ok (words, self1) /\
    ChineseTextPreprocessor.preprocess U cut (ChineseTextPreprocessor.init U fs path) text
      = Ok (words, self2) /\
    InputProcessor.stop_words self1 = ChineseTextPreprocessor.stop_words self2 /\
    InputProcessor.cleaned_text self1 = ChineseTextPreprocessor.cleaned_text self2 /\
    (path = default_stop_words_file -> InputProcessor.main U cut fs text = Ok words).
Proof.
  eexists _, _, _. split; [reflexivity|]. split; [reflexivity|].
  split; [reflexivity|]. split; [reflexivity|]. by intros ->.
Qed.

End ScratchState.

(** ** The batch script *)

Section BatchScriptRows.
Import Chars Py.
Variable U : unicode_db.
Variable cut : str -> list str.

Lemma batch_preprocess_run (self : ChineseTextPreprocessor.self_t) (text : str) :
  ChineseTextPreprocessor.preprocess U cut self text =
  Ok (batch_words U cut (ChineseTextPreprocessor.stop_words self) text,
      {| ChineseTextPreprocessor.stop_words := ChineseTextPreprocessor.stop_words self;
         ChineseTextPreprocessor.cleaned_text :=
           Some (InputProcessorPort.extract_special_patterns U text) |}).
Proof. reflexivity. Qed.

Lemma read_questions_loop (rows : list (list str)) :
  Forall (fun row => row = [] \/ (2 <= length row)%nat) rows ->
  forall questions,
    for_each (fun questions row =>
      match row with
      | [] => Ok questions
      | _ :: _ =>
          match row !! 1%nat with
          | Some field => Ok (questions ++ [strip U field])
          | None => Raise (IndexError "list index out of range")
          end
      end) questions rows
    = Ok (questions ++ (question_of_row U <$> filter (fun row => row <> []) rows)).
Proof.
  induction 1 as [|row rows Hrow _ IH]; intros questions.
  - cbn. by rewrite app_nil_r.
  - cbn [for_each]. rewrite filter_cons.
    destruct row as [|f0 [|f1 row]].
    + rewrite result_bind_ok, IH. by rewrite decide_False by (by intros []).
    + destruct Hrow as [|Hlen]; [done|]. cbn in Hlen. lia.
    + cbn [lookup list_lookup]. rewrite result_bind_ok, IH.
      rewrite decide_True by done. rewrite fmap_cons, <- app_assoc. reflexivity.
Qed.

Lemma read_questions_rows (rows : list (list str)) :
  Forall (fun row => row = [] \/ (2 <= length row)%nat) rows ->
  forall header, BatchScript.read_questions U (header :: rows) =
    Ok (question_of_row U <$> filter (fun row => row <> []) rows).
Proof.
  intros Hrows header. unfold BatchScript.read_questions.
  by rewrite (read_questions_loop rows Hrows).
Qed.

Lemma write_rows_loop (questions : list str) :
  forall written (self : ChineseTextPreprocessor.self_t),
  exists self',
    for_each (fun '(written, preprocessor) question =>
      '(words_set, preprocessor) ←
        ChineseTextPreprocessor.preprocess U cut preprocessor question;
      Ok (written ++ [(question, words_set)], preprocessor))
    (written, self) questions
    = Ok (written ++
            ((fun q => (q, batch_words U cut (ChineseTextPreprocessor.stop_words self) q))
               <$> questions), self') /\
    ChineseTextPreprocessor.stop_words self' = ChineseTextPreprocessor.stop_words self.
Proof.
  induction questions as [|q questions IH]; intros written self.
  - exists self. cbn. by rewrite app_nil_r.
  - cbn [for_each]. rewrite batch_preprocess_run, !result_bind_ok.
    destruct (IH (written ++ [(q, batch_words U cut (ChineseTextPreprocessor.stop_words self) q)])
                {| ChineseTextPreprocessor.stop_words := ChineseTextPreprocessor.stop_words self;
                   ChineseTextPreprocessor.cleaned_text :=
                     Some (InputProcessorPort.extract_special_patterns U q) |})
      as (self' & -> & Hstop).
    exists self'. split; [|exact Hstop].
    cbn [ChineseTextPreprocessor.stop_words]. by rewrite fmap_cons, <- app_assoc.
Qed.

(** The batch script.  When every non-empty row after the header has at
    least two fields, the script writes one row per non-empty input row,
    in the order of the input: its first field is the trimmed second field
    of the input row, its words are the words a fresh preprocessor returns
    for that question.  An input without a header row stops the script,
    and so does a row with a single field. *)
Theorem batch_script_rows (fs : gmap string str) (header : list str)
    (rows : list (list str)) :
  (Forall (fun row => row = [] \/ (2 <= length row)%nat) rows ->
   exists written,
     BatchScript.script U cut fs (header :: rows) = Ok written /\
     written.*1 = question_of_row U <$> filter (fun row => row <> []) rows /\
     forall q words, (q, words) ∈ written ->
       exists self',
         ChineseTextPreprocessor.preprocess U cut
           (ChineseTextPreprocessor.init U fs default_stop_words_file) q
         = Ok (words, self')) /\
  BatchScript.script U cut fs [] = Raise (OtherError "StopIteration") /\
  (forall field more,
     BatchScript.script U cut fs (header :: [field] :: more)
     = Raise (IndexError "list index out of range")).
Proof.
  split; [|split; [reflexivity|reflexivity]].
  intros Hrows. unfold BatchScript.script.
  rewrite (read_questions_rows rows Hrows), result_bind_ok.
  unfold BatchScript.write_rows.
  destruct (write_rows_loop (question_of_row U <$> filter (fun row => row <> []) rows) []
              (ChineseTextPreprocessor.init U fs default_stop_words_file))
    as (self' & Hloop & _).
  unfold default_stop_words_file in Hloop. rewrite Hloop, result_bind_ok.
  eexists. split; [reflexivity|]. cbn [app]. split.
  - rewrite <- list_fmap_compose. by rewrite list_fmap_id.
  - intros q words (q' & [= <- ->] & _)%list_elem_of_fmap.
    eexists. apply batch_preprocess_run.
Qed.

End BatchScriptRows.

(** An object that has already processed "old text" and a fresh one. *)
Lemma preprocess_ignores_scratch_state_witness :
  exists words self',
    ChineseTextPreprocessor.preprocess Chars.corpus_db Segmenter.cut_runs
      {| ChineseTextPreprocessor.stop_words := {[ codes "the" ]};
         ChineseTextPreprocessor.cleaned_text := Some (codes "old text") |}
      (codes "connect the printer") = Ok (words, self') /\
    ChineseTextPreprocessor.preprocess Chars.corpus_db Segmenter.cut_runs
      {| ChineseTextPreprocessor.stop_words := {[ codes "the" ]};
         ChineseTextPreprocessor.cleaned_text := None |}
      (codes "connect the printer") = Ok (words, self') /\
    ChineseTextPreprocessor.preprocess Chars.corpus_db Segmenter.cut_runs self'
      (codes "connect the printer") = Ok (words, self') /\
    ChineseTextPreprocessor.stop_words self' = {[ codes "the" ]}.
Proof.
  exact (preprocess_ignores_scratch_state Chars.corpus_db Segmenter.cut_runs
           {| ChineseTextPreprocessor.stop_words := {[ codes "the" ]};
              ChineseTextPreprocessor.cleaned_text := Some (codes "old text") |}
           {| ChineseTextPreprocessor.stop_words := {[ codes "the" ]};
              ChineseTextPreprocessor.cleaned_text := None |}
           (codes "connect the printer") eq_refl).
Defined.

(** An input file with a header, two questions and an empty row. *)
Lemma batch_script_rows_witness :
  exists written,
    BatchScript.script Chars.corpus_db Segmenter.cut_runs ∅
      [[codes "id"; codes "description"];
       [codes "1"; codes " server 42 down "]; [];
       [codes "2"; codes "A/B test"; codes "extra"]] = Ok written /\
    written.*1 = [codes "server 42 down"; codes "A/B test"] /\
    forall q words, (q, words) ∈ written ->
      exists self',
        ChineseTextPreprocessor.preprocess Chars.corpus_db Segmenter.cut_runs
          (ChineseTextPreprocessor.init Chars.corpus_db ∅ default_stop_words_file) q
        = Ok (words, self').
Proof.
  destruct (batch_script_rows Chars.corpus_db Segmenter.cut_runs ∅
              [codes "id"; codes "description"]
              [[codes "1"; codes " server 42 down "]; [];
               [codes "2"; codes "A/B test"; codes "extra"]]) as [Hrows _].
  apply Hrows.
  repeat constructor; cbn; lia.
Defined.

(** ** Keywords *)

Section KeywordsFacts.
Import Py Corpus.

Lemma elem_of_nonzero_from (row : list Q) :
  forall k col,
    col ∈ Keywords.nonzero_from k row <->
    exists i x, col = (k + i)%nat /\ row !! i = Some x /\ ~ (x == 0)%Q.
Proof.
  induction row as [|y row IH]; intros k col; cbn [Keywords.nonzero_from].
  - split; [by intros ?%elem_of_nil|]. by intros (i & x & _ & ? & _).
  - destruct (Qeq_bool y 0) eqn:Hy.
    + rewrite IH. apply Qeq_bool_iff in Hy. split.
      * intros (i & x & -> & Hi & Hx). exists (S i), x. split; [lia|done].
      * intros ([|i] & x & -> & Hi & Hx).
        -- injection Hi as ->. by destruct Hx.
        -- exists i, x. split; [lia|done].
    + rewrite elem_of_cons, IH. split.
      * intros [->|(i & x & -> & Hi & Hx)].
        -- exists 0%nat, y. split; [lia|]. split; [done|].
           intros Hzero%Qeq_bool_iff. by rewrite Hzero in Hy.
        -- exists (S i), x. split; [lia|done].
      * intros ([|i] & x & -> & Hi & Hx).
        -- left. lia.
        -- right. exists i, x. split; [lia|done].
Qed.

Variable keyword_threshold : Q.
Variable feature_names : list str.

(** The columns selected in one row. *)
Lemma keywords_of_row (row : list Q) (cols : list nat) :
  Forall (fun col => (col < length row)%nat /\ (col < length feature_names)%nat) cols ->
  forall keywords_set : gset str,
  exists keywords_set' : gset str,
    for_each (fun keywords_set col =>
      x ← at1 row col;
      if gt x keyword_threshold then
        name ← Keywords.feature feature_names col;
        Ok (keywords_set ∪ {[ name ]})
      else Ok keywords_set) keywords_set cols = Ok keywords_set' /\
    forall w, w ∈ keywords_set' <->
      w ∈ keywords_set \/
      exists col x, col ∈ cols /\ row !! col = Some x /\
                    (keyword_threshold < x)%Q /\ feature_names !! col = Some w.
Proof.
  intros Hcols.
  match goal with |- context [for_each ?f] => set (body := f) end.
  induction Hcols as [|col cols [Hrow Hname] _ IH]; intros keywords_set.
  - exists keywords_set. split; [reflexivity|]. intros w. split; [by left|].
    intros [?|(col & x & ?%elem_of_nil & _)]; done.
  - cbn [for_each].
    destruct (lookup_lt_is_Some_2 row col Hrow) as [x Hx].
    destruct (lookup_lt_is_Some_2 feature_names col Hname) as [name Hn].
    assert (Hbody : body keywords_set col =
              Ok (if gt x keyword_threshold then keywords_set ∪ {[ name ]}
                  else keywords_set)).
    { unfold body, at1, Keywords.feature. rewrite Hx, Hn, result_bind_ok.
      by destruct (gt x keyword_threshold). }
    rewrite Hbody, result_bind_ok.
    destruct (IH (if gt x keyword_threshold then keywords_set ∪ {[ name ]}
                  else keywords_set)) as (K & -> & HK).
    exists K. split; [reflexivity|]. intros w. rewrite HK.
    destruct (gt x keyword_threshold) eqn:Hgt.
    + rewrite elem_of_union, elem_of_singleton. split.
      * intros [[?| ->]|(c & y & ? & ? & ? & ?)]; [by left| |].
        -- right. exists col, x. split; [by left|]. split; [done|].
           split; [by apply gt_lt|done].
        -- right. exists c, y. split; [by right|done].
      * intros [?|(c & y & [->|?]%elem_of_cons & Hy & Hlt & Hw)]; [by left; left| |].
        -- left. right. congruence.
        -- right. by exists c, y.
    + split.
      * intros [?|(c & y & ? & ? & ? & ?)]; [by left|].
        right. exists c, y. split; [by right|done].
      * intros [?|(c & y & [->|?]%elem_of_cons & Hy & Hlt & Hw)]; [by left| |].
        -- rewrite Hx in Hy. injection Hy as <-.
           apply gt_lt in Hlt. by rewrite Hlt in Hgt.
        -- right. by exists c, y.
Qed.

Lemma keywords_of_rows (rows : list (list Q)) :
  Forall (fun row => (length row <= length feature_names)%nat) rows ->
  forall keywords_set : gset str,
  exists keywords_set' : gset str,
    for_each (fun keywords_set row =>
      for_each (fun keywords_set col =>
        x ← at1 row col;
        if gt x keyword_threshold then
          name ← Keywords.feature feature_names col;
          Ok (keywords_set ∪ {[ name ]})
        else Ok keywords_set) keywords_set (Keywords.nonzero row))
    keywords_set rows = Ok keywords_set' /\
    forall w, w ∈ keywords_set' <->
      w ∈ keywords_set \/
      exists row col x, row ∈ rows /\ row !! col = Some x /\ ~ (x == 0)%Q /\
                        (keyword_threshold < x)%Q /\ feature_names !! col = Some w.
Proof.
  induction 1 as [|row rows Hrow _ IH]; intros keywords_set.
  - exists keywords_set. split; [reflexivity|]. intros w. split; [by left|].
    intros [?|(row & col & x & ?%elem_of_nil & _)]; done.
  - cbn [for_each].
    destruct (keywords_of_row row (Keywords.nonzero row)) with (keywords_set := keywords_set)
      as (K1 & -> & HK1).
    { apply Forall_forall. intros col Hcol.
      apply elem_of_nonzero_from in Hcol as (i & x & -> & Hi & _).
      apply lookup_lt_Some in Hi. cbn. lia. }
    rewrite result_bind_ok.
    destruct (IH K1) as (K & -> & HK).
    exists K. split; [reflexivity|]. intros w. rewrite HK, HK1. split.
    + intros [[?|(col & x & Hcol & Hx & Hlt & Hw)]|(r & col & x & ? & ?)].
      * by left.
      * right. exists row, col, x. split; [by left|].
        apply elem_of_nonzero_from in Hcol as (i & y & Hi & Hy & Hnz).
        cbn in Hi. subst i. rewrite Hx in Hy. injection Hy as <-. done.
      * right. exists r, col, x. split; [by right|done].
    + intros [?|(r & col & x & [->|?]%elem_of_cons & Hx & Hnz & Hlt & Hw)].
      * by left; left.
      * left. right. exists col, x. split; [|done].
        apply elem_of_nonzero_from. by exists col, x.
      * right. by exists r, col, x.
Qed.

End KeywordsFacts.

(** [extract_keywords] on a matrix whose rows are not wider than the list
    of feature names: it returns, and a name is a keyword exactly when
    some row has, in the column of that name, an entry that is not zero
    and strictly greater than the threshold.  Raising the threshold can
    only remove keywords. *)
Theorem extract_keywords_exact (threshold : Q) (tfidf_matrix : Corpus.matrix)
    (feature_names : list str) :
  Forall (fun row => (length row <= length feature_names)%nat) tfidf_matrix ->
  exists keywords,
    Keywords.extract_keywords threshold tfidf_matrix feature_names = Ok keywords /\
    (forall w, w ∈ keywords <->
       exists row col x, row ∈ tfidf_matrix /\ row !! col = Some x /\ ~ (x == 0)%Q /\
                         (threshold < x)%Q /\ feature_names !! col = Some w) /\
    (forall higher, (threshold <= higher)%Q ->
       exists fewer,
         Keywords.extract_keywords higher tfidf_matrix feature_names = Ok fewer /\
         fewer ⊆ keywords).
Proof.
  intros Hwidth. unfold Keywords.extract_keywords.
  destruct (keywords_of_rows threshold feature_names tfidf_matrix Hwidth ∅)
    as (K & -> & HK).
  exists K. split; [reflexivity|]. split.
  - intros w. rewrite HK. split; [|by right].
    intros [?%elem_of_empty|?]; done.
  - intros higher Hle.
    destruct (keywords_of_rows higher feature_names tfidf_matrix Hwidth ∅)
      as (K' & -> & HK').
    exists K'. split; [reflexivity|]. intros w. rewrite HK, HK'.
    intros [?%elem_of_empty|(row & col & x & ? & ? & ? & Hlt & ?)]; [done|].
    right. exists row, col, x. repeat (split; [done|]). split; [|done].
    by apply Qle_lt_trans with higher.
Qed.

(** With the threshold 0.2 the keywords are "connect" and "printer". *)
Lemma extract_keywords_exact_witness :
  exists keywords,
    Keywords.extract_keywords (2 # 10) sample_tfidf sample_features = Ok keywords /\
    (forall w, w ∈ keywords <->
       exists row col x, row ∈ sample_tfidf /\ row !! col = Some x /\ ~ (x == 0)%Q /\
                         (2 # 10 < x)%Q /\ sample_features !! col = Some w) /\
    (forall higher, (2 # 10 <= higher)%Q ->
       exists fewer,
         Keywords.extract_keywords higher sample_tfidf sample_features = Ok fewer /\
         fewer ⊆ keywords).
Proof.
  apply (extract_keywords_exact (2 # 10) sample_tfidf sample_features).
  repeat constructor.
Defined.

Example extract_keywords_sample :
  Keywords.extract_keywords (2 # 10) sample_tfidf sample_features
  = Ok {[ codes "connect"; codes "printer" ]}.
Proof. vm_compute. reflexivity. Qed.

(** ** IP addresses *)

Section IpAddresses.
Import Chars Py.
Variable U : unicode_db.

Lemma count_digits_take (text : str) :
  (count_digits text <= length text)%nat /\
  Forall (fun c => ascii_digit c = true) (take (count_digits text) text).
Proof.
  induction text as [|c rest [IHlen IHall]]; cbn [count_digits].
  - split; [done|constructor].
  - destruct (ascii_digit c) eqn:Hc; cbn; [|split; [lia|constructor]].
    split; [lia|]. by constructor.
Qed.

Lemma octet_dot_spec (text o r : str) :
  octet_dot text = Some (o, r) ->
  exists d, o = d ++ [46] /\ octet d /\ text = o ++ r.
Proof.
  unfold octet_dot. destruct (count_digits_take text) as [Hlen Hall].
  set (k := count_digits text) in *.
  destruct ((1 <=? k)%nat && (k <=? 3)%nat) eqn:Hk; [|done].
  apply andb_true_iff in Hk as [Hk1%Nat.leb_le Hk3%Nat.leb_le].
  destruct (drop k text) as [|c rest] eqn:Hdrop; [done|].
  intros Hsome.
  assert (Hc : c = 46).
  { destruct c as [|p|p]; try done.
    do 6 (destruct p as [p|p|]; try done). }
  subst c. injection Hsome as <- <-.
  assert (Htext : text = take k text ++ 46 :: rest)
    by (by rewrite <- Hdrop, take_drop).
  assert (Hat : text !! k = Some 46).
  { rewrite <- (take_drop k text), lookup_app_r by (rewrite length_take; lia).
    rewrite length_take, Hdrop.
    by replace (k - k `min` length text)%nat with 0%nat by lia. }
  exists (take k text). split; [by apply take_S_r|]. split.
  - split; [|exact Hall]. rewrite length_take. lia.
  - rewrite (take_S_r _ _ _ Hat), <- app_assoc. exact Htext.
Qed.

Lemma match_ip_spec (prev_word : bool) (text m : str) :
  match_ip U prev_word text = Some m ->
  prev_word = false /\ ip_shaped m /\
  exists post, text = m ++ post /\
    match post with c :: _ => is_word U c = false | [] => True end.
Proof.
  unfold match_ip. destruct prev_word; [done|].
  destruct (octet_dot text) as [[o1 r1]|] eqn:H1; cbn [mbind option_bind]; [|done].
  destruct (octet_dot r1) as [[o2 r2]|] eqn:H2; cbn [mbind option_bind]; [|done].
  destruct (octet_dot r2) as [[o3 r3]|] eqn:H3; cbn [mbind option_bind]; [|done].
  destruct (count_digits_take r3) as [Hlen Hall].
  set (k := count_digits r3) in *.
  destruct ((1 <=? k)%nat && (k <=? 3)%nat) eqn:Hk; [|done].
  apply andb_true_iff in Hk as [Hk1%Nat.leb_le Hk3%Nat.leb_le].
  cbn [andb].
  destruct (match drop k r3 with [] => true | c :: _ => negb (is_word U c) end)
    eqn:Hb; [|done].
  intros [= <-]. split; [done|].
  apply octet_dot_spec in H1 as (a & -> & Ha & ->).
  apply octet_dot_spec in H2 as (b & -> & Hb' & ->).
  apply octet_dot_spec in H3 as (c & -> & Hc & ->).
  split.
  - exists a, b, c, (take k r3). split; [by rewrite <- !app_assoc|].
    split; [done|]. split; [done|]. split; [done|].
    split; [|exact Hall]. rewrite length_take. lia.
  - exists (drop k r3). split.
    + rewrite <- !app_assoc. by rewrite take_drop.
    + destruct (drop k r3); [done|]. by apply negb_true_iff in Hb.
Qed.

Lemma findall_ip_scan_spec (text : str) :
  forall prev_word skip m,
    m ∈ findall_ip_scan U prev_word skip text ->
    ip_shaped m /\
    exists pre post, text = pre ++ m ++ post /\
      match last pre with Some c => is_word U c = false | None => prev_word = false end /\
      match post with c :: _ => is_word U c = false | [] => True end.
Proof.
  induction text as [|c rest IH]; intros prev_word skip m; cbn [findall_ip_scan].
  - by intros ?%elem_of_nil.
  - assert (Hlater : forall k, m ∈ findall_ip_scan U (is_word U c) k rest ->
      ip_shaped m /\
      exists pre post, c :: rest = pre ++ m ++ post /\
        match last pre with Some c => is_word U c = false | None => prev_word = false end /\
        match post with c :: _ => is_word U c = false | [] => True end).
    { intros k Hm. destruct (IH _ _ _ Hm) as (Hshape & pre & post & -> & Hpre & Hpost).
      split; [exact Hshape|]. exists (c :: pre), post. split; [done|].
      split; [|exact Hpost]. destruct pre as [|x pre]; [exact Hpre|].
      rewrite last_cons. by destruct (last (x :: pre)). }
    destruct skip as [|skip]; [|apply Hlater].
    destruct (match_ip U prev_word (c :: rest)) as [m0|] eqn:Hmatch; [|apply Hlater].
    intros [->|Hm]%elem_of_cons; [|by apply (Hlater _ Hm)].
    apply match_ip_spec in Hmatch as (Hprev & Hshape & post & Htext & Hpost).
    split; [exact Hshape|]. by exists [], post.
Qed.

Lemma ip_shaped_length (m : str) : ip_shaped m -> (7 <= length m <= 15)%nat.
Proof.
  intros (a & b & c & d & -> & [Ha _] & [Hb _] & [Hc _] & [Hd _]).
  rewrite !length_app. cbn [length]. lia.
Qed.

(** Every address [extract_ip_addresses] returns stands in the text, has
    the shape of four groups of one to three digits separated by dots (so
    7 to 15 characters), and has no word character directly before or
    after it. *)
Theorem extract_ip_addresses_sound (text m : str) :
  m ∈ InputProcessorPort.extract_ip_addresses U text ->
  ip_shaped m /\ (7 <= length m <= 15)%nat /\
  exists pre post, text = pre ++ m ++ post /\
    match last pre with Some c => is_word U c = false | None => True end /\
    match post with c :: _ => is_word U c = false | [] => True end.
Proof.
  unfold InputProcessorPort.extract_ip_addresses, findall_ip.
  intros Hm%elem_of_list_to_set.
  apply findall_ip_scan_spec in Hm as (Hshape & pre & post & -> & Hpre & Hpost).
  split; [exact Hshape|]. split; [by apply ip_shaped_length|].
  exists pre, post. split; [done|]. split; [|exact Hpost].
  by destruct (last pre).
Qed.

End IpAddresses.

(** The address in "ping 192.168.1.1 timeout". *)
Lemma extract_ip_addresses_sound_witness :
  ip_shaped (codes "192.168.1.1") /\ (7 <= length (codes "192.168.1.1") <= 15)%nat /\
  exists pre post, codes "ping 192.168.1.1 timeout" = pre ++ codes "192.168.1.1" ++ post /\
    match last pre with Some c => Chars.is_word Chars.corpus_db c = false | None => True end /\
    match post with c :: _ => Chars.is_word Chars.corpus_db c = false | [] => True end.
Proof.
  apply (extract_ip_addresses_sound Chars.corpus_db (codes "ping 192.168.1.1 timeout")).
  apply elem_of_list_to_set.
  replace (Py.findall_ip Chars.corpus_db (codes "ping 192.168.1.1 timeout"))
    with [codes "192.168.1.1"] by (vm_compute; reflexivity).
  by left.
Defined.

(** ** Extracting the special patterns *)

Section SpecialExtraction.
Import Chars Py.
Variable U : unicode_db.

Lemma special_at_prefix (text m : str) :
  special_at U text = Some m ->
  special_at U m = Some m /\ exists rest, text = m ++ rest.
Proof.
  intros Hm. pose proof Hm as Hshape.
  apply special_at_shape in Hshape as (a & x & b & rest & -> & -> & Ha & Hw & Hs & Hb).
  split; [|by exists rest]. apply special_at_shape. by exists a, x, b, [].
Qed.

Lemma findall_special_scan_sound (text : str) :
  forall skip m,
    m ∈ findall_special_scan U skip text ->
    special_at U m = Some m /\ exists pre post, text = pre ++ m ++ post.
Proof.
  induction text as [|c rest IH]; intros skip m; cbn [findall_special_scan].
  - by intros ?%elem_of_nil.
  - assert (Hlater : forall k, m ∈ findall_special_scan U k rest ->
      special_at U m = Some m /\ exists pre post, c :: rest = pre ++ m ++ post).
    { intros k Hm. destruct (IH _ _ Hm) as (Hshape & pre & post & ->).
      split; [exact Hshape|]. by exists (c :: pre), post. }
    destruct skip as [|skip]; [|apply Hlater].
    destruct (special_at U (c :: rest)) as [m0|] eqn:Hhead; [|apply Hlater].
    intros [->|Hm]%elem_of_cons; [|by apply (Hlater _ Hm)].
    apply special_at_prefix in Hhead as (Hshape & post & Htext).
    split; [exact Hshape|]. by exists [], post.
Qed.

Lemma replace_scan_sublist (old text : str) :
  forall skip, replace_scan old [] skip text `sublist_of` text.
Proof.
  induction text as [|c rest IH]; intros skip; cbn [replace_scan]; [constructor|].
  destruct skip as [|skip]; [|by apply sublist_cons].
  destruct (startswith old (c :: rest)).
  - cbn [app]. by apply sublist_cons.
  - by apply sublist_skip.
Qed.

Lemma replace_sublist (old text : str) : replace old [] text `sublist_of` text.
Proof.
  unfold replace. destruct old as [|o old]; [|apply replace_scan_sublist].
  cbn [app]. induction text as [|c rest IH]; [constructor|].
  cbn. by apply sublist_skip.
Qed.

Lemma remove_patterns_sublist (patterns : list str) :
  forall text,
    foldl (fun text pattern => replace pattern [] text) text patterns `sublist_of` text.
Proof.
  induction patterns as [|p patterns IH]; intros text; cbn [foldl]; [done|].
  etrans; [apply IH|apply replace_sublist].
Qed.

Lemma replace_scan_length (old text : str) :
  forall skip,
    (length (replace_scan old [] skip text) + Nat.min skip (length text)
     <= length text)%nat.
Proof.
  induction text as [|c rest IH]; intros skip; cbn [replace_scan length]; [lia|].
  destruct skip as [|skip].
  - destruct (startswith old (c :: rest)); cbn [app length].
    + specialize (IH (length old - 1)%nat). lia.
    + specialize (IH 0%nat). lia.
  - specialize (IH skip). lia.
Qed.

Lemma startswith_length (old text : str) :
  startswith old text = true -> (length old <= length text)%nat.
Proof.
  revert text. induction old as [|o old IH]; intros text; [cbn; lia|].
  destruct text as [|c text]; [done|]. cbn [startswith length].
  intros [_ H]%andb_true_iff. specialize (IH _ H). lia.
Qed.

Lemma startswith_app (old post : str) : startswith old (old ++ post) = true.
Proof.
  induction old as [|o old IH]; [reflexivity|].
  cbn [app startswith]. by rewrite Z.eqb_refl, IH.
Qed.

(** An occurrence of [old] in the text costs the result of [replace] at
    least the length of [old]. *)
Lemma replace_scan_removes (old pre post : str) :
  old <> [] ->
  (length (replace_scan old [] 0 (pre ++ old ++ post)) + length old
   <= length (pre ++ old ++ post))%nat.
Proof.
  intros Hold.
  assert (Hhit : forall text,
    startswith old text = true ->
    (length (replace_scan old [] 0 text) + length old <= length text)%nat).
  { intros [|c rest] Hstart.
    - apply startswith_length in Hstart. destruct old; [done|]. cbn in Hstart. lia.
    - cbn [replace_scan]. rewrite Hstart. cbn [app length].
      pose proof (replace_scan_length old rest (length old - 1)) as Hlen.
      apply startswith_length in Hstart. cbn [length] in Hstart. lia. }
  induction pre as [|c pre IH].
  - cbn [app]. apply Hhit, startswith_app.
  - cbn [app]. destruct (startswith old (c :: pre ++ old ++ post)) eqn:Hstart.
    + by apply Hhit.
    + cbn [replace_scan]. rewrite Hstart. cbn [length]. lia.
Qed.

(** Extracting the special patterns.  Every pattern found stands in the
    text and has the special-token shape; the text that goes on to be
    normalized is the text with characters deleted and nothing else
    changed; it is the text itself when no pattern is found, and at least
    three characters shorter when one is. *)
Theorem special_pattern_extraction (text : str) :
  (forall p, p ∈ findall_special U text ->
     special_at U p = Some p /\ exists pre post, text = pre ++ p ++ post) /\
  InputProcessorPort.extract_special_patterns U text `sublist_of` text /\
  (findall_special U text = [] ->
   InputProcessorPort.extract_special_patterns U text = text) /\
  (findall_special U text <> [] ->
   (length (InputProcessorPort.extract_special_patterns U text) + 3
    <= length text)%nat).
Proof.
  unfold InputProcessorPort.extract_special_patterns.
  split; [intros p; apply findall_special_scan_sound|].
  split; [apply remove_patterns_sublist|].
  split; [by intros ->|].
  destruct (findall_special U text) as [|p patterns] eqn:Hfind; [done|]. intros _.
  assert (Hp : p ∈ findall_special U text) by (rewrite Hfind; by left).
  apply findall_special_scan_sound in Hp as (Hshape & pre & post & Htext).
  apply special_at_shape in Hshape as (a & x & b & rest & _ & -> & _).
  cbn [foldl].
  pose proof (sublist_length _ _
                (remove_patterns_sublist patterns (replace [a; x; b] [] text)))
    as Hrest.
  pose proof (replace_scan_removes [a; x; b] pre post ltac:(done)) as Hfirst.
  rewrite <- Htext in Hfirst. cbn [length] in Hfirst.
  change (replace_scan [a; x; b] [] 0 text) with (replace [a; x; b] [] text) in Hfirst.
  lia.
Qed.

End SpecialExtraction.

(** ** Normalizing twice *)

Section Idempotence.
Import Chars Py.
Variable U : unicode_db.

Lemma fold_char_idempotent (c : Z) :
  ChineseTextPreprocessor.fold_char (ChineseTextPreprocessor.fold_char c)
  = ChineseTextPreprocessor.fold_char c.
Proof.
  unfold ChineseTextPreprocessor.fold_char.
  destruct (Z.leb_spec 65281 c), (Z.leb_spec c 65374); cbn [andb];
    try destruct (Z.eqb_spec c 12288); cbn [andb];
    repeat match goal with
           | |- context [?a <=? ?b] => destruct (Z.leb_spec a b); cbn [andb]
           | |- context [?a =? ?b] => destruct (Z.eqb_spec a b)
           end; lia.
Qed.

Lemma map_fixed (f : Z -> Z) (l : str) :
  (forall c, c ∈ l -> f c = c) -> map f l = l.
Proof.
  induction l as [|c l IH]; intros Hf; [reflexivity|].
  cbn [map]. rewrite (Hf c) by by left.
  rewrite IH; [reflexivity|]. intros d Hd. apply Hf. by right.
Qed.

Lemma remove_special_characters_chars (text : str) (c : Z) :
  c ∈ ChineseTextPreprocessor.remove_special_characters U text ->
  c = 32 \/
  (c ∈ text /\ is_word U c = true /\ is_digit U c = false /\ is_space U c = false).
Proof.
  unfold ChineseTextPreprocessor.remove_special_characters, sub_spaces, sub_digits.
  intros Hc%strip_chars.
  apply sub_runs_chars in Hc as [->%list_elem_of_singleton|[Hc Hs]]; [by left|].
  apply sub_runs_chars in Hc as [->%list_elem_of_singleton|[Hc Hd]]; [by left|].
  unfold sub_nonword in Hc. change (map ?f text) with (f <$> text) in Hc.
  apply list_elem_of_fmap in Hc as (x & Hcx & Hx).
  destruct (is_word U x || is_space U x) eqn:Hclass; subst c; [|by left].
  right. rewrite Hs, orb_false_r in Hclass. done.
Qed.

Lemma single_spaced_app_l (l k : str) :
  forall prev, single_spaced U prev (l ++ k) = true -> single_spaced U prev l = true.
Proof.
  induction l as [|c l IH]; intros prev; [done|].
  cbn [app single_spaced]. destruct (is_space U c).
  - intros [-> H]%andb_true_iff. by rewrite (IH _ H).
  - apply IH.
Qed.

Lemma single_spaced_app_r (l k : str) :
  forall prev, single_spaced U prev (l ++ k) = true -> single_spaced U false k = true.
Proof.
  induction l as [|c l IH]; intros prev.
  - cbn [app]. destruct k as [|d k]; [done|]. cbn [single_spaced].
    destruct (is_space U d); [|done]. by intros [_ ->]%andb_true_iff.
  - cbn [app single_spaced]. destruct (is_space U c).
    + intros [_ H]%andb_true_iff. by apply (IH true).
    + apply IH.
Qed.

(** [strip] takes a middle part of the text. *)
Lemma strip_middle (text : str) :
  exists pre post, text = pre ++ strip U text ++ post.
Proof.
  destruct (lstrip_suffix U text) as [pre Hpre].
  destruct (lstrip_suffix U (rev (lstrip U text))) as [post Hpost].
  exists pre, (rev post). rewrite Hpre at 1. f_equal. unfold strip, rstrip.
  rewrite <- (rev_involutive (lstrip U text)) at 1.
  rewrite Hpost at 1. by rewrite rev_app_distr.
Qed.

Lemma strip_edges (text : str) :
  lstrip U (strip U text) = strip U text /\
  lstrip U (rev (strip U text)) = rev (strip U text).
Proof.
  unfold strip, rstrip. split.
  - destruct (rev (lstrip U (rev (lstrip U text)))) as [|c rest] eqn:Hout;
      [reflexivity|].
    destruct (lstrip_suffix U (rev (lstrip U text))) as [post Hpost].
    assert (Hrev : rev (lstrip U text) = post ++ rev rest ++ [c]).
    { rewrite Hpost at 1. f_equal.
      rewrite <- (rev_involutive (lstrip U (rev (lstrip U text)))), Hout.
      reflexivity. }
    apply (f_equal (@rev Z)) in Hrev.
    rewrite rev_involutive, !rev_app_distr in Hrev. cbn in Hrev.
    apply lstrip_head in Hrev. cbn [lstrip]. by rewrite Hrev.
  - rewrite rev_involutive.
    destruct (lstrip U (rev (lstrip U text))) as [|c rest] eqn:Hout; [reflexivity|].
    apply lstrip_head in Hout. cbn [lstrip]. by rewrite Hout.
Qed.

Lemma strip_fixed (text : str) :
  lstrip U text = text -> lstrip U (rev text) = rev text -> strip U text = text.
Proof.
  intros Hl Hr. unfold strip, rstrip. rewrite Hl, Hr. apply rev_involutive.
Qed.

Lemma sub_spaces_fixed (text : str) :
  forall prev,
    single_spaced U prev text = true ->
    (forall c, c ∈ text -> is_space U c = true -> c = 32) ->
    sub_runs (is_space U) [32] prev text = text.
Proof.
  induction text as [|c rest IH]; intros prev Hs H32; [reflexivity|].
  cbn [single_spaced] in Hs. cbn [sub_runs].
  assert (Hrest : forall d, d ∈ rest -> is_space U d = true -> d = 32)
    by (intros d Hd; apply H32; by right).
  destruct (is_space U c) eqn:Hc.
  - apply andb_true_iff in Hs as [->%negb_true_iff Hs].
    rewrite (IH true Hs Hrest). cbn [app]. f_equal.
    symmetry. apply H32; [by left|done].
  - by rewrite (IH false Hs Hrest).
Qed.

(** Normalizing is idempotent: folding a folded text changes nothing, and
    so does normalizing and cleaning a text that already went through
    [normalize_text] and [remove_special_characters]. *)
Theorem normalization_idempotent (text : str) :
  ChineseTextPreprocessor.normalize_text (ChineseTextPreprocessor.normalize_text text)
    = ChineseTextPreprocessor.normalize_text text /\
  ChineseTextPreprocessor.remove_special_characters U
    (ChineseTextPreprocessor.normalize_text
       (ChineseTextPreprocessor.remove_special_characters U
          (ChineseTextPreprocessor.normalize_text text)))
  = ChineseTextPreprocessor.remove_special_characters U
      (ChineseTextPreprocessor.normalize_text text).
Proof.
  split.
  - unfold ChineseTextPreprocessor.normalize_text, ChineseTextPreprocessor.full_to_half.
    rewrite map_map. apply map_ext. apply fold_char_idempotent.
  - set (folded := ChineseTextPreprocessor.normalize_text text).
    set (out := ChineseTextPreprocessor.remove_special_characters U folded).
    assert (Hchars : forall c, c ∈ out ->
              c = 32 \/ (c ∈ folded /\ is_word U c = true /\
                         is_digit U c = false /\ is_space U c = false))
      by apply remove_special_characters_chars.
    assert (Hfold : ChineseTextPreprocessor.normalize_text out = out).
    { apply map_fixed. intros c [->|(Hc & _)]%Hchars; [reflexivity|].
      unfold folded, ChineseTextPreprocessor.normalize_text,
        ChineseTextPreprocessor.full_to_half in Hc.
      change (map ?f text) with (f <$> text) in Hc.
      apply list_elem_of_fmap in Hc as (y & -> & _). apply fold_char_idempotent. }
    rewrite Hfold.
    assert (Hspaced : single_spaced U false out = true).
    { unfold out, ChineseTextPreprocessor.remove_special_characters.
      destruct (strip_middle (sub_spaces U (sub_digits U [32] (sub_nonword U folded))))
        as (pre & post & Hmid).
      pose proof (sub_spaces_single_spaced U
                    (sub_digits U [32] (sub_nonword U folded)) false) as Hs.
      fold (sub_spaces U (sub_digits U [32] (sub_nonword U folded))) in Hs.
      rewrite Hmid in Hs. apply single_spaced_app_r in Hs.
      by apply single_spaced_app_l in Hs. }
    unfold ChineseTextPreprocessor.remove_special_characters at 1.
    assert (Hnonword : sub_nonword U out = out).
    { apply map_fixed. intros c [->|(_ & Hw & _)]%Hchars; [reflexivity|].
      by rewrite Hw. }
    rewrite Hnonword.
    unfold sub_digits. rewrite (sub_runs_none (is_digit U) [32] out).
    2:{ apply Forall_forall. intros c [->|(_ & _ & Hd & _)]%Hchars; [reflexivity|done]. }
    unfold sub_spaces. rewrite (sub_spaces_fixed out false Hspaced).
    2:{ intros c [->|(_ & _ & _ & Hs)]%Hchars; [done|]. by rewrite Hs. }
    apply strip_fixed; apply (strip_edges _).
Qed.

End Idempotence.

(** ** A trailing character that is no word character *)

Section TrailingMark.
Import Chars Py.
Variable U : unicode_db.
Variable cut : str -> list str.

Lemma special_at_snoc (text : str) (p : Z) :
  ascii_alpha p = false -> special_at U (text ++ [p]) = special_at U text.
Proof.
  intros Hp. destruct text as [|a [|x [|b rest]]]; try reflexivity.
  cbn. by rewrite Hp, andb_false_r.
Qed.

Lemma findall_special_scan_snoc (text : str) (p : Z) :
  ascii_alpha p = false ->
  forall skip,
    findall_special_scan U skip (text ++ [p]) = findall_special_scan U skip text.
Proof.
  intros Hp. induction text as [|c rest IH]; intros skip.
  - cbn. by destruct skip.
  - change ((c :: rest) ++ [p]) with (c :: (rest ++ [p])).
    cbn [findall_special_scan]. destruct skip as [|skip]; [|apply IH].
    change (c :: (rest ++ [p])) with ((c :: rest) ++ [p]).
    rewrite (special_at_snoc _ _ Hp).
    destruct (special_at U (c :: rest)); by rewrite IH.
Qed.

Lemma startswith_snoc (a x b p : Z) (text : str) :
  b <> p -> startswith [a; x; b] (text ++ [p]) = startswith [a; x; b] text.
Proof.
  intros Hb%Z.eqb_neq. destruct text as [|c [|d [|e rest]]]; cbn;
    rewrite ?Hb, ?andb_false_r; reflexivity.
Qed.

Lemma replace_scan_snoc (a x b p : Z) (text : str) :
  b <> p ->
  forall skip, (skip <= length text)%nat ->
    replace_scan [a; x; b] [] skip (text ++ [p])
    = replace_scan [a; x; b] [] skip text ++ [p].
Proof.
  intros Hb. induction text as [|c rest IH]; intros skip Hskip.
  - cbn in Hskip. assert (skip = 0%nat) as -> by lia.
    cbn. by rewrite andb_false_r.
  - change ((c :: rest) ++ [p]) with (c :: (rest ++ [p])).
    cbn [replace_scan]. destruct skip as [|skip].
    + change (c :: (rest ++ [p])) with ((c :: rest) ++ [p]).
      rewrite (startswith_snoc a x b p (c :: rest) Hb).
      destruct (startswith [a; x; b] (c :: rest)) eqn:Hstart.
      * apply startswith_length in Hstart. cbn [length] in Hstart.
        cbn [app length Nat.sub]. apply IH. lia.
      * cbn [app]. f_equal. apply IH. lia.
    + apply IH. cbn [length] in Hskip. lia.
Qed.

Lemma remove_patterns_snoc (patterns : list str) (p : Z) :
  ascii_alpha p = false ->
  Forall (fun m => special_at U m = Some m) patterns ->
  forall text,
    foldl (fun text pattern => replace pattern [] text) (text ++ [p]) patterns
    = foldl (fun text pattern => replace pattern [] text) text patterns ++ [p].
Proof.
  intros Hp. induction 1 as [|m patterns Hm _ IH]; intros text; [reflexivity|].
  cbn [foldl].
  apply special_at_shape in Hm as (a & x & b & rest & _ & -> & _ & _ & _ & Hb).
  unfold replace. rewrite (replace_scan_snoc a x b p text); [apply IH| |lia].
  intros ->. by rewrite Hb in Hp.
Qed.

Lemma extract_special_patterns_snoc (text : str) (p : Z) :
  ascii_alpha p = false ->
  findall_special U (text ++ [p]) = findall_special U text /\
  InputProcessorPort.extract_special_patterns U (text ++ [p])
  = InputProcessorPort.extract_special_patterns U text ++ [p].
Proof.
  intros Hp. unfold InputProcessorPort.extract_special_patterns, findall_special.
  rewrite (findall_special_scan_snoc text p Hp). split; [reflexivity|].
  apply remove_patterns_snoc; [exact Hp|].
  apply Forall_forall. intros m Hm. by apply findall_special_scan_sound in Hm as [? _].
Qed.

(** What [re.sub] leaves of a last character. *)
Lemma sub_runs_snoc (f : Z -> bool) (rep text : str) (q : Z) :
  forall in_run, exists w,
    sub_runs f rep in_run (text ++ [q]) = sub_runs f rep in_run text ++ w /\
    (w = [q] \/ (f q = true /\ (w = [] \/ w = rep))).
Proof.
  induction text as [|c rest IH]; intros in_run.
  - cbn [app sub_runs]. destruct (f q) eqn:Hq.
    + exists (if in_run then [] else rep). rewrite app_nil_r. split; [reflexivity|].
      right. split; [reflexivity|]. destruct in_run; [by left|by right].
    + exists [q]. split; [reflexivity|by left].
  - change ((c :: rest) ++ [q]) with (c :: (rest ++ [q])). cbn [sub_runs].
    destruct (f c).
    + destruct (IH true) as (w & -> & Hw). exists w. by rewrite app_assoc.
    + destruct (IH false) as (w & -> & Hw). by exists w.
Qed.

Lemma lstrip_spaces (text : str) :
  Forall (fun c => is_space U c = true) text -> lstrip U text = [].
Proof. induction 1 as [|c text Hc _ IH]; [reflexivity|]. cbn [lstrip]. by rewrite Hc. Qed.

Lemma lstrip_snoc (text : str) (c : Z) :
  is_space U c = true ->
  lstrip U (text ++ [c]) = [] /\ lstrip U text = [] \/
  lstrip U (text ++ [c]) = lstrip U text ++ [c].
Proof.
  intros Hc. induction text as [|d text IH].
  - left. cbn. by rewrite Hc.
  - cbn [app lstrip]. destruct (is_space U d); [exact IH|by right].
Qed.

Lemma strip_snoc (text : str) (c : Z) :
  is_space U c = true -> strip U (text ++ [c]) = strip U text.
Proof.
  intros Hc. unfold strip, rstrip.
  destruct (lstrip_snoc text c Hc) as [[-> ->]| ->]; [reflexivity|].
  rewrite rev_app_distr. cbn [rev app lstrip]. by rewrite Hc.
Qed.

(** Cleaning a text that ends with a character which is no word character. *)
Lemma remove_special_characters_snoc (text : str) (q : Z) :
  is_word U q = false ->
  ChineseTextPreprocessor.remove_special_characters U (text ++ [q])
  = ChineseTextPreprocessor.remove_special_characters U text.
Proof.
  intros Hq. unfold ChineseTextPreprocessor.remove_special_characters.
  unfold sub_nonword at 1. rewrite map_app. cbn [map]. fold (sub_nonword U text).
  rewrite Hq, orb_false_l.
  set (q' := if is_space U q then q else 32).
  assert (Hq' : is_space U q' = true).
  { unfold q'. by destruct (is_space U q) eqn:Hs. }
  unfold sub_digits, sub_spaces.
  destruct (sub_runs_snoc (is_digit U) [32] (sub_nonword U text) q' false)
    as (w & -> & Hw).
  assert (Hspaces : w = [] \/ exists c, w = [c] /\ is_space U c = true).
  { destruct Hw as [->|[_ [->| ->]]]; [right; by exists q'|by left|right; by exists 32]. }
  destruct Hspaces as [->|(c & -> & Hc)]; [by rewrite app_nil_r|].
  destruct (sub_runs_snoc (is_space U) [32]
              (sub_runs (is_digit U) [32] false (sub_nonword U text)) c false)
    as (w' & -> & Hw').
  destruct Hw' as [->|[_ [->| ->]]].
  - by apply strip_snoc.
  - by rewrite app_nil_r.
  - by apply strip_snoc.
Qed.

(** A last character that is no word character once folded -- a
    punctuation mark, full-width or not, or a space -- plays no part in
    the words returned: the text with and without it are preprocessed to
    the same words, by the batch preprocessor and by the service. *)
Theorem trailing_mark_same_tokens (self : ChineseTextPreprocessor.self_t)
    (service : InputProcessorPort.self_t) (text : str) (p : Z) :
  is_word U (ChineseTextPreprocessor.fold_char p) = false ->
  (exists words self1 self2,
     ChineseTextPreprocessor.preprocess U cut self text = Ok (words, self1) /\
     ChineseTextPreprocessor.preprocess U cut self (text ++ [p]) = Ok (words, self2)) /\
  InputProcessorPort.preprocess U cut service (text ++ [p])
  = InputProcessorPort.preprocess U cut service text.
Proof.
  intros Hword.
  assert (Hp : ascii_alpha p = false).
  { destruct (ascii_alpha p) eqn:Ha; [|reflexivity].
    assert (Hrange : 65 <= p <= 122) by (unfold ascii_alpha in Ha; lia).
    unfold ChineseTextPreprocessor.fold_char in Hword.
    replace ((65281 <=? p) && (p <=? 65374)) with false in Hword by lia.
    replace (p =? 12288) with false in Hword by lia.
    unfold is_word in Hword. replace (p <? 128) with true in Hword by lia.
    by rewrite Ha in Hword. }
  destruct (extract_special_patterns_snoc text p Hp) as [Hfind Hextract].
  assert (Hclean :
    ChineseTextPreprocessor.remove_special_characters U
      (ChineseTextPreprocessor.normalize_text
         (InputProcessorPort.extract_special_patterns U (text ++ [p])))
    = ChineseTextPreprocessor.remove_special_characters U
        (ChineseTextPreprocessor.normalize_text
           (InputProcessorPort.extract_special_patterns U text))).
  { rewrite Hextract.
    unfold ChineseTextPreprocessor.normalize_text, ChineseTextPreprocessor.full_to_half.
    rewrite map_app. cbn [map]. by apply remove_special_characters_snoc. }
  split.
  - eexists _, _, _. rewrite !batch_preprocess_run. split; [reflexivity|].
    unfold batch_words. by rewrite Hfind, Hclean.
  - unfold InputProcessorPort.preprocess, InputProcessorPort.remove_stop_words.
    change (InputProcessorPort.remove_special_characters U
              (InputProcessorPort.normalize_text
                 (InputProcessorPort.extract_special_patterns U (text ++ [p]))))
      with (ChineseTextPreprocessor.remove_special_characters U
              (ChineseTextPreprocessor.normalize_text
                 (InputProcessorPort.extract_special_patterns U (text ++ [p])))).
    by rewrite Hclean.
Qed.

End TrailingMark.

(** The question [server_question] and the same question followed by the
    full-width exclamation mark U+FF01. *)
Lemma trailing_mark_same_tokens_witness :
  (exists words self1 self2,
     ChineseTextPreprocessor.preprocess Chars.corpus_db Segmenter.cut_runs
       no_stop_words server_question = Ok (words, self1) /\
     ChineseTextPreprocessor.preprocess Chars.corpus_db Segmenter.cut_runs
       no_stop_words (server_question ++ [0xFF01]) = Ok (words, self2)) /\
  InputProcessorPort.preprocess Chars.corpus_db Segmenter.cut_runs
    (InputProcessorPort.init Chars.corpus_db ∅ default_stop_words_file)
    (server_question ++ [0xFF01])
  = InputProcessorPort.preprocess Chars.corpus_db Segmenter.cut_runs
      (InputProcessorPort.init Chars.corpus_db ∅ default_stop_words_file)
      server_question.
Proof.
  apply (trailing_mark_same_tokens Chars.corpus_db Segmenter.cut_runs no_stop_words
           (InputProcessorPort.init Chars.corpus_db ∅ default_stop_words_file)
           server_question 0xFF01).
  reflexivity.
Defined.

(** ** A text without word characters *)

Section NoWordCharacters.
Import Chars Py.
Variable U : unicode_db.
Variable cut : str -> list str.

Lemma fold_char_not_word_not_alpha (c : Z) :
  is_word U (ChineseTextPreprocessor.fold_char c) = false -> ascii_alpha c = false.
Proof.
  intros Hword. destruct (ascii_alpha c) eqn:Ha; [|reflexivity].
  assert (Hrange : 65 <= c <= 122) by (unfold ascii_alpha in Ha; lia).
  unfold ChineseTextPreprocessor.fold_char in Hword.
  replace ((65281 <=? c) && (c <=? 65374)) with false in Hword by lia.
  replace (c =? 12288) with false in Hword by lia.
  unfold is_word in Hword. replace (c <? 128) with true in Hword by lia.
  by rewrite Ha in Hword.
Qed.

Lemma findall_special_no_alpha (text : str) :
  Forall (fun c => ascii_alpha c = false) text ->
  forall skip, findall_special_scan U skip text = [].
Proof.
  induction 1 as [|c text Hc _ IH]; intros skip; [reflexivity|].
  cbn [findall_special_scan]. destruct skip as [|skip]; [|apply IH].
  replace (special_at U (c :: text)) with (@None str); [apply IH|].
  destruct text as [|x [|b text]]; try reflexivity.
  unfold special_at. by rewrite Hc.
Qed.

Lemma remove_special_characters_no_word (text : str) :
  Forall (fun c => is_word U c = false) text ->
  ChineseTextPreprocessor.remove_special_characters U text = [].
Proof.
  intros Htext. unfold ChineseTextPreprocessor.remove_special_characters.
  set (spaced := sub_spaces U (sub_digits U [32] (sub_nonword U text))).
  assert (Hspaces : Forall (fun c => is_space U c = true) spaced).
  { apply Forall_forall. intros c Hc. unfold spaced, sub_spaces, sub_digits in Hc.
    apply sub_runs_chars in Hc as [->%list_elem_of_singleton|[Hc Hs]]; [reflexivity|].
    apply sub_runs_chars in Hc as [->%list_elem_of_singleton|[Hc _]]; [reflexivity|].
    unfold sub_nonword in Hc. change (map ?f text) with (f <$> text) in Hc.
    apply list_elem_of_fmap in Hc as (x & -> & Hx).
    rewrite Forall_forall in Htext. rewrite (Htext x Hx), orb_false_l in Hs |- *.
    by destruct (is_space U x) eqn:Hx'. }
  unfold strip, rstrip. by rewrite (lstrip_spaces U spaced Hspaces).
Qed.

Lemma concat_nil_tokens (tokens : list str) (w : str) :
  concat tokens = [] -> w ∈ tokens -> w = [].
Proof.
  induction tokens as [|t tokens IH]; [by intros _ ?%elem_of_nil|].
  cbn [concat]. intros [-> Hrest]%app_eq_nil [->|Hw]%elem_of_cons; [reflexivity|].
  by apply IH.
Qed.

(** A text in which no character is a word character once folded -- only
    punctuation and whitespace -- is not rejected: the route answers 200
    and the only token is the sentinel. *)
Theorem text_without_words_yields_sentinel (fs : gmap string str) (text : str) :
  (forall t, concat (cut t) = t) ->
  text <> [] ->
  Forall (fun c => is_word U (ChineseTextPreprocessor.fold_char c) = false) text ->
  InputProcessorPort.process_text U cut fs (Some text)
  = (InputProcessorPort.Processed {[ codes "%ip" ]}, 200).
Proof.
  intros Hcover Hne Htext. unfold InputProcessorPort.process_text.
  destruct text as [|c0 text0] eqn:Heq; [done|]. rewrite <- Heq in *. clear Hne.
  f_equal. f_equal.
  assert (Hnone : InputProcessorPort.preprocess U cut
                    (InputProcessorPort.init U fs "../dat/stop_words/stop_words_full.txt")
                    text = ∅).
  { apply set_eq. intros w. rewrite service_preprocess_words. split; [|set_solver].
    intros (Hw & _ & Hstrip). destruct Hstrip.
    unfold InputProcessorPort.extract_special_patterns, findall_special in Hw.
    rewrite findall_special_no_alpha in Hw.
    2:{ eapply Forall_impl; [exact Htext|]. apply fold_char_not_word_not_alpha. }
    cbn [foldl] in Hw.
    change (InputProcessorPort.remove_special_characters U
              (InputProcessorPort.normalize_text text))
      with (ChineseTextPreprocessor.remove_special_characters U
              (map ChineseTextPreprocessor.fold_char text)) in Hw.
    rewrite remove_special_characters_no_word in Hw by by apply Forall_map.
    by rewrite (concat_nil_tokens (cut []) w (Hcover [])). }
  rewrite Hnone. set_solver.
Qed.

End NoWordCharacters.

(** The text "?! ...". *)
Lemma text_without_words_yields_sentinel_witness :
  InputProcessorPort.process_text Chars.corpus_db Segmenter.cut_runs ∅
    (Some (codes "?! ..."))
  = (InputProcessorPort.Processed {[ codes "%ip" ]}, 200).
Proof.
  apply (text_without_words_yields_sentinel Chars.corpus_db Segmenter.cut_runs ∅
           (codes "?! ...")).
  - exact cut_runs_covers.
  - discriminate.
  - repeat (constructor; [reflexivity|]). constructor.
Defined.

(** ** The similarity service *)

Section SimilarityService.
Import Chars Py Corpus.
Variable U : unicode_db.
Variable cut : str -> list str.
Variable load_data : string -> result (list row).
Variable fit_transform : list str -> result matrix.
Variable cosine_similarity : matrix -> matrix -> result matrix.

(** The fold of [np_max] ends on an entry that no entry exceeds. *)
Lemma foldl_max_greatest (xs : list Q) :
  forall x,
    let best := foldl (fun best y => if gt y best then y else best) x xs in
    best ∈ x :: xs /\ forall y, y ∈ x :: xs -> (y <= best)%Q.
Proof.
  induction xs as [|z xs IH]; intros x; cbn [foldl].
  - split; [by left|]. intros y ->%list_elem_of_singleton. apply Qle_refl.
  - destruct (IH (if gt z x then z else x)) as [Hin Hmax]. cbn zeta in Hin, Hmax.
    assert (Hstep : (x <= (if gt z x then z else x))%Q /\
                    (z <= (if gt z x then z else x))%Q).
    { destruct (gt z x) eqn:Hgt.
      - apply gt_lt in Hgt. split; [by apply Qlt_le_weak|apply Qle_refl].
      - split; [apply Qle_refl|]. apply Qnot_lt_le. intros Hlt%gt_lt.
        by rewrite Hlt in Hgt. }
    split.
    + apply elem_of_cons in Hin as [Hin|Hin]; [|by do 2 right].
      rewrite Hin. destruct (gt z x); [right|]; by left.
    + intros y [->|[->|Hy]%elem_of_cons]%elem_of_cons.
      * apply Qle_trans with (if gt z x then z else x); [apply Hstep|].
        apply Hmax. by left.
      * apply Qle_trans with (if gt z x then z else x); [apply Hstep|].
        apply Hmax. by left.
      * apply Hmax. by right.
Qed.

Lemma np_max_greatest (sims : matrix) :
  match concat sims with
  | [] => exists msg, np_max sims = Raise (ValueError msg)
  | _ :: _ => exists s, np_max sims = Ok s /\ (s ∈ concat sims) /\
                        forall x, x ∈ concat sims -> (x <= s)%Q
  end.
Proof.
  unfold np_max. destruct (concat sims) as [|x xs]; [by eexists|].
  eexists. split; [reflexivity|]. apply foldl_max_greatest.
Qed.

(** What [check_similarity] answers.  An exception of [cosine_similarity]
    is passed on; a similarity matrix without entries raises
    [ValueError]; otherwise the score reported is an entry of the matrix
    that no entry exceeds, and the verdict is "too similar" exactly when
    the score is strictly greater than the threshold. *)
Theorem check_similarity_answer (input_vector dataset_vector : matrix) (threshold : Q) :
  match cosine_similarity input_vector dataset_vector with
  | Raise e =>
      CompareSimilarityPort.check_similarity cosine_similarity
        input_vector dataset_vector threshold = Raise e
  | Ok sims =>
      match concat sims with
      | [] =>
          exists msg,
            CompareSimilarityPort.check_similarity cosine_similarity
              input_vector dataset_vector threshold = Raise (ValueError msg)
      | _ :: _ =>
          exists s,
            (s ∈ concat sims) /\
            (forall x, x ∈ concat sims -> (x <= s)%Q) /\
            ((threshold < s)%Q /\
             CompareSimilarityPort.check_similarity cosine_similarity
               input_vector dataset_vector threshold
             = Ok (CompareSimilarityPort.TooSimilar s)
             \/
             (s <= threshold)%Q /\
             CompareSimilarityPort.check_similarity cosine_similarity
               input_vector dataset_vector threshold
             = Ok (CompareSimilarityPort.DistinctEnough s))
      end
  end.
Proof.
  unfold CompareSimilarityPort.check_similarity.
  destruct (cosine_similarity input_vector dataset_vector) as [sims|e]; [|reflexivity].
  rewrite result_bind_ok. pose proof (np_max_greatest sims) as Hmax.
  destruct (concat sims) as [|x xs].
  - destruct Hmax as [msg ->]. by exists msg.
  - destruct Hmax as (s & -> & Hin & Hle). exists s.
    split; [exact Hin|]. split; [exact Hle|]. rewrite result_bind_ok.
    destruct (gt s threshold) eqn:Hgt.
    + left. by apply gt_lt in Hgt.
    + right. split; [|reflexivity]. apply Qnot_lt_le. intros Hlt%gt_lt.
      by rewrite Hlt in Hgt.
Qed.

(** The split [X[:-1], X[-1]] of a matrix with one row per document. *)
Lemma split_last_row (X : matrix) (n : nat) :
  length X = S n ->
  exists dataset query,
    X = dataset ++ [query] /\ length dataset = n /\
    last X = Some query /\ take (length X - 1) X = dataset.
Proof.
  intros Hlen. destruct (rev X) as [|query rdataset] eqn:Hrev.
  - apply (f_equal (@length (list Q))) in Hrev. rewrite length_rev in Hrev.
    cbn in Hrev. lia.
  - assert (HX : X = rev rdataset ++ [query]).
    { rewrite <- (rev_involutive X), Hrev. reflexivity. }
    exists (rev rdataset), query. split; [exact HX|].
    assert (Hn : length (rev rdataset) = n).
    { rewrite HX, length_app in Hlen. cbn in Hlen. lia. }
    split; [exact Hn|]. rewrite HX. split; [apply last_snoc|].
    rewrite length_app. cbn [length].
    replace (length (rev rdataset) + 1 - 1)%nat with (length (rev rdataset)) by lia.
    by rewrite take_app_length.
Qed.

(** [vectorize_data] fits one vectorizer on the corpus followed by the
    preprocessed query and splits the matrix: the dataset matrix has one
    row per corpus entry, in order, and the input vector is the one row of
    the query.  It raises what the vectorizer raises and nothing else. *)
Theorem vectorize_data_split (data : list row) (input_text : str)
    (preprocessor : CompareSimilarityPort.self_t) :
  one_row_per_document fit_transform ->
  match fit_transform (map Processed_Words_Set data ++
                       [CompareSimilarityPort.preprocess U cut preprocessor input_text]) with
  | Raise e =>
      CompareSimilarityPort.vectorize_data U cut fit_transform data input_text preprocessor
      = Raise e
  | Ok X =>
      exists dataset query,
        CompareSimilarityPort.vectorize_data U cut fit_transform data input_text preprocessor
        = Ok (dataset, [query]) /\
        X = dataset ++ [query] /\ length dataset = length data
  end.
Proof.
  intros Hrows. unfold CompareSimilarityPort.vectorize_data.
  destruct (fit_transform _) as [X|e] eqn:Hfit; [|reflexivity].
  rewrite result_bind_ok. apply Hrows in Hfit.
  rewrite length_app, length_map in Hfit. cbn [length] in Hfit.
  destruct (split_last_row X (length data)) as (dataset & query & HX & Hn & Hlast & Htake);
    [lia|].
  exists dataset, query. rewrite Hlast, result_bind_ok, Htake. done.
Qed.

(** The [/similarity_check] route, step by step.  A missing or empty text
    is answered with 400.  Otherwise an exception of the loader, of the
    vectorizer or of the similarity is answered with 500 and its message,
    and so is a similarity matrix without entries; when every step
    succeeds the answer has status 200 -- for the verdict "too similar" as
    well -- and carries the greatest similarity between the query row and
    the corpus rows of one matrix fitted on the corpus and the query. *)
Theorem similarity_check_answers (fs : gmap string str) (input_text : option str) :
  one_row_per_document fit_transform ->
  let answer :=
    CompareSimilarityPort.similarity_check U cut load_data fit_transform
      cosine_similarity fs input_text in
  match input_text with
  | None | Some [] => exists msg, answer = (CompareSimilarityPort.Error msg, 400)
  | Some text =>
      match load_data CompareSimilarityPort.WORDS_SET_PATH with
      | Raise e => answer = (CompareSimilarityPort.Error (str_exn e), 500)
      | Ok data =>
          match fit_transform
                  (map Processed_Words_Set data ++
                   [CompareSimilarityPort.preprocess U cut
                      (CompareSimilarityPort.init U fs CompareSimilarityPort.STOP_WORDS_PATH)
                      text]) with
          | Raise e => answer = (CompareSimilarityPort.Error (str_exn e), 500)
          | Ok X =>
              exists dataset query,
                X = dataset ++ [query] /\ length dataset = length data /\
                match cosine_similarity [query] dataset with
                | Raise e => answer = (CompareSimilarityPort.Error (str_exn e), 500)
                | Ok sims =>
                    match concat sims with
                    | [] => exists msg, answer = (CompareSimilarityPort.Error msg, 500)
                    | _ :: _ =>
                        exists s,
                          (s ∈ concat sims) /\
                          (forall x, x ∈ concat sims -> (x <= s)%Q) /\
                          answer =
                            (if gt s (6 # 10)
                             then CompareSimilarityPort.TooSimilar s
                             else CompareSimilarityPort.DistinctEnough s, 200)
                    end
                end
          end
      end
  end.
Proof.
  intros Hrows answer. subst answer.
  destruct input_text as [[|c text]|]; [by eexists| |by eexists].
  unfold CompareSimilarityPort.similarity_check.
  destruct (load_data CompareSimilarityPort.WORDS_SET_PATH) as [data|e]; [|reflexivity].
  rewrite result_bind_ok.
  unfold CompareSimilarityPort.vectorize_data.
  destruct (fit_transform _) as [X|e] eqn:Hfit; [|reflexivity].
  rewrite result_bind_ok. apply Hrows in Hfit.
  rewrite length_app, length_map in Hfit. cbn [length] in Hfit.
  destruct (split_last_row X (length data)) as (dataset & query & HX & Hn & Hlast & Htake);
    [lia|].
  exists dataset, query. split; [exact HX|]. split; [exact Hn|].
  rewrite Hlast, result_bind_ok, Htake, !result_bind_ok.
  unfold CompareSimilarityPort.check_similarity.
  destruct (cosine_similarity [query] dataset) as [sims|e]; [|reflexivity].
  rewrite result_bind_ok. pose proof (np_max_greatest sims) as Hmax.
  destruct (concat sims) as [|x xs].
  - destruct Hmax as [msg ->]. by eexists.
  - destruct Hmax as (s & -> & Hin & Hle). exists s.
    split; [exact Hin|]. split; [exact Hle|]. rewrite result_bind_ok.
    unfold CompareSimilarityPort.default_threshold. by destruct (gt s (6 # 10)).
Qed.

End SimilarityService.

Lemma fit_transform_ones_rows : one_row_per_document fit_transform_ones.
Proof. intros docs X [= <-]. by rewrite length_fmap. Qed.

(** The query "server connect" against the corpus of three questions. *)
Lemma vectorize_data_split_witness :
  exists dataset query,
    CompareSimilarityPort.vectorize_data Chars.corpus_db Segmenter.cut_runs
      fit_transform_ones sample_data (codes "server connect")
      (CompareSimilarityPort.init Chars.corpus_db ∅ CompareSimilarityPort.STOP_WORDS_PATH)
    = Ok (dataset, [query]) /\
    [[1%Q]; [1%Q]; [1%Q]; [1%Q]] = dataset ++ [query] /\
    length dataset = length sample_data.
Proof.
  exact (vectorize_data_split Chars.corpus_db Segmenter.cut_runs fit_transform_ones
           sample_data (codes "server connect")
           (CompareSimilarityPort.init Chars.corpus_db ∅
              CompareSimilarityPort.STOP_WORDS_PATH)
           fit_transform_ones_rows).
Defined.

Lemma similarity_check_answers_witness :
  exists s,
    CompareSimilarityPort.similarity_check Chars.corpus_db Segmenter.cut_runs
      load_sample_corpus fit_transform_ones cosine_similarity_ones ∅
      (Some (codes "server connect"))
    = (if Corpus.gt s (6 # 10)
       then CompareSimilarityPort.TooSimilar s
       else CompareSimilarityPort.DistinctEnough s, 200).
Proof.
  destruct (similarity_check_answers Chars.corpus_db Segmenter.cut_runs
              load_sample_corpus fit_transform_ones cosine_similarity_ones ∅
              (Some (codes "server connect")) fit_transform_ones_rows)
    as (dataset & query & HX & Hlen & Hanswer).
  destruct dataset as [|r dataset]; [discriminate|].
  cbn in Hanswer. destruct Hanswer as (s & _ & _ & Hanswer).
  exists s. exact Hanswer.
Defined.

(** ** The pairwise scan on any matrix *)

Section UpperTriangle.
Import Py Corpus.

Lemma for_each_ext {A S : Type} (f g : S -> A -> result S) (l : list A) :
  (forall s x, x ∈ l -> f s x = g s x) ->
  forall s, for_each f s l = for_each g s l.
Proof.
  induction l as [|x l IH]; intros Hfg s; [reflexivity|].
  cbn [for_each]. rewrite (Hfg s x) by left.
  destruct (g s x) as [s'|e]; [|reflexivity].
  rewrite !result_bind_ok. apply IH. intros s0 y Hy. apply Hfg. by right.
Qed.

(** A loop raises nothing its body does not raise. *)
Lemma for_each_raise_kind {A S : Type} (P : exn -> Prop) (body : S -> A -> result S)
    (l : list A) :
  (forall s x, x ∈ l -> forall e, body s x = Raise e -> P e) ->
  forall s e, for_each body s l = Raise e -> P e.
Proof.
  induction l as [|x l IH]; intros Hbody s e; [done|].
  cbn [for_each]. destruct (body s x) as [s'|e'] eqn:Hx.
  - rewrite result_bind_ok. apply IH. intros s0 y Hy. apply Hbody. by right.
  - intros [= <-]. apply (Hbody s x); [by left|exact Hx].
Qed.

(** A loop whose body raises at one element, whatever the accumulator,
    raises. *)
Lemma for_each_raises {A S : Type} (body : S -> A -> result S) (l : list A) (x : A) :
  x ∈ l -> (forall s, exists e, body s x = Raise e) ->
  forall s, exists e, for_each body s l = Raise e.
Proof.
  intros Hx Hraise. induction l as [|y l IH]; intros s; [by apply elem_of_nil in Hx|].
  cbn [for_each]. destruct (body s y) as [s'|e] eqn:Hy; [|by exists e].
  rewrite result_bind_ok. apply elem_of_cons in Hx as [->|Hx]; [|by apply IH].
  destruct (Hraise s) as [e He]. congruence.
Qed.

Lemma at2_entry (m : matrix) (i j : nat) (s : Q) :
  at2 m i j = Ok s -> entry m i j = s.
Proof.
  unfold at2, entry. destruct (m !! i) as [r|]; [|done]. cbn.
  destruct (r !! j) as [x|]; [|done]. by intros [= ->].
Qed.

Lemma at2_raises (m : matrix) (i j : nat) (e : exn) :
  at2 m i j = Raise e -> exists msg, e = IndexError msg.
Proof.
  unfold at2. destruct (m !! i) as [r|]; [|intros [= <-]; by eexists].
  destruct (r !! j) as [x|]; [done|]. intros [= <-]. by eexists.
Qed.

Lemma iloc_raises (data : list row) (i : nat) (e : exn) :
  iloc data i = Raise e -> exists msg, e = IndexError msg.
Proof. unfold iloc. destruct (data !! i); [done|]. intros [= <-]. by eexists. Qed.

Variables (m : matrix) (data : list row) (threshold : Q).

(** The body of the inner loop raises [IndexError] or nothing. *)
Lemma scan_body_raises (i j : nat) (pairs : list (str * str)) (e : exn) :
  (s ← at2 m i j;
   if gt s threshold then
     ri ← iloc data i;
     rj ← iloc data j;
     Ok (pairs ++ [(Question ri, Question rj)])
   else Ok pairs) = Raise e ->
  exists msg, e = IndexError msg.
Proof.
  destruct (at2 m i j) as [s|e'] eqn:Hs.
  - rewrite result_bind_ok. destruct (gt s threshold); [|done].
    destruct (iloc data i) as [ri|e'] eqn:Hi.
    + rewrite result_bind_ok. destruct (iloc data j) as [rj|e''] eqn:Hj; [done|].
      intros [= <-]. by apply iloc_raises in Hj.
    + intros [= <-]. by apply iloc_raises in Hi.
  - intros [= <-]. by apply at2_raises in Hs.
Qed.

(** The inner loop over columns whose entries exist. *)
Lemma scan_row_present (i : nat) (js : list nat) :
  (i < length data)%nat ->
  Forall (fun j => (j < length data)%nat /\ exists s, at2 m i j = Ok s) js ->
  forall pairs,
    for_each (fun pairs j =>
      s ← at2 m i j;
      if gt s threshold then
        ri ← iloc data i;
        rj ← iloc data j;
        Ok (pairs ++ [(Question ri, Question rj)])
      else Ok pairs) pairs js
    = Ok (pairs ++ (pair_questions data <$> filter (above m threshold) (pair i <$> js))).
Proof.
  intros Hi Hjs.
  match goal with |- context [for_each ?f] => set (body := f) end.
  induction Hjs as [|j js [Hj [s Hs]] _ IH]; intros pairs.
  - cbn. by rewrite app_nil_r.
  - cbn [for_each]. rewrite fmap_cons, filter_cons.
    assert (Hbody : body pairs j =
              Ok (if decide (above m threshold (i, j))
                  then pairs ++ [pair_questions data (i, j)] else pairs)).
    { unfold body. rewrite Hs, result_bind_ok. apply at2_entry in Hs. subst s.
      destruct (decide (above m threshold (i, j))) as [Hgt|Hgt];
        unfold above in Hgt; cbn [fst snd] in Hgt.
      - rewrite Hgt.
        destruct (iloc_question data i Hi) as (ri & -> & Hri).
        destruct (iloc_question data j Hj) as (rj & -> & Hrj).
        by rewrite !result_bind_ok, Hri, Hrj.
      - apply not_true_is_false in Hgt. by rewrite Hgt. }
    rewrite Hbody, result_bind_ok, IH.
    destruct (decide (above m threshold (i, j))); [|reflexivity].
    by rewrite fmap_cons, <- app_assoc.
Qed.

Lemma scan_rows_present (rows : list nat) :
  Forall (fun i => (i < length data)%nat /\
                   forall j, (i < j < length data)%nat -> exists s, at2 m i j = Ok s) rows ->
  forall pairs,
    for_each (fun pairs i =>
      for_each (fun pairs j =>
        s ← at2 m i j;
        if gt s threshold then
          ri ← iloc data i;
          rj ← iloc data j;
          Ok (pairs ++ [(Question ri, Question rj)])
        else Ok pairs)
      pairs (range (i + 1) (length data))) pairs rows
    = Ok (pairs ++ (pair_questions data <$>
                      filter (above m threshold)
                        (rows ≫= fun i => pair i <$> range (i + 1) (length data)))).
Proof.
  induction 1 as [|i rows [Hi Hrow] _ IH]; intros pairs.
  - cbn. by rewrite app_nil_r.
  - cbn [for_each].
    rewrite (scan_row_present i _ Hi).
    2:{ apply Forall_forall. intros j Hj%elem_of_range. split; [lia|]. apply Hrow. lia. }
    rewrite result_bind_ok, IH. f_equal.
    rewrite bind_cons, filter_app, fmap_app, <- app_assoc. reflexivity.
Qed.

(** The scan reads the entries above the diagonal and nothing else.  Two
    matrices that agree there give the same result, whatever they hold on
    and below the diagonal and whatever their shapes.  When every entry
    above the diagonal exists, the scan returns the pairs above the
    threshold; when one is missing, it raises [IndexError]. *)
Theorem scan_reads_upper_triangle (m' : matrix) :
  ((forall i j, (i < j < length data)%nat -> at2 m i j = at2 m' i j) ->
   CompareSimilarity.find_high_similarity_pairs m data threshold
   = CompareSimilarity.find_high_similarity_pairs m' data threshold) /\
  ((forall i j, (i < j < length data)%nat -> exists s, at2 m i j = Ok s) ->
   CompareSimilarity.find_high_similarity_pairs m data threshold
   = Ok (pair_questions data <$>
           filter (above m threshold) (upper_pairs (length data)))) /\
  (forall i j, (i < j < length data)%nat -> (forall s, at2 m i j <> Ok s) ->
     exists msg,
       CompareSimilarity.find_high_similarity_pairs m data threshold
       = Raise (IndexError msg)).
Proof.
  unfold CompareSimilarity.find_high_similarity_pairs. split; [|split].
  - intros Hagree. apply for_each_ext. intros pairs i Hi%elem_of_range.
    apply for_each_ext. intros pairs' j Hj%elem_of_range.
    rewrite Hagree by lia. reflexivity.
  - intros Hpresent. unfold upper_pairs. rewrite scan_rows_present; [reflexivity|].
    apply Forall_forall. intros i Hi%elem_of_range. split; [lia|].
    intros j Hj. by apply Hpresent.
  - intros i j Hij Hmissing.
    match goal with |- context [for_each ?f [] ?l] => set (outer := f); set (rows := l) end.
    assert (Hraise : exists e, for_each outer [] rows = Raise e).
    { apply (for_each_raises outer rows i); [apply elem_of_range; lia|].
      intros pairs. unfold outer.
      apply (for_each_raises _ _ j); [apply elem_of_range; lia|].
      intros pairs'. destruct (at2 m i j) as [s|e] eqn:Hs; [by destruct (Hmissing s)|].
      by exists e. }
    destruct Hraise as [e He]. rewrite He.
    assert (Hkind : exists msg, e = IndexError msg).
    { apply (for_each_raise_kind (fun e => exists msg, e = IndexError msg)
               outer rows) with (s := []); [|exact He].
      intros pairs i' _ e' He'. unfold outer in He'.
      apply (for_each_raise_kind (fun e => exists msg, e = IndexError msg) _ _)
        in He'; [exact He'|].
      intros pairs' j' _ e''. apply scan_body_raises. }
    destruct Hkind as [msg ->]. by exists msg.
Qed.

End UpperTriangle.

(** Two rows are enough for a corpus of three questions, the entries on
    and below the diagonal are never read; one row is not enough. *)
Example scan_reads_upper_triangle_sample :
  CompareSimilarity.find_high_similarity_pairs
    [[0; 1; 65 # 100]; [0; 0; 65 # 100]]%Q sample_data (7 # 10)
  = CompareSimilarity.find_high_similarity_pairs sample_matrix sample_data (7 # 10) /\
  CompareSimilarity.find_high_similarity_pairs [[0; 1; 65 # 100]]%Q sample_data (7 # 10)
  = Raise (IndexError "index is out of bounds for axis 0").
Proof. split; reflexivity. Qed.

(** ** Ranked retrieval with [top_n] zero or negative *)

Section NonPositiveTopN.
Import Py Corpus.
Variable vectorizer : Type.
Variable transform : vectorizer -> list str -> result matrix.
Variable cosine_similarity : matrix -> matrix -> result matrix.
Variable argsort : list Q -> list nat.

(** [l[k:]] for [k >= 0] drops the first [k] elements; [l[-0:]] is
    [l[0:]], the whole list. *)
Lemma slice_from_nonnegative {A : Type} (k : Z) (l : list A) :
  0 <= k -> slice_from k l = drop (Z.to_nat k) l.
Proof. intros Hk. unfold slice_from. by replace (k <? 0) with false by lia. Qed.

(** With [top_n = 0] the slice [[-top_n:]] is the whole list: the function
    returns every corpus entry, not none.  With [top_n = -k] the slice is
    [[k:]]: the [k] entries of lowest score are dropped and the others
    returned.  In both cases the entries come by descending score, and no
    entry left out has a higher score than an entry returned. *)
Theorem find_most_similar_questions_nonpositive_top_n (new_input : str) (v : vectorizer)
    (tfidf_matrix : matrix) (data : list row) (top_n : Z) (query sims : matrix) :
  sorts_ascending argsort ->
  transform v [new_input] = Ok query ->
  cosine_similarity query tfidf_matrix = Ok sims ->
  length (concat sims) = length data ->
  top_n <= 0 ->
  exists top : list nat,
    Vectorize.find_most_similar_questions vectorizer transform cosine_similarity argsort
      new_input v tfidf_matrix data top_n
    = Ok ((fun i => (question_at data i, score (concat sims) i)) <$> top) /\
    length top = (length data - Z.to_nat (- top_n))%nat /\
    NoDup top /\
    (forall i, i ∈ top -> (i < length data)%nat) /\
    StronglySorted (fun a b => (score (concat sims) b <= score (concat sims) a)%Q) top /\
    (forall i j, i ∈ top -> (j < length data)%nat -> j ∉ top ->
                 (score (concat sims) j <= score (concat sims) i)%Q).
Proof.
  intros argsort_sorts Htransform Hcos Hlen Htop.
  destruct (argsort_sorts (concat sims)) as [Hperm Hsorted].
  set (scores := concat sims) in *.
  set (sorted := argsort scores) in *.
  assert (Hlength : length sorted = length data).
  { by rewrite (Permutation_length Hperm), length_seq. }
  assert (Hrange : forall i, i ∈ sorted <-> (i < length data)%nat).
  { intros i. rewrite Hperm, elem_of_seq. lia. }
  set (d := Z.to_nat (- top_n)).
  assert (Hsplit : sorted = take d sorted ++ drop d sorted)
    by (by rewrite take_drop).
  assert (Hdrop : forall i, i ∈ drop d sorted -> i ∈ sorted).
  { intros i Hi. rewrite Hsplit. apply elem_of_app. by right. }
  exists (rev (drop d sorted)). split; [|split; [|split; [|split; [|split]]]].
  - unfold Vectorize.find_most_similar_questions.
    rewrite Htransform, result_bind_ok, Hcos, result_bind_ok.
    cbn zeta. fold scores. fold sorted.
    rewrite (slice_from_nonnegative (- top_n) sorted) by lia. fold d.
    apply comprehension_ok. intros i Hi%elem_of_rev_list%Hdrop%Hrange.
    destruct (iloc_question data i Hi) as (r & -> & Hr).
    rewrite result_bind_ok. unfold at1, score.
    destruct (lookup_lt_is_Some_2 scores i) as [x Hx]; [lia|].
    rewrite Hx, result_bind_ok, Hr. reflexivity.
  - rewrite length_rev, length_drop. lia.
  - apply NoDup_ListNoDup, NoDup_rev, NoDup_ListNoDup.
    assert (Hnodup : NoDup sorted).
    { rewrite Hperm. apply NoDup_seq. }
    rewrite Hsplit in Hnodup. by apply NoDup_app in Hnodup as (_ & _ & ?).
  - intros i Hi%elem_of_rev_list%Hdrop. by apply Hrange.
  - apply (StronglySorted_rev (fun a b => (score scores a <= score scores b)%Q)).
    rewrite Hsplit in Hsorted. by apply StronglySorted_app_1_r in Hsorted.
  - intros i j Hi%elem_of_rev_list Hj Hout.
    apply Hrange in Hj. rewrite Hsplit in Hj. apply elem_of_app in Hj as [Hj|Hj].
    + rewrite Hsplit in Hsorted.
      exact (StronglySorted_app_1_elem_of _ _ _ j i Hsorted Hj Hi).
    + destruct Hout. apply list_elem_of_In, in_rev.
      rewrite rev_involutive. by apply list_elem_of_In.
Qed.

End NonPositiveTopN.

(** [top_n = 0] on three questions: all three are returned. *)
Lemma find_most_similar_questions_nonpositive_top_n_witness :
  exists top : list nat,
    Vectorize.find_most_similar_questions unit transform_any
      (similarity_given [2 # 10; 9 # 10; 1 # 2]%Q) Vectorize.argsort_stable
      (codes "server connect") tt [] sample_data 0
    = Ok ((fun i => (question_at sample_data i,
                     score (concat [[2 # 10; 9 # 10; 1 # 2]%Q]) i)) <$> top) /\
    length top = (length sample_data - Z.to_nat (- 0))%nat /\
    NoDup top /\
    (forall i, i ∈ top -> (i < length sample_data)%nat) /\
    StronglySorted (fun a b => (score (concat [[2 # 10; 9 # 10; 1 # 2]%Q]) b
                                <= score (concat [[2 # 10; 9 # 10; 1 # 2]%Q]) a)%Q) top /\
    (forall i j, i ∈ top -> (j < length sample_data)%nat -> j ∉ top ->
                 (score (concat [[2 # 10; 9 # 10; 1 # 2]%Q]) j
                  <= score (concat [[2 # 10; 9 # 10; 1 # 2]%Q]) i)%Q).
Proof.
  apply (find_most_similar_questions_nonpositive_top_n unit transform_any
           (similarity_given [2 # 10; 9 # 10; 1 # 2]%Q) Vectorize.argsort_stable
           (codes "server connect") tt [] sample_data 0
           [[1%Q]] [[2 # 10; 9 # 10; 1 # 2]%Q]).
  - exact argsort_stable_sorts.
  - reflexivity.
  - reflexivity.
  - reflexivity.
  - lia.
Defined.

Example find_most_similar_questions_zero_sample :
  Vectorize.find_most_similar_questions unit transform_any
    (similarity_given [2 # 10; 9 # 10; 1 # 2]%Q) Vectorize.argsort_stable
    (codes "server connect") tt [] sample_data 0
  = Ok [(codes "server can not connect!", 9 # 10);
        (codes "connect the printer", 1 # 2);
        (codes "server cannot connect", 2 # 10)]%Q /\
  Vectorize.find_most_similar_questions unit transform_any
    (similarity_given [2 # 10; 9 # 10; 1 # 2]%Q) Vectorize.argsort_stable
    (codes "server connect") tt [] sample_data (-1)
  = Ok [(codes "server can not connect!", 9 # 10);
        (codes "connect the printer", 1 # 2)]%Q.
Proof. split; reflexivity. Qed.

(** ** The text sent to the vectorizer *)

Section QueryText.
Import Chars Py.
Variable U : unicode_db.
Variable cut : str -> list str.

Lemma join_chars (sep : str) (words : list str) (c : Z) :
  c ∈ join sep words -> c ∈ sep \/ exists w, w ∈ words /\ c ∈ w.
Proof.
  induction words as [|w words IH]; [by intros ?%elem_of_nil|].
  cbn [join]. destruct words as [|w' words].
  - intros Hc. right. exists w. split; [by left|done].
  - intros [Hc|[Hc|Hc]%elem_of_app]%elem_of_app.
    + right. exists w. split; [by left|done].
    + by left.
    + destruct (IH Hc) as [?|(w0 & Hw0 & Hc0)]; [by left|].
      right. exists w0. split; [by right|done].
Qed.

(** The string [TextPreprocessor.preprocess] returns for the vectorizer
    holds spaces and characters of the text that are word characters or
    whitespace and no digits: punctuation and digits never reach the
    vectorizer.  The tokens joined are those of the segmenter that are
    neither stop words nor whitespace. *)
Theorem query_text_characters (self : CompareSimilarityPort.self_t) (text : str) (c : Z) :
  (forall t, concat (cut t) = t) ->
  c ∈ CompareSimilarityPort.preprocess U cut self text ->
  c = 32 \/
  ((c ∈ text) /\ is_digit U c = false /\
   (is_word U c = true \/ is_space U c = true)).
Proof.
  intros Hcover Hc. unfold CompareSimilarityPort.preprocess in Hc.
  apply join_chars in Hc as [->%list_elem_of_singleton|(w & Hw & Hc)]; [by left|].
  apply list_elem_of_filter in Hw as [_ Hw].
  assert (Hin : c ∈ sub_digits U [] (sub_nonword U text)).
  { rewrite <- (Hcover (sub_digits U [] (sub_nonword U text))).
    by apply (concat_token_chars _ w). }
  unfold sub_digits in Hin.
  apply sub_runs_chars in Hin as [?%elem_of_nil|[Hin Hdigit]]; [done|].
  unfold sub_nonword in Hin. change (map ?f text) with (f <$> text) in Hin.
  apply list_elem_of_fmap in Hin as (x & -> & Hx).
  destruct (is_word U x || is_space U x) eqn:Hclass; [|by left].
  right. split; [exact Hx|]. split; [exact Hdigit|].
  by apply orb_true_iff in Hclass.
Qed.

End QueryText.

(** The query "error 42!": the character "r" is kept. *)
Lemma query_text_characters_witness :
  114 = 32 \/
  ((114 ∈ codes "error 42!") /\ Chars.is_digit Chars.corpus_db 114 = false /\
   (Chars.is_word Chars.corpus_db 114 = true \/ Chars.is_space Chars.corpus_db 114 = true)).
Proof.
  apply (query_text_characters Chars.corpus_db Segmenter.cut_runs
           (CompareSimilarityPort.init Chars.corpus_db ∅ CompareSimilarityPort.STOP_WORDS_PATH)
           (codes "error 42!") 114).
  - exact cut_runs_covers.
  - replace (CompareSimilarityPort.preprocess Chars.corpus_db Segmenter.cut_runs
               (CompareSimilarityPort.init Chars.corpus_db ∅
                  CompareSimilarityPort.STOP_WORDS_PATH) (codes "error 42!"))
      with (codes "error") by (vm_compute; reflexivity).
    right. by left.
Defined.

(** ** A text written in full-width forms *)

Section FullWidthText.
Import Chars Py.
Variable U : unicode_db.
Variable cut : str -> list str.

Lemma to_full_width_not_alpha (c : Z) :
  0x20 <= c <= 0x7E -> ascii_alpha (to_full_width c) = false.
Proof.
  intros Hc. unfold to_full_width, ascii_alpha.
  destruct (Z.eqb_spec c 32) as [->|Hne]; [reflexivity|].
  replace ((33 <=? c) && (c <=? 126)) with true by lia. lia.
Qed.

(** The full-width spelling of a printable ASCII text holds no special
    pattern, since the pattern asks for Latin letters of the ASCII range;
    and when the text itself holds none, the two spellings are
    preprocessed to the same words.  A text with a special pattern loses
    it when written in full-width forms. *)
Theorem full_width_text_same_tokens (self : ChineseTextPreprocessor.self_t) (h : str) :
  Forall (fun c => 0x20 <= c <= 0x7E) h ->
  findall_special U (map to_full_width h) = [] /\
  (exists self',
     ChineseTextPreprocessor.preprocess U cut self (map to_full_width h)
     = Ok (filter (fun word => strip U word <> [])
             (ChineseTextPreprocessor.remove_stop_words cut self
                (ChineseTextPreprocessor.remove_special_characters U h)), self')) /\
  (findall_special U h = [] ->
   exists words self1 self2,
     ChineseTextPreprocessor.preprocess U cut self h = Ok (words, self1) /\
     ChineseTextPreprocessor.preprocess U cut self (map to_full_width h)
     = Ok (words, self2)).
Proof.
  intros Hh.
  assert (Hnone : findall_special U (map to_full_width h) = []).
  { apply findall_special_no_alpha. apply Forall_map.
    eapply Forall_impl; [exact Hh|]. apply to_full_width_not_alpha. }
  assert (Hfull :
    ChineseTextPreprocessor.preprocess U cut self (map to_full_width h)
    = Ok (filter (fun word => strip U word <> [])
            (ChineseTextPreprocessor.remove_stop_words cut self
               (ChineseTextPreprocessor.remove_special_characters U h)),
          {| ChineseTextPreprocessor.stop_words := ChineseTextPreprocessor.stop_words self;
             ChineseTextPreprocessor.cleaned_text := Some (map to_full_width h) |})).
  { rewrite batch_preprocess_run. unfold batch_words,
      InputProcessorPort.extract_special_patterns.
    rewrite Hnone. cbn [foldl].
    unfold ChineseTextPreprocessor.normalize_text, ChineseTextPreprocessor.full_to_half.
    rewrite (full_to_half_full_width h Hh).
    f_equal. f_equal. change (list_to_set []) with (∅ : gset str).
    by rewrite (right_id_L ∅ (∪)). }
  split; [exact Hnone|]. split; [by eexists|].
  intros Hplain. eexists _, _, _. split; [|exact Hfull].
  rewrite batch_preprocess_run. unfold batch_words,
    InputProcessorPort.extract_special_patterns.
  rewrite Hplain. cbn [foldl].
  unfold ChineseTextPreprocessor.normalize_text, ChineseTextPreprocessor.full_to_half.
  rewrite (full_to_half_half_width h Hh).
  f_equal. f_equal. change (list_to_set []) with (∅ : gset str).
  by rewrite (right_id_L ∅ (∪)).
Qed.

End FullWidthText.

(** "server 42 down!" and its full-width spelling. *)
Lemma full_width_text_same_tokens_witness :
  exists words self1 self2,
    ChineseTextPreprocessor.preprocess Chars.corpus_db Segmenter.cut_runs no_stop_words
      (codes "server 42 down!") = Ok (words, self1) /\
    ChineseTextPreprocessor.preprocess Chars.corpus_db Segmenter.cut_runs no_stop_words
      (map to_full_width (codes "server 42 down!")) = Ok (words, self2).
Proof.
  assert (Hprintable : Forall (fun c => 0x20 <= c <= 0x7E) (codes "server 42 down!")).
  { change (codes "server 42 down!")
      with [115; 101; 114; 118; 101; 114; 32; 52; 50; 32; 100; 111; 119; 110; 33].
    repeat (constructor; [lia|]). constructor. }
  destruct (full_width_text_same_tokens Chars.corpus_db Segmenter.cut_runs no_stop_words
              (codes "server 42 down!") Hprintable) as (_ & _ & Hsame).
  apply Hsame. reflexivity.
Defined.

(** "A/B" keeps its pattern, the full-width "A/B" does not. *)
Example full_width_text_loses_pattern :
  ChineseTextPreprocessor.preprocess Chars.corpus_db Segmenter.cut_runs no_stop_words
    (codes "A/B")
  = Ok ({[ codes "A/B" ]},
        {| ChineseTextPreprocessor.stop_words := ∅;
           ChineseTextPreprocessor.cleaned_text := Some [] |}) /\
  ChineseTextPreprocessor.preprocess Chars.corpus_db Segmenter.cut_runs no_stop_words
    (map to_full_width (codes "A/B"))
  = Ok ({[ codes "A"; codes "B" ]},
        {| ChineseTextPreprocessor.stop_words := ∅;
           ChineseTextPreprocessor.cleaned_text := Some [0xFF21; 0xFF0F; 0xFF22] |}).
Proof. split; reflexivity. Qed.

(** ** The stop words loaded *)

Section LoadedStopWords.
Import Chars Py.
Variable U : unicode_db.

Lemma universal_newlines_cons (c : Z) (rest : str) :
  universal_newlines (c :: rest) =
  if c =? 13 then
    match rest with
    | d :: _ => if d =? 10 then universal_newlines rest else 10 :: universal_newlines rest
    | [] => [10]
    end
  else c :: universal_newlines rest.
Proof.
  destruct (Z.eqb_spec c 13) as [->|Hc].
  - destruct rest as [|d rest']; [reflexivity|].
    destruct (Z.eqb_spec d 10) as [->|Hd]; [reflexivity|].
    destruct d as [|p|p]; try reflexivity.
    repeat (try reflexivity; try (by destruct Hd); destruct p as [p|p|]).
  - destruct c as [|p|p]; try reflexivity.
    repeat (try reflexivity; try (by destruct Hc); destruct p as [p|p|]).
Qed.

(** No carriage return is left in a file read with universal newlines. *)
Lemma universal_newlines_no_cr (content : str) : 13 ∉ universal_newlines content.
Proof.
  induction content as [|c rest IH]; [apply not_elem_of_nil|].
  rewrite universal_newlines_cons. destruct (Z.eqb_spec c 13) as [->|Hc].
  - destruct rest as [|d rest'].
    + rewrite not_elem_of_cons. split; [lia|apply not_elem_of_nil].
    + destruct (d =? 10); [exact IH|].
      rewrite not_elem_of_cons. split; [lia|exact IH].
  - rewrite not_elem_of_cons. split; [congruence|exact IH].
Qed.

Lemma strip_strip (text : str) : strip U (strip U text) = strip U text.
Proof. apply strip_fixed; apply strip_edges. Qed.

(** Every stop word loaded is a trimmed line: stripping it changes
    nothing, it neither starts nor ends with whitespace, and it holds no
    line break.  So a line with blanks around a word stands for the word,
    and a token that starts or ends with whitespace is never removed as a
    stop word.  The three services and the script load their stop words
    the same way. *)
Theorem stop_words_are_trimmed (fs : gmap string str) (file_path : string) :
  (forall w, w ∈ ChineseTextPreprocessor.load_stop_words U fs file_path ->
     strip U w = w /\ (10 ∉ w) /\ (13 ∉ w) /\
     (forall c rest, w = c :: rest -> is_space U c = false) /\
     (forall init c, w = init ++ [c] -> is_space U c = false)) /\
  InputProcessorPort.load_stop_words U fs file_path
    = ChineseTextPreprocessor.load_stop_words U fs file_path /\
  CompareSimilarityPort.load_stop_words U fs file_path
    = ChineseTextPreprocessor.load_stop_words U fs file_path /\
  InputProcessor.load_stop_words U fs file_path
    = ChineseTextPreprocessor.load_stop_words U fs file_path.
Proof.
  split; [|by repeat split].
  intros w. unfold ChineseTextPreprocessor.load_stop_words.
  destruct (fs !! file_path) as [content|]; [|by intros ?%elem_of_empty].
  rewrite elem_of_list_to_set.
  change (map (strip U) (readlines content)) with (strip U <$> readlines content).
  intros (line & -> & Hline)%list_elem_of_fmap.
  assert (Hcr : 13 ∉ line).
  { intros Hin. apply (universal_newlines_no_cr content).
    unfold readlines in Hline.
    pose proof (readlines_from_concat (universal_newlines content) []) as Hcat.
    cbn [rev app] in Hcat. rewrite <- Hcat.
    by apply (concat_token_chars _ line). }
  assert (Hlf : 10 ∉ strip U line).
  { unfold readlines in Hline.
    apply (readlines_from_lines _ [] line (not_elem_of_nil 10)) in Hline
      as (_ & body & Hbody & [->| ->]).
    - intros Hin. by apply strip_chars in Hin.
    - rewrite (strip_snoc U body 10) by reflexivity.
      intros Hin. by apply strip_chars in Hin. }
  split; [apply strip_strip|]. split; [exact Hlf|]. split.
  { intros Hin. by apply strip_chars in Hin. }
  destruct (strip_edges U line) as [Hleft Hright]. split.
  - intros c rest Hw. rewrite Hw in Hleft. by apply lstrip_head in Hleft.
  - intros init c Hw. rewrite Hw, rev_app_distr in Hright. cbn [rev app] in Hright.
    by apply lstrip_head in Hright.
Qed.

End LoadedStopWords.

(** A file with blanks around a word and a line ending in ["\r\n"]. *)
Example load_stop_words_sample :
  ChineseTextPreprocessor.load_stop_words Chars.corpus_db
    {[ "stop_words.txt"%string := [32; 116; 104; 101; 32; 13; 10; 97; 110; 100; 10] ]}
    "stop_words.txt"
  = {[ codes "the"; codes "and" ]}.
Proof. reflexivity. Qed.

(** ** Finding an address that stands in the text *)

Section IpAddressesFound.
Import Chars Py.
Variable U : unicode_db.

Lemma not_word_not_digit (c : Z) : is_word U c = false -> ascii_digit c = false.
Proof.
  intros Hw. destruct (ascii_digit c) eqn:Hd; [|reflexivity].
  unfold is_word in Hw. unfold ascii_digit in Hd.
  replace (c <? 128) with true in Hw by lia.
  unfold ascii_digit in Hw. rewrite Hd in Hw. by rewrite orb_true_r in Hw.
Qed.

Lemma count_digits_run (d rest : str) :
  Forall (fun c => ascii_digit c = true) d ->
  match rest with c :: _ => ascii_digit c = false | [] => True end ->
  count_digits (d ++ rest) = length d.
Proof.
  intros Hd Hrest. induction Hd as [|c d Hc _ IH].
  - destruct rest as [|c rest]; [reflexivity|]. cbn. by rewrite Hrest.
  - cbn [app count_digits length]. by rewrite Hc, IH.
Qed.

Lemma octet_dot_found (d rest : str) :
  octet d -> octet_dot (d ++ 46 :: rest) = Some (d ++ [46], rest).
Proof.
  intros [Hlen Hd]. unfold octet_dot.
  rewrite (count_digits_run d (46 :: rest) Hd) by reflexivity.
  replace ((1 <=? length d)%nat && (length d <=? 3)%nat) with true
    by (symmetry; apply andb_true_iff; split; apply Nat.leb_le; lia).
  rewrite drop_app_length.
  replace (take (S (length d)) (d ++ 46 :: rest)) with (d ++ [46]); [reflexivity|].
  change (d ++ 46 :: rest) with (d ++ [46] ++ rest). rewrite app_assoc.
  replace (S (length d)) with (length (d ++ [46]))
    by (rewrite length_app; cbn; lia).
  by rewrite take_app_length.
Qed.

Lemma match_ip_found (m post : str) :
  ip_shaped m ->
  match post with c :: _ => is_word U c = false | [] => True end ->
  match_ip U false (m ++ post) = Some m.
Proof.
  intros (a & b & c & d & -> & Ha & Hb & Hc & [Hlen Hd]) Hpost.
  unfold match_ip.
  replace ((a ++ [46] ++ b ++ [46] ++ c ++ [46] ++ d) ++ post)
    with (a ++ 46 :: (b ++ 46 :: (c ++ 46 :: (d ++ post))))
    by (by rewrite <- !app_assoc).
  rewrite (octet_dot_found a _ Ha). cbn [mbind option_bind].
  rewrite (octet_dot_found b _ Hb). cbn [mbind option_bind].
  rewrite (octet_dot_found c _ Hc). cbn [mbind option_bind].
  rewrite (count_digits_run d post Hd).
  2:{ destruct post as [|x post]; [done|]. by apply not_word_not_digit. }
  replace ((1 <=? length d)%nat && (length d <=? 3)%nat) with true
    by (symmetry; apply andb_true_iff; split; apply Nat.leb_le; lia).
  rewrite drop_app_length, take_app_length. cbn [andb].
  replace (match post with [] => true | x :: _ => negb (is_word U x) end) with true.
  - by rewrite <- !app_assoc.
  - destruct post as [|x post]; [reflexivity|]. by rewrite Hpost.
Qed.

Lemma findall_ip_scan_finds (m post : str) :
  ip_shaped m ->
  match post with c :: _ => is_word U c = false | [] => True end ->
  forall pre prev_word,
    match last pre with Some c => is_word U c = false | None => prev_word = false end ->
    findall_ip_scan U prev_word 0 (pre ++ m ++ post) <> [].
Proof.
  intros Hshape Hpost. induction pre as [|x pre IH]; intros prev_word Hpre.
  - cbn [last] in Hpre. subst prev_word. cbn [app].
    pose proof (match_ip_found m post Hshape Hpost) as Hfound.
    destruct (m ++ post) as [|c rest]; [done|].
    cbn [findall_ip_scan]. by rewrite Hfound.
  - change ((x :: pre) ++ m ++ post) with (x :: (pre ++ m ++ post)).
    cbn [findall_ip_scan].
    destruct (match_ip U prev_word (x :: pre ++ m ++ post)); [done|].
    apply IH. destruct pre as [|y pre]; [exact Hpre|].
    by rewrite last_cons in Hpre; destruct (last (y :: pre)).
Qed.

Lemma findall_ip_scan_skips (text : str) :
  forall prev_word skip,
    (length text <= skip)%nat -> findall_ip_scan U prev_word skip text = [].
Proof.
  induction text as [|c rest IH]; intros prev_word skip Hskip; [reflexivity|].
  cbn [findall_ip_scan]. cbn [length] in Hskip.
  destruct skip as [|skip]; [lia|]. apply IH. lia.
Qed.

(** An address standing in the text between characters that are no word
    characters, or at its ends, does not go unnoticed: some address is
    extracted.  A text that is one address yields that address and
    nothing else. *)
Theorem extract_ip_addresses_finds (pre m post : str) :
  ip_shaped m ->
  match last pre with Some c => is_word U c = false | None => True end ->
  match post with c :: _ => is_word U c = false | [] => True end ->
  (exists found, found ∈ InputProcessorPort.extract_ip_addresses U (pre ++ m ++ post)) /\
  InputProcessorPort.extract_ip_addresses U m = {[ m ]}.
Proof.
  intros Hshape Hpre Hpost. split.
  - unfold InputProcessorPort.extract_ip_addresses, findall_ip.
    pose proof (findall_ip_scan_finds m post Hshape Hpost pre false) as Hfinds.
    destruct (findall_ip_scan U false 0 (pre ++ m ++ post)) as [|found others].
    + destruct Hfinds; [|reflexivity]. by destruct (last pre).
    + exists found. apply elem_of_list_to_set. by left.
  - unfold InputProcessorPort.extract_ip_addresses, findall_ip.
    pose proof (match_ip_found m [] Hshape I) as Hfound. rewrite app_nil_r in Hfound.
    pose proof (ip_shaped_length m Hshape) as Hlen.
    destruct m as [|c rest] eqn:Hm; [cbn in Hlen; lia|].
    cbn [findall_ip_scan]. rewrite Hfound.
    rewrite findall_ip_scan_skips by (cbn [length]; lia).
    cbn [list_to_set]. by rewrite (right_id_L ∅ (∪)).
Qed.

End IpAddressesFound.

(** The address in "ping 192.168.1.1 timeout". *)
Lemma extract_ip_addresses_finds_witness :
  (exists found,
     found ∈ InputProcessorPort.extract_ip_addresses Chars.corpus_db
               (codes "ping " ++ codes "192.168.1.1" ++ codes " timeout")) /\
  InputProcessorPort.extract_ip_addresses Chars.corpus_db (codes "192.168.1.1")
  = {[ codes "192.168.1.1" ]}.
Proof.
  apply (extract_ip_addresses_finds Chars.corpus_db
           (codes "ping ") (codes "192.168.1.1") (codes " timeout")).
  - exists (codes "192"), (codes "168"), (codes "1"), (codes "1").
    split; [reflexivity|].
    repeat split; cbn; try lia; repeat constructor.
  - reflexivity.
  - reflexivity.
Defined.

(** ** The three preprocessors compared *)

Section ThreeEntryPoints.
Import Chars Py.
Variable U : unicode_db.
Variable cut : str -> list str.

Lemma lstrip_nil_iff (w : str) : lstrip U w = [] <-> forallb (is_space U) w = true.
Proof.
  induction w as [|c w IH]; [done|]. cbn [lstrip forallb].
  destruct (is_space U c); [exact IH|]. split; discriminate.
Qed.

Lemma forallb_rev (f : Z -> bool) (l : str) : forallb f (rev l) = forallb f l.
Proof.
  induction l as [|c l IH]; [reflexivity|].
  cbn [rev forallb]. rewrite forallb_app, IH. cbn [forallb].
  by rewrite andb_true_r, andb_comm.
Qed.

Lemma strip_nil_iff (w : str) : strip U w = [] <-> forallb (is_space U) w = true.
Proof.
  unfold strip, rstrip. split.
  - intros H. apply (f_equal (@rev Z)) in H. rewrite rev_involutive in H. cbn in H.
    apply lstrip_nil_iff in H. rewrite forallb_rev in H.
    clear -H. induction w as [|c w IH]; [done|].
    cbn [lstrip] in H. cbn [forallb].
    destruct (is_space U c) eqn:Hc; [by apply IH|].
    cbn [forallb] in H. by rewrite Hc in H.
  - intros H. apply lstrip_nil_iff in H. by rewrite H.
Qed.

(** On a token that is not empty, [not word.isspace()] and the truth of
    [word.strip()] are the same test. *)
Lemma isspace_strip (w : str) :
  w <> [] -> isspace U w = false <-> strip U w <> [].
Proof.
  intros Hw. rewrite strip_nil_iff, not_true_iff_false. by destruct w.
Qed.

Lemma findall_special_plain (text : str) :
  Forall (fun c => is_word U c || is_space U c = true) text ->
  forall skip, findall_special_scan U skip text = [].
Proof.
  induction 1 as [|c text Hc Htext IH]; intros skip; [reflexivity|].
  cbn [findall_special_scan]. destruct skip as [|skip]; [|apply IH].
  replace (special_at U (c :: text)) with (@None str); [apply IH|].
  destruct Htext as [|x text Hx Htext]; [reflexivity|].
  destruct text as [|b text]; [reflexivity|].
  unfold special_at. by rewrite Hx, andb_false_r.
Qed.

Lemma elem_of_join (sep : str) (words : list str) (w : str) (c : Z) :
  w ∈ words -> c ∈ w -> c ∈ join sep words.
Proof.
  intros Hw Hc. induction words as [|v words IH]; [by apply elem_of_nil in Hw|].
  cbn [join]. apply elem_of_cons in Hw as [->|Hw].
  - destruct words; [done|]. apply elem_of_app. by left.
  - destruct words as [|v' words]; [by apply elem_of_nil in Hw|].
    apply elem_of_app. right. apply elem_of_app. right. by apply IH.
Qed.

(** C1, as the code has it.  The batch preprocessor returns the tokens of
    the service preprocessor together with the special patterns of the
    text, so the two agree when the text has no special pattern.  The
    query preprocessor returns a string of tokens joined by spaces:
    whenever it hands the segmenter the string the service hands it, its
    non-empty tokens are those of the service, whatever the segmenter and
    the stop words.  The two hand over the same string, the text itself,
    when the text is made of single spaces and of word characters that
    are neither digits nor full-width forms, and neither starts nor ends
    with a space.  The condition cannot be dropped: with the segmenter
    that returns its input as one token and no stop-word file, the query
    path returns the string it handed over, and that token is a token of
    the service only if the two strings are equal. *)
Theorem entry_points_related (fs : gmap string str) (path : string) (text : str) :
  (exists self',
     ChineseTextPreprocessor.preprocess U cut
       (ChineseTextPreprocessor.init U fs path) text =
     Ok (InputProcessorPort.preprocess U cut (InputProcessorPort.init U fs path) text
           ∪ list_to_set (findall_special U text), self')) /\
  (findall_special U text = [] ->
   exists self',
     ChineseTextPreprocessor.preprocess U cut
       (ChineseTextPreprocessor.init U fs path) text =
     Ok (InputProcessorPort.preprocess U cut (InputProcessorPort.init U fs path) text,
         self')) /\
  (sub_digits U [] (sub_nonword U text)
   = InputProcessorPort.remove_special_characters U
       (InputProcessorPort.normalize_text
          (InputProcessorPort.extract_special_patterns U text)) ->
   exists tokens,
     CompareSimilarityPort.preprocess U cut
       (CompareSimilarityPort.init U fs path) text = join [32] tokens /\
     forall w, w <> [] ->
       (w ∈ tokens <->
        w ∈ InputProcessorPort.preprocess U cut
              (InputProcessorPort.init U fs path) text)) /\
  (Forall (fun c => c = 32 \/
                    (is_word U c = true /\ is_digit U c = false /\
                     is_space U c = false /\
                     ChineseTextPreprocessor.fold_char c = c)) text ->
   single_spaced U false text = true ->
   lstrip U text = text -> lstrip U (rev text) = rev text ->
   sub_digits U [] (sub_nonword U text) = text /\
   InputProcessorPort.remove_special_characters U
     (InputProcessorPort.normalize_text
        (InputProcessorPort.extract_special_patterns U text)) = text) /\
  (fs !! path = None ->
   strip U (sub_digits U [] (sub_nonword U text)) <> [] ->
   CompareSimilarityPort.preprocess U (fun t => [t])
     (CompareSimilarityPort.init U fs path) text
   = sub_digits U [] (sub_nonword U text) /\
   (sub_digits U [] (sub_nonword U text)
      ∈ InputProcessorPort.preprocess U (fun t => [t])
          (InputProcessorPort.init U fs path) text <->
    sub_digits U [] (sub_nonword U text)
    = InputProcessorPort.remove_special_characters U
        (InputProcessorPort.normalize_text
           (InputProcessorPort.extract_special_patterns U text)))).
Proof.
  split; [by eexists|]. split; [|split; [|split]].
  - intros Hnone. eexists.
    unfold ChineseTextPreprocessor.preprocess,
      ChineseTextPreprocessor.extract_special_patterns.
    cbn [mbind result_bind ChineseTextPreprocessor.cleaned_text].
    rewrite Hnone. cbn [foldl]. rewrite list_to_set_nil, (right_id_L ∅ (∪)).
    unfold InputProcessorPort.preprocess, InputProcessorPort.extract_special_patterns.
    rewrite Hnone. reflexivity.
  - intros Hsame.
    exists (filter (fun word =>
              (word ∉ CompareSimilarityPort.stop_words
                        (CompareSimilarityPort.init U fs path)) /\
              isspace U word = false)
             (cut (sub_digits U [] (sub_nonword U text)))).
    split; [reflexivity|].
    intros w Hw. rewrite service_preprocess_words, list_elem_of_filter, <- Hsame.
    rewrite (isspace_strip w Hw).
    change (CompareSimilarityPort.stop_words (CompareSimilarityPort.init U fs path))
      with (InputProcessorPort.stop_words (InputProcessorPort.init U fs path)).
    tauto.
  - intros Hplain Hspaced Hleft Hright.
    assert (Hclass : Forall (fun c => is_word U c || is_space U c = true) text).
    { eapply Forall_impl; [exact Hplain|].
      intros c [->|(Hw & _)]; [reflexivity|by rewrite Hw]. }
    assert (Hdigit : Forall (fun c => is_digit U c = false) text).
    { eapply Forall_impl; [exact Hplain|].
      by intros c [->|(_ & Hd & _)]. }
    assert (Hnonword : sub_nonword U text = text).
    { apply map_fixed. intros c Hc. rewrite Forall_forall in Hclass.
      by rewrite (Hclass c Hc). }
    assert (Hfold : InputProcessorPort.normalize_text text = text).
    { apply (map_fixed ChineseTextPreprocessor.fold_char). intros c Hc.
      rewrite Forall_forall in Hplain.
      by destruct (Hplain c Hc) as [->|(_ & _ & _ & Hf)]. }
    split.
    + unfold sub_digits. by rewrite Hnonword, (sub_runs_none _ _ text Hdigit).
    + unfold InputProcessorPort.extract_special_patterns, findall_special.
      rewrite (findall_special_plain text Hclass). cbn [foldl].
      rewrite Hfold. unfold InputProcessorPort.remove_special_characters.
      unfold sub_digits, sub_spaces.
      rewrite Hnonword, (sub_runs_none _ _ text Hdigit).
      rewrite (sub_spaces_fixed U text false Hspaced).
      * by apply strip_fixed.
      * intros c Hc Hs. rewrite Forall_forall in Hplain.
        destruct (Hplain c Hc) as [->|(_ & _ & Hs' & _)]; [reflexivity|].
        by rewrite Hs' in Hs.
  - intros Hnone Hstrip.
    set (q := sub_digits U [] (sub_nonword U text)) in *.
    assert (Hq : q <> []) by (intros Hq; by rewrite Hq in Hstrip).
    assert (Hstop : forall w : str,
              w ∉ InputProcessorPort.stop_words (InputProcessorPort.init U fs path)).
    { intros w. unfold InputProcessorPort.init, InputProcessorPort.load_stop_words.
      rewrite Hnone. apply not_elem_of_empty. }
    split.
    + unfold CompareSimilarityPort.preprocess. fold q.
      rewrite filter_cons_True; [reflexivity|].
      split; [apply Hstop|]. by apply isspace_strip.
    + rewrite service_preprocess_words, list_elem_of_singleton.
      split; [by intros (? & _)|]. intros Heq. split; [exact Heq|]. split; [apply Hstop|done].
Qed.

End ThreeEntryPoints.

(** A stop-word file with the line "the". *)
Lemma entry_points_related_witness :
  exists tokens,
    CompareSimilarityPort.preprocess Chars.corpus_db Segmenter.cut_runs
      (CompareSimilarityPort.init Chars.corpus_db
         {[ "stop_words.txt"%string := [116; 104; 101; 10] ]} "stop_words.txt")
      (codes "restart the server") = Py.join [32] tokens /\
    forall w, w <> [] ->
      (w ∈ tokens <->
       w ∈ InputProcessorPort.preprocess Chars.corpus_db Segmenter.cut_runs
             (InputProcessorPort.init Chars.corpus_db
                {[ "stop_words.txt"%string := [116; 104; 101; 10] ]} "stop_words.txt")
             (codes "restart the server")).
Proof.
  destruct (entry_points_related Chars.corpus_db Segmenter.cut_runs
              {[ "stop_words.txt"%string := [116; 104; 101; 10] ]} "stop_words.txt"
              (codes "restart the server")) as (_ & _ & Hsame & _).
  apply Hsame. reflexivity.
Defined.

(** With the stop word "the", the query path returns "restart server" and
    the service the tokens "restart" and "server". *)
Example entry_points_related_sample :
  CompareSimilarityPort.preprocess Chars.corpus_db Segmenter.cut_runs
    (CompareSimilarityPort.init Chars.corpus_db
       {[ "stop_words.txt"%string := [116; 104; 101; 10] ]} "stop_words.txt")
    (codes "restart the server") = codes "restart server" /\
  InputProcessorPort.preprocess Chars.corpus_db Segmenter.cut_runs
    (InputProcessorPort.init Chars.corpus_db
       {[ "stop_words.txt"%string := [116; 104; 101; 10] ]} "stop_words.txt")
    (codes "restart the server") = {[ codes "restart"; codes "server" ]}.
Proof. split; reflexivity. Qed.

(** C1 fails on "A/B", whatever the segmenter.  The batch preprocessor
    returns the token "A/B" and the service preprocessor drops it; the
    service returns no token at all, while the query path, which extracts
    no pattern, returns a string that holds the letter "A". *)
Lemma entry_points_disagree :
  (~ exists cut : str -> list str,
       (forall t, concat (cut t) = t) /\
       exists self',
         ChineseTextPreprocessor.preprocess Chars.corpus_db cut no_stop_words (codes "A/B") =
         Ok (InputProcessorPort.preprocess Chars.corpus_db cut
               (InputProcessorPort.init Chars.corpus_db ∅
                  "../dat/stop_words/stop_words_full.txt") (codes "A/B"),
             self')) /\
  (forall cut : str -> list str,
     (forall t, concat (cut t) = t) ->
     InputProcessorPort.preprocess Chars.corpus_db cut
       (InputProcessorPort.init Chars.corpus_db ∅
          "../dat/stop_words/stop_words_full.txt") (codes "A/B") = ∅ /\
     65 ∈ CompareSimilarityPort.preprocess Chars.corpus_db cut
            (CompareSimilarityPort.init Chars.corpus_db ∅
               "../dat/stop_words/stop_words_full.txt") (codes "A/B")).
Proof.
  split.
  - intros (cut & Hcover & self' & Hrun).
    assert (Hin : codes "A/B" ∈
              InputProcessorPort.preprocess Chars.corpus_db cut
                (InputProcessorPort.init Chars.corpus_db ∅
                   "../dat/stop_words/stop_words_full.txt") (codes "A/B")).
    { apply (batch_preprocess_words _ _ _ _ _ _ (codes "A/B") Hrun).
      right. vm_compute. by left. }
    apply service_preprocess_words in Hin as (Hin & _ & _).
    apply concat_token_length in Hin. rewrite Hcover in Hin.
    vm_compute in Hin. lia.
  - intros cut Hcover. split.
    + apply set_eq. intros w. rewrite service_preprocess_words.
      split; [|by intros ?%elem_of_empty].
      intros (Hw & _ & Hstrip). destruct Hstrip.
      replace (InputProcessorPort.remove_special_characters Chars.corpus_db _)
        with (@nil Z) in Hw by (vm_compute; reflexivity).
      by rewrite (concat_nil_tokens (cut []) w (Hcover [])).
    + unfold CompareSimilarityPort.preprocess.
      replace (Py.sub_digits Chars.corpus_db [] (Py.sub_nonword Chars.corpus_db (codes "A/B")))
        with (codes "A B") by (vm_compute; reflexivity).
      assert (Hin : 65 ∈ concat (cut (codes "A B"))) by (rewrite Hcover; by left).
      apply list_elem_of_In, in_concat in Hin as (w & Hw & Hc).
      apply list_elem_of_In in Hw, Hc.
      apply (elem_of_join _ _ w); [|exact Hc].
      apply list_elem_of_filter. split; [|exact Hw]. split.
      * unfold CompareSimilarityPort.init, CompareSimilarityPort.load_stop_words.
        rewrite lookup_empty. cbn. apply not_elem_of_empty.
      * unfold Py.isspace. destruct w as [|d w]; [reflexivity|].
        apply not_true_iff_false. intros Hall.
        rewrite forallb_forall in Hall. apply list_elem_of_In in Hc.
        by specialize (Hall 65 Hc).
Qed.

(** ** Full-width folding and the normalized text *)

Section FullWidthFolding.
Import Chars Py.
Variable U : unicode_db.

Lemma ascii_alpha_classes (c : Z) :
  ascii_alpha c = true ->
  is_word U c = true /\ is_space U c = false /\ is_digit U c = false.
Proof.
  intros Ha. assert (Hrange : 65 <= c <= 122) by (unfold ascii_alpha in Ha; lia).
  unfold is_word, is_space, is_digit, ascii_space, ascii_digit.
  replace (c <? 128) with true by lia. rewrite Ha. split; [reflexivity|]. lia.
Qed.

Lemma letters_cons (c : Z) (text : str) :
  letters (c :: text) = ((if ascii_alpha c then 1 else 0) + letters text)%nat.
Proof.
  unfold letters. rewrite filter_cons.
  destruct (decide (ascii_alpha c = true)) as [->|Hc]; [reflexivity|].
  by apply not_true_is_false in Hc as ->.
Qed.

Lemma letters_app (l k : str) : letters (l ++ k) = (letters l + letters k)%nat.
Proof. unfold letters. by rewrite filter_app, length_app. Qed.

Lemma letters_rev (l : str) : letters (rev l) = letters l.
Proof.
  induction l as [|c l IH]; [reflexivity|].
  cbn [rev]. rewrite letters_app, IH, !letters_cons. unfold letters at 2. cbn. lia.
Qed.

Lemma letters_sub_runs (f : Z -> bool) (rep text : str) :
  (forall c, f c = true -> ascii_alpha c = false) ->
  letters rep = 0%nat ->
  forall in_run, letters (sub_runs f rep in_run text) = letters text.
Proof.
  intros Hf Hrep. induction text as [|c text IH]; intros in_run; [reflexivity|].
  cbn [sub_runs]. destruct (f c) eqn:Hc.
  - rewrite letters_app, IH, letters_cons, (Hf c Hc).
    destruct in_run; [reflexivity|]. by rewrite Hrep.
  - by rewrite !letters_cons, IH.
Qed.

Lemma letters_lstrip (text : str) : letters (lstrip U text) = letters text.
Proof.
  induction text as [|c text IH]; [reflexivity|].
  cbn [lstrip]. destruct (is_space U c) eqn:Hc; [|reflexivity].
  rewrite IH, letters_cons.
  destruct (ascii_alpha c) eqn:Ha; [|reflexivity].
  apply ascii_alpha_classes in Ha as (_ & Hs & _). by rewrite Hs in Hc.
Qed.

Lemma letters_strip (text : str) : letters (strip U text) = letters text.
Proof.
  unfold strip, rstrip. by rewrite letters_rev, letters_lstrip, letters_rev, letters_lstrip.
Qed.

Lemma letters_sub_nonword (text : str) : letters (sub_nonword U text) = letters text.
Proof.
  unfold sub_nonword. induction text as [|c text IH]; [reflexivity|].
  cbn [map]. rewrite !letters_cons, IH. f_equal.
  destruct (ascii_alpha c) eqn:Ha.
  - destruct (ascii_alpha_classes c Ha) as (-> & _ & _). cbn. by rewrite Ha.
  - destruct (is_word U c || is_space U c); [by rewrite Ha|reflexivity].
Qed.

(** Cleaning a text keeps its Latin letters. *)
Lemma letters_remove_special_characters (text : str) :
  letters (ChineseTextPreprocessor.remove_special_characters U text) = letters text.
Proof.
  unfold ChineseTextPreprocessor.remove_special_characters, sub_spaces, sub_digits.
  rewrite letters_strip.
  rewrite letters_sub_runs; [|intros c Hc|reflexivity].
  2:{ destruct (ascii_alpha c) eqn:Ha; [|reflexivity].
      apply ascii_alpha_classes in Ha as (_ & Hs & _). by rewrite Hs in Hc. }
  rewrite letters_sub_runs; [|intros c Hc|reflexivity].
  2:{ destruct (ascii_alpha c) eqn:Ha; [|reflexivity].
      apply ascii_alpha_classes in Ha as (_ & _ & Hd). by rewrite Hd in Hc. }
  apply letters_sub_nonword.
Qed.

Lemma letters_sublist (l k : str) : l `sublist_of` k -> (letters l <= letters k)%nat.
Proof.
  induction 1 as [|c l k _ IH|c l k _ IH]; [done| |]; rewrite ?letters_cons; lia.
Qed.

(** Removing a pattern that begins with a letter and stands in the text
    costs the text a letter. *)
Lemma replace_scan_letters (a : Z) (old pre post : str) :
  ascii_alpha a = true ->
  (letters (replace_scan (a :: old) [] 0 (pre ++ (a :: old) ++ post))
   < letters (pre ++ (a :: old) ++ post))%nat.
Proof.
  intros Ha.
  assert (Hhit : forall text,
    startswith (a :: old) text = true ->
    (letters (replace_scan (a :: old) [] 0 text) < letters text)%nat).
  { intros [|c rest] Hstart; [done|].
    cbn [replace_scan]. rewrite Hstart. cbn [app].
    cbn [startswith] in Hstart. apply andb_true_iff in Hstart as [Hc%Z.eqb_eq _].
    subst c. rewrite letters_cons, Ha.
    pose proof (letters_sublist _ _
                  (replace_scan_sublist (a :: old) rest (length (a :: old) - 1))).
    lia. }
  induction pre as [|c pre IH].
  - cbn [app]. apply Hhit. apply (startswith_app (a :: old) post).
  - change ((c :: pre) ++ (a :: old) ++ post) with (c :: (pre ++ (a :: old) ++ post)).
    set (rest := pre ++ (a :: old) ++ post) in *.
    destruct (startswith (a :: old) (c :: rest)) eqn:Hstart.
    + by apply Hhit.
    + cbn [replace_scan]. rewrite Hstart. rewrite !letters_cons. lia.
Qed.

(** Extracting a special pattern costs the text a letter. *)
Lemma extract_special_patterns_letters (text : str) :
  findall_special U text <> [] ->
  (letters (InputProcessorPort.extract_special_patterns U text) < letters text)%nat.
Proof.
  unfold InputProcessorPort.extract_special_patterns.
  destruct (findall_special U text) as [|p patterns] eqn:Hfind; [done|]. intros _.
  assert (Hp : p ∈ findall_special U text) by (rewrite Hfind; by left).
  apply findall_special_scan_sound in Hp as (Hshape & pre & post & Htext).
  apply special_at_shape in Hshape as (a & x & b & rest & _ & -> & Ha & _).
  cbn [foldl].
  pose proof (letters_sublist _ _
                (remove_patterns_sublist patterns (replace [a; x; b] [] text))) as Hrest.
  pose proof (replace_scan_letters a [x; b] pre post Ha) as Hfirst.
  rewrite <- Htext in Hfirst.
  change (replace_scan [a; x; b] [] 0 text) with (replace [a; x; b] [] text) in Hfirst.
  lia.
Qed.

Lemma normalized_text_unfold (text : str) :
  normalized_text U text
  = ChineseTextPreprocessor.remove_special_characters U
      (ChineseTextPreprocessor.normalize_text
         (InputProcessorPort.extract_special_patterns U text)).
Proof. reflexivity. Qed.

(** C8, as the code has it.  [full_to_half] keeps the length of the
    string and rewrites it character by character: a code point in
    U+FF01..U+FF5E moves down by 0xFEE0, U+3000 becomes the space,
    anything else is kept.  The text handed to the segmenter is cut out
    of the raw text before the folding, so for the full-width spelling
    [s] of a printable ASCII string [h]: the folding of [s] is [h]; the
    normalized text of [s] is [h] with its special characters removed;
    and it is the normalized text of [h] exactly when [h] holds no
    special pattern. *)
Theorem full_to_half_folds (s : str) :
  length (ChineseTextPreprocessor.full_to_half s) = length s /\
  (forall (i : nat) (c : Z), s !! i = Some c ->
     (0xFF01 <= c <= 0xFF5E ->
      ChineseTextPreprocessor.full_to_half s !! i = Some (c - 0xFEE0)) /\
     (c = 0x3000 -> ChineseTextPreprocessor.full_to_half s !! i = Some 32) /\
     (~ (0xFF01 <= c <= 0xFF5E) -> c <> 0x3000 ->
      ChineseTextPreprocessor.full_to_half s !! i = Some c)) /\
  (forall (cut : str -> list str) (self : ChineseTextPreprocessor.self_t),
     exists self',
       ChineseTextPreprocessor.preprocess U cut self s
       = Ok (filter (fun word => strip U word <> [])
               (ChineseTextPreprocessor.remove_stop_words cut self (normalized_text U s))
             ∪ list_to_set (findall_special U s), self')) /\
  (forall h : str,
     Forall (fun c => 0x20 <= c <= 0x7E) h ->
     s = map to_full_width h ->
     ChineseTextPreprocessor.normalize_text s = h /\
     ChineseTextPreprocessor.normalize_text h = h /\
     normalized_text U s = ChineseTextPreprocessor.remove_special_characters U h /\
     (normalized_text U s = normalized_text U h <-> findall_special U h = [])).
Proof.
  split; [apply length_map|]. split; [|split].
  - unfold ChineseTextPreprocessor.full_to_half.
    intros i c Hi. rewrite list_lookup_fmap, Hi. simpl.
    unfold ChineseTextPreprocessor.fold_char. repeat split.
    + intros [Hlo Hhi].
      apply Z.leb_le in Hlo. apply Z.leb_le in Hhi. by rewrite Hlo, Hhi.
    + intros ->. reflexivity.
    + intros Hout Hne.
      destruct (Z.leb_spec 65281 c), (Z.leb_spec c 65374); simpl; try lia;
        by apply Z.eqb_neq in Hne as ->.
  - intros cut self. eexists. reflexivity.
  - intros h Hh ->.
    assert (Hfull : normalized_text U (map to_full_width h)
                    = ChineseTextPreprocessor.remove_special_characters U h).
    { rewrite normalized_text_unfold.
      unfold InputProcessorPort.extract_special_patterns, findall_special.
      rewrite findall_special_no_alpha.
      2:{ apply Forall_map. eapply Forall_impl; [exact Hh|].
          apply to_full_width_not_alpha. }
      cbn [foldl].
      unfold ChineseTextPreprocessor.normalize_text, ChineseTextPreprocessor.full_to_half.
      by rewrite (full_to_half_full_width h Hh). }
    assert (Hhalf : normalized_text U h
                    = ChineseTextPreprocessor.remove_special_characters U
                        (InputProcessorPort.extract_special_patterns U h)).
    { rewrite normalized_text_unfold.
      unfold ChineseTextPreprocessor.normalize_text, ChineseTextPreprocessor.full_to_half.
      rewrite full_to_half_half_width; [reflexivity|].
      apply Forall_forall. intros c Hc. rewrite Forall_forall in Hh. apply Hh.
      apply (elem_of_sublist _ _ c Hc).
      apply remove_patterns_sublist. }
    unfold ChineseTextPreprocessor.normalize_text, ChineseTextPreprocessor.full_to_half.
    rewrite (full_to_half_full_width h Hh), (full_to_half_half_width h Hh).
    split; [reflexivity|]. split; [reflexivity|]. split; [exact Hfull|].
    rewrite Hfull, Hhalf. split.
    + intros Heq.
      destruct (findall_special U h) as [|p patterns] eqn:Hfind; [reflexivity|].
      exfalso.
      pose proof (extract_special_patterns_letters h) as Hless.
      rewrite Hfind in Hless. specialize (Hless ltac:(done)).
      apply (f_equal letters) in Heq.
      rewrite !letters_remove_special_characters in Heq. lia.
    + intros Hnone. unfold InputProcessorPort.extract_special_patterns.
      by rewrite Hnone.
Qed.

End FullWidthFolding.

(** "server 42 down!" holds no special pattern: its full-width spelling
    and the text itself are normalized to the same text. *)
Lemma full_to_half_folds_witness :
  normalized_text Chars.corpus_db (map to_full_width (codes "server 42 down!"))
  = normalized_text Chars.corpus_db (codes "server 42 down!").
Proof.
  destruct (full_to_half_folds Chars.corpus_db (map to_full_width (codes "server 42 down!")))
    as (_ & _ & _ & Hsame).
  destruct (Hsame (codes "server 42 down!")) as (_ & _ & _ & Hiff).
  - change (codes "server 42 down!")
      with [115; 101; 114; 118; 101; 114; 32; 52; 50; 32; 100; 111; 119; 110; 33].
    repeat (constructor; [lia|]). constructor.
  - reflexivity.
  - apply Hiff. reflexivity.
Defined.

(** C8 fails on a text with a special pattern.  From "A/B 12" the
    pattern "A/B" is cut out before the folding and nothing is left for
    the segmenter; in the full-width spelling no pattern is found, and the
    segmenter gets "A B". *)
Lemma full_width_spelling_normalized_differently :
  (forall U, normalized_text U (codes "A/B 12") = []) /\
  (forall U, normalized_text U (map to_full_width (codes "A/B 12")) = codes "A B") /\
  (forall U, normalized_text U (map to_full_width (codes "A/B 12"))
             <> normalized_text U (codes "A/B 12")).
Proof.
  assert (H1 : forall U, normalized_text U (codes "A/B 12") = []) by reflexivity.
  assert (H2 : forall U, normalized_text U (map to_full_width (codes "A/B 12"))
                         = codes "A B") by reflexivity.
  split; [exact H1|]. split; [exact H2|].
  intros U. by rewrite H1, H2.
Qed.

(** ** Which special tokens the scan takes *)

Section TakenMatches.
Import Chars Py.
Variable U : unicode_db.
Variable cut : str -> list str.

(** Two substrings of the special-token shape do not start at
    neighbouring positions. *)
Lemma special_at_not_adjacent (c : Z) (suf : str) :
  is_Some (special_at U (c :: suf)) -> is_Some (special_at U suf) -> False.
Proof.
  intros [m Hm] [m' Hm'].
  apply special_at_shape in Hm as (a & x & b & rest & [= -> ->] & _ & _ & Hx & _).
  apply special_at_shape in Hm' as (a' & x' & b' & rest' & [= -> -> ->] & _ & Ha' & _).
  destruct (ascii_alpha_classes U a' Ha') as (Hw & _). congruence.
Qed.

Lemma overlaps_before_some (c1 c2 : Z) (r suf : str) :
  is_Some (special_at U (c2 :: c1 :: suf)) ->
  overlaps_before U (c1 :: c2 :: r) = S (overlaps_before U r).
Proof.
  intros [m Hm].
  apply special_at_shape in Hm as (a & x & b & rest & [= -> -> ->] & _ & Ha & Hw & Hs & _).
  cbn [overlaps_before]. by rewrite Ha, Hw, Hs.
Qed.

Lemma overlaps_before_none (c1 c2 : Z) (r suf : str) :
  is_Some (special_at U suf) -> special_at U (c2 :: c1 :: suf) = None ->
  overlaps_before U (c1 :: c2 :: r) = 0%nat.
Proof.
  intros [m Hm] Hnone.
  apply special_at_shape in Hm as (a & x & b & rest & -> & _ & Ha & _).
  cbn [special_at] in Hnone. rewrite Ha, andb_true_r in Hnone.
  cbn [overlaps_before].
  by destruct (ascii_alpha c2 && negb (is_word U c1 || is_space U c1)).
Qed.

Lemma even_succ_false (n : nat) : Nat.even n = false -> Nat.even (S n) = true.
Proof. intros Hn. by rewrite Nat.even_succ, <- Nat.negb_even, Hn. Qed.

Lemma even_succ_true (n : nat) : Nat.even n = true -> Nat.even (S n) = false.
Proof. intros Hn. by rewrite Nat.even_succ, <- Nat.negb_even, Hn. Qed.

(** Where the scan stands free, a match has an even chain before it. *)
Lemma scan_state_free (rpre suf : str) :
  scan_state U rpre suf 0 -> is_Some (special_at U suf) ->
  Nat.even (overlaps_before U rpre) = true.
Proof.
  intros Hstate Hshape. destruct rpre as [|c1 [|c2 r]]; [reflexivity|reflexivity|].
  destruct Hstate as [_ Hpass].
  destruct (special_at U (c2 :: c1 :: suf)) as [m|] eqn:Hbefore.
  - rewrite (overlaps_before_some c1 c2 r suf) by (rewrite Hbefore; by eexists).
    apply even_succ_false, Hpass. rewrite Hbefore. by eexists.
  - by rewrite (overlaps_before_none c1 c2 r suf Hshape Hbefore).
Qed.

(** Where the scan is inside a match, a match has an odd chain before
    it. *)
Lemma scan_state_inside (rpre suf : str) (skip : nat) :
  scan_state U rpre suf (S skip) -> is_Some (special_at U suf) ->
  Nat.even (overlaps_before U rpre) = false.
Proof.
  intros Hstate Hshape. destruct skip as [|[|skip]].
  - destruct rpre as [|c1 [|c2 r]]; try done.
    destruct Hstate as [Hbefore Heven].
    rewrite (overlaps_before_some c1 c2 r suf Hbefore). by apply even_succ_true.
  - destruct rpre as [|c1 r]; [done|].
    destruct Hstate as [Hbefore _].
    destruct (special_at_not_adjacent c1 suf Hbefore Hshape).
  - by destruct rpre as [|c1 [|c2 r]].
Qed.

Lemma scan_state_step (rpre rest : str) (c : Z) (skip : nat) :
  scan_state U rpre (c :: rest) skip ->
  scan_state U (c :: rpre) rest
    (match skip with
     | S k => k
     | O => match special_at U (c :: rest) with Some _ => 2 | None => 0 end
     end).
Proof.
  intros Hstate. destruct skip as [|[|[|skip]]].
  - destruct (special_at U (c :: rest)) as [m|] eqn:Hhead.
    + split; [by eexists|]. apply (scan_state_free rpre (c :: rest) Hstate).
      rewrite Hhead. by eexists.
    + assert (Hhere : forall r, passes U r (c :: rest)).
      { intros r [m Hm]. congruence. }
      destruct rpre as [|c1 [|c2 r]]; [apply Hhere|split; [apply Hhere|exact Hstate]|].
      split; [apply Hhere|]. by destruct Hstate.
  - destruct rpre as [|c1 [|c2 r]]; try done. split.
    + intros Hshape. by apply (scan_state_inside _ _ 0%nat Hstate).
    + intros Hshape. destruct Hstate as [Hbefore _].
      destruct (special_at_not_adjacent c2 (c1 :: c :: rest) Hbefore Hshape).
  - destruct rpre as [|c1 r]; [done|]. exact Hstate.
  - by destruct rpre as [|c1 [|c2 r]].
Qed.

(** The matches the scan returns are those with an even chain of
    overlapping substrings of the shape before them. *)
Lemma findall_special_scan_takes (suf : str) :
  forall rpre skip,
    scan_state U rpre suf skip ->
    forall m,
      m ∈ findall_special_scan U skip suf <->
      exists mid rest,
        suf = mid ++ rest /\ special_at U rest = Some m /\
        Nat.even (overlaps_before U (rev mid ++ rpre)) = true.
Proof.
  induction suf as [|c rest0 IH]; intros rpre skip Hstate m.
  - cbn [findall_special_scan]. split; [by intros ?%elem_of_nil|].
    intros (mid & rest & Heq & Hm & _). symmetry in Heq.
    apply app_eq_nil in Heq as [_ ->]. discriminate.
  - pose proof (scan_state_step rpre rest0 c skip Hstate) as Hnext.
    assert (Hsplit :
      (exists mid rest,
         c :: rest0 = mid ++ rest /\ special_at U rest = Some m /\
         Nat.even (overlaps_before U (rev mid ++ rpre)) = true) <->
      (special_at U (c :: rest0) = Some m /\ Nat.even (overlaps_before U rpre) = true) \/
      (exists mid rest,
         rest0 = mid ++ rest /\ special_at U rest = Some m /\
         Nat.even (overlaps_before U (rev mid ++ c :: rpre)) = true)).
    { split.
      - intros ([|d mid] & rest & Heq & Hm & Heven).
        + left. cbn [app] in Heq. subst rest. by split.
        + right. injection Heq as <- ->. exists mid, rest.
          split; [reflexivity|]. split; [exact Hm|].
          cbn [rev] in Heven. by rewrite <- app_assoc in Heven.
      - intros [[Hm Heven]|(mid & rest & -> & Hm & Heven)].
        + by exists [], (c :: rest0).
        + exists (c :: mid), rest. split; [reflexivity|]. split; [exact Hm|].
          cbn [rev]. by rewrite <- app_assoc. }
    rewrite Hsplit. cbn [findall_special_scan].
    destruct skip as [|skip].
    + destruct (special_at U (c :: rest0)) as [m0|] eqn:Hhead.
      * rewrite elem_of_cons, (IH _ _ Hnext m).
        assert (Heven : Nat.even (overlaps_before U rpre) = true).
        { apply (scan_state_free rpre (c :: rest0) Hstate). rewrite Hhead. by eexists. }
        split; (intros [H|H]; [left|by right]).
        -- subst m. by split.
        -- destruct H as [[= ->] _]. reflexivity.
      * rewrite (IH _ _ Hnext m). split; [by right|].
        intros [[Hm _]|H]; [discriminate|exact H].
    + rewrite (IH _ _ Hnext m). split; [by right|].
      intros [[Hm Heven]|H]; [|exact H].
      rewrite (scan_state_inside rpre (c :: rest0) skip Hstate) in Heven; [done|].
      rewrite Hm. by eexists.
Qed.

Lemma special_at_app (m post : str) :
  special_at U m = Some m -> special_at U (m ++ post) = Some m.
Proof.
  intros Hm. pose proof Hm as Hshape.
  apply special_at_shape in Hshape as (a & x & b & rest & _ & -> & Ha & Hw & Hs & Hb).
  apply special_at_shape. by exists a, x, b, post.
Qed.

(** C4, as the code has it.  A substring of the special-token shape is
    in the token set when the number of substrings of that shape standing
    in an unbroken chain directly before it, each sharing its last letter
    with the next, is even (zero included): the scan of [re.findall]
    takes every other match of such a chain, the first one first.  The
    patterns extracted are exactly the substrings with such an
    occurrence. *)
Theorem special_token_preserved
    (self : ChineseTextPreprocessor.self_t) (text pre post : str) (a x b : Z) :
  text = pre ++ a :: x :: b :: post ->
  ascii_alpha a = true -> is_word U x = false -> is_space U x = false ->
  ascii_alpha b = true ->
  Nat.even (overlaps_before U (rev pre)) = true ->
  (exists words self',
     ChineseTextPreprocessor.preprocess U cut self text = Ok (words, self') /\
     [a; x; b] ∈ words) /\
  (forall m,
     m ∈ findall_special U text <->
     exists pre' post',
       text = pre' ++ m ++ post' /\ special_at U m = Some m /\
       Nat.even (overlaps_before U (rev pre')) = true).
Proof.
  intros Htext Ha Hw Hs Hb Heven.
  assert (Hexact : forall m,
    m ∈ findall_special U text <->
    exists pre' post',
      text = pre' ++ m ++ post' /\ special_at U m = Some m /\
      Nat.even (overlaps_before U (rev pre')) = true).
  { intros m. unfold findall_special.
    rewrite (findall_special_scan_takes text [] 0%nat I m). split.
    - intros (mid & rest & Heq & Hm & Hmid). rewrite app_nil_r in Hmid.
      apply special_at_prefix in Hm as (Hshape & post' & ->).
      by exists mid, post'.
    - intros (pre' & post' & Heq & Hshape & Hpre').
      exists pre', (m ++ post'). split; [exact Heq|].
      split; [by apply special_at_app|]. by rewrite app_nil_r. }
  split; [|exact Hexact].
  eexists _, _. split; [reflexivity|].
  apply elem_of_union. right. cbn [fst snd].
  apply elem_of_list_to_set. apply Hexact.
  exists pre, post. split; [exact Htext|]. split; [|exact Heven].
  apply special_at_shape. by exists a, x, b, [].
Qed.

End TakenMatches.

(** In "A/B/C/D" the scan takes "A/B", passes over "B/C" and takes "C/D":
    two substrings of the shape stand in a chain before "C/D". *)
Lemma special_token_preserved_witness :
  exists words self',
    ChineseTextPreprocessor.preprocess Chars.corpus_db Segmenter.cut_runs
      no_stop_words (codes "A/B/C/D") = Ok (words, self') /\
    codes "C/D" ∈ words.
Proof.
  destruct (special_token_preserved Chars.corpus_db Segmenter.cut_runs no_stop_words
              (codes "A/B/C/D") (codes "A/B/") [] 67 47 68) as [Hkept _];
    try reflexivity.
  exact Hkept.
Defined.

Example special_tokens_of_a_chain :
  Py.findall_special Chars.corpus_db (codes "A/B/C/D") = [codes "A/B"; codes "C/D"] /\
  overlaps_before Chars.corpus_db (rev (codes "A/B/")) = 2%nat /\
  overlaps_before Chars.corpus_db (rev (codes "A/")) = 1%nat /\
  Py.findall_special Chars.corpus_db (codes "an A/B test") = [codes "A/B"] /\
  overlaps_before Chars.corpus_db (rev (codes "an ")) = 0%nat.
Proof. repeat split; reflexivity. Qed.
